(** * Employee-Activity-Monitor: the reconstruction-and-aggregation engine

    A shallow embedding of [database.py] (event store queries, timeline
    segmentation, application-identity normalisation, per-employee and
    company-wide usage aggregation) and of the movement batch of
    [activity_detector.py], followed by the properties proved about them.

    Modelling conventions.
    - A Python [str] is a list of Unicode code points ([pystr]).  [lower] and
      [title] are exact on ASCII letters and leave other code points
      unchanged; whitespace is Python's [str.isspace] set.
    - A [datetime] is its number of microseconds since the epoch, a
      [timedelta] a difference of two such numbers, a [date] a number of days.
      ISO strings written by [isoformat] order as the instants they denote,
      so SQL [BETWEEN]/[ORDER BY] on the text column is comparison on [Z].
    - A [float] number of minutes is an exact rational ([Q]); [round(x, 2)]
      rounds to the nearest hundredth, ties to even.  Binary rounding error of
      IEEE arithmetic is outside the model.
    - SQLite is a record of tables (lists of rows in insertion order).  A
      write raises when the store does not accept it ([db_writable]); an
      uncommitted transaction leaves every table as it was.
    - [datetime.utcnow()] is an explicit argument [now]. *)

From Stdlib Require Import ZArith QArith Qround Qabs Lqa Lia List Bool.
From Stdlib Require Import Sorted Permutation.
From Stdlib Require Import String Ascii.
Import ListNotations.

Set Implicit Arguments.

(* ------------------------------------------------------------------ *)
(** ** Python strings *)

Module PyStr.

Definition pystr := list N.

(** An ASCII literal as a Python string. *)
Definition py (s : string) : pystr :=
  List.map N_of_ascii (list_ascii_of_string s).

Fixpoint eqb (a b : pystr) : bool :=
  match a, b with
  | [], [] => true
  | x :: a', y :: b' => N.eqb x y && eqb a' b'
  | _, _ => false
  end.

(** [s.startswith(p)] *)
Fixpoint startswith (p s : pystr) : bool :=
  match p, s with
  | [], _ => true
  | _ :: _, [] => false
  | x :: p', y :: s' => N.eqb x y && startswith p' s'
  end.

(** [s.endswith(p)] *)
Definition endswith (p s : pystr) : bool := startswith (rev p) (rev s).

(** [sub in s] *)
Fixpoint contains (sub s : pystr) : bool :=
  startswith sub s ||
  match s with
  | [] => false
  | _ :: s' => contains sub s'
  end.

(** [s.split(sep)] for a non-empty [sep]: a left-to-right scan for
    non-overlapping occurrences.  [skip] counts the code points of a matched
    separator still to be passed, [cur] is the current piece, reversed. *)
Fixpoint split_go (sep s : pystr) (skip : nat) (cur : pystr) : list pystr :=
  match s with
  | [] => [rev cur]
  | c :: s' =>
      match skip with
      | S k => split_go sep s' k cur
      | O =>
          if startswith sep s
          then rev cur :: split_go sep s' (List.length sep - 1) []
          else split_go sep s' 0 (c :: cur)
      end
  end.

Definition split (sep s : pystr) : list pystr := split_go sep s 0 [].

(** [parts[0]] and [parts[-1]] of a list that [split] returned (never empty;
    the default is not reached). *)
Definition first_part (parts : list pystr) : pystr := hd [] parts.
Definition last_part (parts : list pystr) : pystr := last parts [].

(** [str.isspace] on one code point. *)
Definition isspace (c : N) : bool :=
  ((9 <=? c) && (c <=? 13) || (28 <=? c) && (c <=? 32) ||
   (c =? 133) || (c =? 160) || (c =? 5760) ||
   (8192 <=? c) && (c <=? 8202) || (c =? 8232) || (c =? 8233) ||
   (c =? 8239) || (c =? 8287) || (c =? 12288))%N.

Fixpoint lstrip (s : pystr) : pystr :=
  match s with
  | c :: s' => if isspace c then lstrip s' else s
  | [] => []
  end.

(** [s.strip()] *)
Definition strip (s : pystr) : pystr := rev (lstrip (rev (lstrip s))).

(** [s.split()]: the maximal runs of non-whitespace code points. *)
Fixpoint split_ws_go (s : pystr) (cur : pystr) : list pystr :=
  match s with
  | [] => match cur with [] => [] | _ => [rev cur] end
  | c :: s' =>
      if isspace c
      then match cur with
           | [] => split_ws_go s' []
           | _ => rev cur :: split_ws_go s' []
           end
      else split_ws_go s' (c :: cur)
  end.

Definition split_ws (s : pystr) : list pystr := split_ws_go s [].

Definition is_upper (c : N) : bool := ((65 <=? c) && (c <=? 90))%N.
Definition is_lower (c : N) : bool := ((97 <=? c) && (c <=? 122))%N.
Definition to_lower (c : N) : N := if is_upper c then (c + 32)%N else c.
Definition to_upper (c : N) : N := if is_lower c then (c - 32)%N else c.

(** [s.lower()] *)
Definition lower (s : pystr) : pystr := List.map to_lower s.

(** [s.title()]: a cased code point is upper-cased after an uncased one and
    lower-cased after a cased one. *)
Fixpoint title_go (s : pystr) (prev_cased : bool) : pystr :=
  match s with
  | [] => []
  | c :: s' =>
      if is_upper c || is_lower c
      then (if prev_cased then to_lower c else to_upper c) :: title_go s' true
      else c :: title_go s' false
  end.

Definition title (s : pystr) : pystr := title_go s false.

(** [s.replace(c, '')] for a one-code-point [c]. *)
Definition remove_char (c : N) (s : pystr) : pystr :=
  List.filter (fun x => negb (N.eqb x c)) s.

(** [s[:k]] and [s[:-k]] *)
Definition take (k : nat) (s : pystr) : pystr := firstn k s.
Definition drop_last (k : nat) (s : pystr) : pystr :=
  firstn (List.length s - k) s.

(** [len(s)] *)
Definition len (s : pystr) : Z := Z.of_nat (List.length s).

(** Truthiness of an optional string: [None] and [''] are false. *)
Definition truthy (o : option pystr) : bool :=
  match o with
  | Some (_ :: _) => true
  | _ => false
  end.

(** [a or b] on optional strings, when [b] is a string. *)
Definition or_else (o : option pystr) (d : pystr) : pystr :=
  match o with
  | Some (c :: s) => c :: s
  | _ => d
  end.

(** [x in (a, b, ...)] *)
Definition in_tuple (x : pystr) (t : list pystr) : bool := existsb (eqb x) t.

End PyStr.
Import PyStr.

(* ------------------------------------------------------------------ *)
(** ** Time, floats and exceptions *)

Definition timestamp := Z.
Definition date := Z.
Bind Scope Z_scope with timestamp date.

Definition MICROS_PER_DAY : Z := 86400000000.

(** [timedelta.total_seconds()] of a difference of [d] microseconds. *)
Definition total_seconds (d : Z) : Q := d # 1000000.

(** [(b - a).total_seconds() / 60.0] *)
Definition delta_minutes (a b : timestamp) : Q := total_seconds (b - a) / 60.

(** [max(0.0, x)]: [x] when it is greater than [0.0]. *)
Definition max0 (x : Q) : Q := if Qle_bool x 0 then 0 else x.

(** Rounding to the nearest integer, ties to the even one. *)
Definition round_half_even (x : Q) : Z :=
  let f := Qfloor x in
  match Qcompare (x - inject_Z f) (1 # 2) with
  | Lt => f
  | Gt => f + 1
  | Eq => if Z.even f then f else f + 1
  end%Z.

(** [round(x, 2)] *)
Definition round2 (x : Q) : Q := round_half_even (x * 100) # 100.

(** [int(x)] on a float: truncation toward zero. *)
Definition int_of_seconds (d : Z) : Z := Z.quot d 1000000.

(** [datetime.utcnow().date()] *)
Definition date_of (now : timestamp) : date := Z.div now MICROS_PER_DAY.

(** [day or datetime.utcnow().date()] *)
Definition day_or_today (day : option date) (now : timestamp) : date :=
  match day with
  | Some d => d
  | None => date_of now
  end.

(** [_day_bounds]: midnight and 23:59:59.999999 of the day. *)
Definition _day_bounds (day : date) : timestamp * timestamp :=
  let start := (day * MICROS_PER_DAY)%Z in
  (start, (start + MICROS_PER_DAY - 1)%Z).

Inductive exn : Type :=
| IndexError
| OperationalError.

Inductive outcome (A : Type) : Type :=
| Ok (a : A)
| Raise (e : exn).
Arguments Ok {A} a.
Arguments Raise {A} e.

Definition bind {A B : Type} (m : outcome A) (k : A -> outcome B) : outcome B :=
  match m with
  | Ok a => k a
  | Raise e => Raise e
  end.

Notation "x <- m ;; k" := (bind m (fun x => k))
  (at level 61, m at next level, right associativity).

(* ------------------------------------------------------------------ *)
(** ** Insertion-ordered dictionaries *)

Module Dict.
Section Dict.
Variable V : Type.

Definition dict := list (pystr * V).

(** [d.get(k)] *)
Fixpoint get (d : dict) (k : pystr) : option V :=
  match d with
  | [] => None
  | (k', v) :: d' => if PyStr.eqb k k' then Some v else get d' k
  end.

(** [k in d] *)
Definition mem (d : dict) (k : pystr) : bool :=
  match get d k with Some _ => true | None => false end.

(** [d[k] = v]: an existing key keeps its position, a new one goes last. *)
Fixpoint set (d : dict) (k : pystr) (v : V) : dict :=
  match d with
  | [] => [(k, v)]
  | (k', v') :: d' =>
      if PyStr.eqb k k' then (k', v) :: d' else (k', v') :: set d' k v
  end.

Definition keys (d : dict) : list pystr := List.map fst d.
End Dict.
End Dict.

(** [sorted(items, key=lambda x: x[1], reverse=True)]: stable, descending. *)
Section SortDesc.
Variable A : Type.
Variable key : A -> Q.

Fixpoint insert_desc (x : A) (l : list A) : list A :=
  match l with
  | [] => [x]
  | y :: l' =>
      if Qle_bool (key y) (key x) then x :: l else y :: insert_desc x l'
  end.

Definition sorted_desc (l : list A) : list A :=
  fold_right insert_desc [] l.
End SortDesc.

(* ------------------------------------------------------------------ *)
(** ** The event store *)

Record Event : Type := mkEvent {
  ev_id : Z;
  ev_employee_id : pystr;
  ev_timestamp : timestamp;
  ev_event_type : pystr;
  ev_active_window : option pystr;
  ev_process_name : option pystr
}.

Record Screenshot : Type := mkScreenshot {
  sh_employee_id : pystr;
  sh_timestamp : timestamp;
  sh_path : pystr
}.

(** One buffered movement record: [(timestamp, event_type, detail, distance)]. *)
Record Movement : Type := mkMovement {
  mv_timestamp : timestamp;
  mv_event_type : pystr;
  mv_detail : pystr;
  mv_distance : Q
}.

Record MovementRow : Type := mkMovementRow {
  ml_employee_id : option pystr;
  ml_timestamp : timestamp;
  ml_event_type : pystr;
  ml_detail : pystr;
  ml_distance_px : Q
}.

Record Database : Type := mkDatabase {
  db_employees : list pystr;
  db_events : list Event;
  db_screenshots : list Screenshot;
  db_movement_logs : list MovementRow;
  db_writable : bool
}.

(** [ORDER BY timestamp]: rows with equal timestamps stay in insertion order. *)
Fixpoint insert_by_ts (e : Event) (l : list Event) : list Event :=
  match l with
  | [] => [e]
  | x :: l' =>
      if (ev_timestamp e <=? ev_timestamp x)%Z then e :: l
      else x :: insert_by_ts e l'
  end.

Definition order_by_timestamp (l : list Event) : list Event :=
  fold_right insert_by_ts [] l.

(** [WHERE employee_id=? AND timestamp BETWEEN ? AND ?] *)
Definition in_range (employee_id : pystr) (start end_ : timestamp) (e : Event) : bool :=
  PyStr.eqb (ev_employee_id e) employee_id &&
  (start <=? ev_timestamp e)%Z && (ev_timestamp e <=? end_)%Z.

(** [SELECT ... FROM events WHERE employee_id=? AND timestamp BETWEEN ? AND ?
    ORDER BY timestamp] *)
Definition select_events (db : Database) (employee_id : pystr)
    (start end_ : timestamp) : list Event :=
  order_by_timestamp (List.filter (in_range employee_id start end_) (db_events db)).

(** The row of one [INSERT INTO movement_logs], with [float(distance)]. *)
Definition movement_row (employee_id : option pystr) (m : Movement) : MovementRow :=
  mkMovementRow employee_id (mv_timestamp m) (mv_event_type m) (mv_detail m)
                (mv_distance m).

(** [log_movement_batch] *)
Definition log_movement_batch (db : Database) (events : list Movement)
    (employee_id : option pystr) : outcome Database :=
  match events with
  | [] => Ok db
  | _ =>
      if db_writable db
      then Ok (mkDatabase (db_employees db) (db_events db) (db_screenshots db)
                 (db_movement_logs db ++ List.map (movement_row employee_id) events)
                 (db_writable db))
      else Raise OperationalError
  end.

(* ------------------------------------------------------------------ *)
(** ** Timeline segmentation *)

Definition S_ACTIVE : pystr := py "active".
Definition S_IDLE : pystr := py "idle".

Definition ACTIVE_KINDS : list pystr :=
  [py "active"; py "window_change"; py "non_work_detected"].
Definition IDLE_KINDS : list pystr := [py "idle"; py "idle_photo"].

(** The state of the segmentation loop shared by [get_daily_stats] and
    [_sum_active_idle]. *)
Record SegState : Type := mkSeg {
  prev_ts : timestamp;
  prev_state : pystr;
  active_min : Q;
  idle_min : Q
}.

(** [if prev_state == 'active': active += max(0.0, delta) else: idle += ...] *)
Definition accrue (st : SegState) (delta : Q) : SegState :=
  if PyStr.eqb (prev_state st) S_ACTIVE
  then mkSeg (prev_ts st) (prev_state st) (active_min st + max0 delta) (idle_min st)
  else mkSeg (prev_ts st) (prev_state st) (active_min st) (idle_min st + max0 delta).

(** The [if ev in (...) ... elif ev in (...)] reclassification. *)
Definition reclassify (state ev : pystr) : pystr :=
  if in_tuple ev ACTIVE_KINDS then S_ACTIVE
  else if in_tuple ev IDLE_KINDS then S_IDLE
  else state.

(** One iteration of [for r in rows]. *)
Definition segment_step (st : SegState) (r : Event) : SegState :=
  let ts := ev_timestamp r in
  let st1 := accrue st (delta_minutes (prev_ts st) ts) in
  mkSeg ts (reclassify (prev_state st1) (ev_event_type r))
        (active_min st1) (idle_min st1).

Definition segment_init (first : Event) : SegState :=
  mkSeg (ev_timestamp first) S_IDLE 0 0.

Definition segment_loop (rows : list Event) (first : Event) : SegState :=
  fold_left segment_step rows (segment_init first).

(** [# Close tail to end of range] *)
Definition close_tail (st : SegState) (end_dt : timestamp) : SegState :=
  if (end_dt >? prev_ts st)%Z
  then accrue st (delta_minutes (prev_ts st) end_dt)
  else st.

(** [_sum_active_idle].  [end_iso] is a well-formed instant, so the
    [except] branch that would replace it by [utcnow()] is not taken. *)
Definition _sum_active_idle (db : Database) (employee_id : pystr)
    (start_iso end_iso : timestamp) : Q * Q :=
  let rows := select_events db employee_id start_iso end_iso in
  match rows with
  | [] => (0, 0)
  | first :: _ =>
      let st := segment_loop rows first in
      let end_dt := end_iso in
      let st := close_tail st end_dt in
      (round2 (active_min st), round2 (idle_min st))
  end.

Record DailyStats : Type := mkDailyStats {
  ds_date : date;
  active_time_min : Q;
  idle_time_min : Q;
  screenshot_count : Z;
  idle_photo_count : Z;
  top_apps : list (pystr * Q)
}.

(** The [app_usage] bookkeeping of [get_daily_stats]. *)
Definition daily_step (acc : SegState * Dict.dict Q) (r : Event)
    : SegState * Dict.dict Q :=
  let '(st, app_usage) := acc in
  let delta_min := delta_minutes (prev_ts st) (ev_timestamp r) in
  let app_usage :=
    match ev_active_window r with
    | Some (c :: w) =>
        let win := c :: w in
        Dict.set app_usage win
          (match Dict.get app_usage win with Some v => v | None => 0 end
           + max0 delta_min)
    | _ => app_usage
    end in
  (segment_step st r, app_usage).

(** [get_daily_stats] *)
Definition get_daily_stats (db : Database) (employee_id : pystr)
    (day : option date) (now : timestamp) : DailyStats :=
  let d := day_or_today day now in
  let '(start, end_) := _day_bounds d in
  let rows := select_events db employee_id start end_ in
  let shots :=
    Z.of_nat (List.length (List.filter
      (fun s => PyStr.eqb (sh_employee_id s) employee_id &&
                (start <=? sh_timestamp s)%Z && (sh_timestamp s <=? end_)%Z)
      (db_screenshots db))) in
  let idle_photos :=
    Z.of_nat (List.length (List.filter
      (fun e => in_range employee_id start end_ e &&
                PyStr.eqb (ev_event_type e) (py "idle_photo"))
      (db_events db))) in
  match rows with
  | [] => mkDailyStats d 0 0 shots idle_photos []
  | first :: _ =>
      let '(st, app_usage) :=
        fold_left daily_step rows (segment_init first, []) in
      mkDailyStats d (round2 (active_min st)) (round2 (idle_min st))
        shots idle_photos (firstn 5 (sorted_desc snd app_usage))
  end.

Record Session : Type := mkSession {
  s_start : timestamp;
  s_end : timestamp;
  duration_seconds : Z
}.

Definition OPEN_KINDS : list pystr := [py "active"; py "window_change"].
Definition CLOSE_KINDS : list pystr :=
  [py "idle"; py "idle_photo"; py "non_work_detected"].

(** One iteration of the loop of [get_continuous_sessions]. *)
Definition session_step (acc : list Session * option timestamp) (r : Event)
    : list Session * option timestamp :=
  let '(sessions, current_start) := acc in
  let ts := ev_timestamp r in
  let ev := ev_event_type r in
  let current_start :=
    match current_start with
    | None => if in_tuple ev OPEN_KINDS then Some ts else None
    | Some _ => current_start
    end in
  match current_start with
  | Some cs =>
      if in_tuple ev CLOSE_KINDS
      then (sessions ++ [mkSession cs ts (int_of_seconds (ts - cs))], None)
      else (sessions, current_start)
  | None => (sessions, current_start)
  end.

(** [get_continuous_sessions] *)
Definition get_continuous_sessions (db : Database) (employee_id : pystr)
    (day : option date) (now : timestamp) : list Session :=
  let d := day_or_today day now in
  let '(start, end_) := _day_bounds d in
  let rows := select_events db employee_id start end_ in
  fst (fold_left session_step rows ([], None)).

(* ------------------------------------------------------------------ *)
(** ** Application identity: the helpers nested in [get_apps_usage] *)

Definition EM_DASH : N := 8212.
Definition ZERO_WIDTH_SPACE : N := 8203.

(** [[' - ', ' | ', ' — ', ' :: ']] *)
Definition SEPARATORS : list pystr :=
  [py " - "; py " | "; [32%N; EM_DASH; 32%N]; py " :: "].

(** The side that one separator keeps:
    [n.split(sep)[-1] if len(n.split(sep)[-1]) < 8 else n.split(sep)[0]]. *)
Definition kept_side (sep n : pystr) : pystr :=
  if (len (last_part (split sep n)) <? 8)%Z
  then last_part (split sep n)
  else first_part (split sep n).

(** The body of [for sep in ...: if sep in n: n = ...]. *)
Definition cut_separator (n sep : pystr) : pystr :=
  if contains sep n then kept_side sep n else n.

Definition cut_separators (seps : list pystr) (n : pystr) : pystr :=
  fold_left cut_separator seps n.

Definition ALIASES : list (pystr * pystr) :=
  [ (py "chrome", py "chrome"); (py "msedge", py "edge");
    (py "microsoft edge", py "edge");
    (py "brave", py "brave"); (py "firefox", py "firefox");
    (py "opera", py "opera");
    (py "code", py "vscode"); (py "visual studio code", py "vscode");
    (py "winword", py "word"); (py "word", py "word");
    (py "excel", py "excel"); (py "powerpnt", py "powerpoint");
    (py "powerpoint", py "powerpoint");
    (py "outlook", py "outlook"); (py "teams", py "teams");
    (py "slack", py "slack"); (py "discord", py "discord");
    (py "explorer", py "explorer"); (py "notepad", py "notepad");
    (py "notepad++", py "notepad++");
    (py "pycharm", py "pycharm"); (py "idea64", py "intellij");
    (py "studio64", py "android-studio");
    (py "zoom", py "zoom"); (py "whatsapp", py "whatsapp");
    (py "telegram", py "telegram") ]%string.

(** [for k, v in aliases.items(): if k in n: return v] *)
Fixpoint alias_lookup (aliases : list (pystr * pystr)) (n : pystr)
    : option pystr :=
  match aliases with
  | [] => None
  | (k, v) :: rest => if contains k n then Some v else alias_lookup rest n
  end.

(** The string [n] that [_normalize] matches against the alias table. *)
Definition normal_form (name : pystr) : pystr :=
  let n := strip name in
  let n := cut_separators SEPARATORS n in
  let n := strip (remove_char ZERO_WIDTH_SPACE n) in
  let n := lower n in
  let n := if endswith (py ".exe") n then drop_last 4 n else n in
  last_part (split (py "/") (last_part (split (py "\") n))).

(** [_normalize] *)
Definition _normalize (name : option pystr) : outcome pystr :=
  match name with
  | None | Some [] => Ok (py "unknown")
  | Some name =>
      let n := normal_form name in
      match alias_lookup ALIASES n with
      | Some v => Ok v
      | None =>
          match split_ws n with
          | base :: _ => Ok base
          | [] => Raise IndexError
          end
      end
  end.

(** [min(parts, key=len)]: the first of the shortest. *)
Fixpoint min_by_len (best : pystr) (parts : list pystr) : pystr :=
  match parts with
  | [] => best
  | p :: rest =>
      if (List.length p <? List.length best)%nat
      then min_by_len p rest else min_by_len best rest
  end.

Definition no_slash (p : pystr) : bool :=
  negb (contains (py "/") p) && negb (contains (py "\") p).

(** The [for sep ...: if sep in txt: ...; break] of [_display_from]. *)
Fixpoint display_cut (seps : list pystr) (txt : pystr) : pystr :=
  match seps with
  | [] => txt
  | sep :: rest =>
      if contains sep txt
      then match List.filter no_slash (split sep txt) with
           | [] => txt
           | p :: parts => min_by_len p parts
           end
      else display_cut rest txt
  end.

(** [_display_from] *)
Definition _display_from (raw : option pystr) : pystr :=
  match raw with
  | None | Some [] => py "Unknown"
  | Some raw => take 80 (display_cut SEPARATORS (strip raw))
  end.

(** The normaliser on a (window title, process name) pair, as the usage query
    feeds it: [COALESCE(process_name, active_window)], then
    [rows[0][2] or 'Unknown']. *)
Definition coalesce (process_name active_window : option pystr) : option pystr :=
  match process_name with
  | Some p => Some p
  | None => active_window
  end.

Definition normalize (raw_title raw_process : option pystr) : outcome pystr :=
  _normalize (Some (or_else (coalesce raw_process raw_title) (py "Unknown"))).

(* ------------------------------------------------------------------ *)
(** ** Per-application usage *)

Record AppUsage : Type := mkAppUsage {
  app : pystr;
  key : pystr;
  minutes : Q
}.

Record UsageState : Type := mkUsage {
  minutes_by_key : Dict.dict Q;
  name_by_key : Dict.dict pystr;
  u_prev_ts : timestamp;
  u_prev_raw : pystr;
  u_prev_key : pystr;
  u_prev_state : pystr
}.

(** [d.get(k, 0.0)] *)
Definition get0 (d : Dict.dict Q) (k : pystr) : Q :=
  match Dict.get d k with Some v => v | None => 0 end.

(** [minutes_by_key[prev_key] = ... + max(0.0, delta_min)] and the first-seen
    label. *)
Definition credit (st : UsageState) (delta_min : Q) : UsageState :=
  mkUsage
    (Dict.set (minutes_by_key st) (u_prev_key st)
       (get0 (minutes_by_key st) (u_prev_key st) + max0 delta_min))
    (if Dict.mem (name_by_key st) (u_prev_key st)
     then name_by_key st
     else Dict.set (name_by_key st) (u_prev_key st)
            (_display_from (Some (u_prev_raw st))))
    (u_prev_ts st) (u_prev_raw st) (u_prev_key st) (u_prev_state st).

(** One iteration of [for ts_str, ev_type, raw in rows]. *)
Definition usage_step (st : UsageState) (r : Event) : outcome UsageState :=
  let ts := ev_timestamp r in
  let raw := coalesce (ev_process_name r) (ev_active_window r) in
  let delta_min := delta_minutes (u_prev_ts st) ts in
  let st := if PyStr.eqb (u_prev_state st) S_ACTIVE then credit st delta_min else st in
  if in_tuple (ev_event_type r) ACTIVE_KINDS then
    let prev_raw := or_else raw (u_prev_raw st) in
    prev_key <- _normalize (Some prev_raw) ;;
    Ok (mkUsage (minutes_by_key st) (name_by_key st) ts prev_raw prev_key S_ACTIVE)
  else if in_tuple (ev_event_type r) IDLE_KINDS then
    Ok (mkUsage (minutes_by_key st) (name_by_key st) ts
          (u_prev_raw st) (u_prev_key st) S_IDLE)
  else
    Ok (mkUsage (minutes_by_key st) (name_by_key st) ts
          (u_prev_raw st) (u_prev_key st) (u_prev_state st)).

Fixpoint usage_loop (rows : list Event) (st : UsageState) : outcome UsageState :=
  match rows with
  | [] => Ok st
  | r :: rest => st' <- usage_step st r ;; usage_loop rest st'
  end.

(** The final list comprehension: descending by minutes, positive only. *)
Definition ranked (minutes_of : Dict.dict Q) (names : Dict.dict pystr)
    : list AppUsage :=
  List.map
    (fun kv => mkAppUsage
                 (match Dict.get names (fst kv) with
                  | Some a => a
                  | None => title (fst kv)
                  end)
                 (fst kv) (round2 (snd kv)))
    (List.filter (fun kv => negb (Qle_bool (snd kv) 0))
       (sorted_desc snd minutes_of)).

(** [get_apps_usage] *)
Definition get_apps_usage (db : Database) (employee_id : pystr)
    (day : option date) (now : timestamp) : outcome (list AppUsage) :=
  let d := day_or_today day now in
  let '(start, end_) := _day_bounds d in
  let rows := select_events db employee_id start end_ in
  match rows with
  | [] => Ok []
  | first :: _ =>
      let prev_raw :=
        or_else (coalesce (ev_process_name first) (ev_active_window first))
                (py "Unknown") in
      prev_key <- _normalize (Some prev_raw) ;;
      st <- usage_loop rows
              (mkUsage [] [] (ev_timestamp first) prev_raw prev_key S_IDLE) ;;
      let day_end := end_ in
      let tail_end := Z.min now day_end in
      let st :=
        if PyStr.eqb (u_prev_state st) S_ACTIVE && (tail_end >? u_prev_ts st)%Z
        then credit st (delta_minutes (u_prev_ts st) tail_end)
        else st in
      Ok (ranked (minutes_by_key st) (name_by_key st))
  end.

(* ------------------------------------------------------------------ *)
(** ** Company rollup *)

(** [item.get('key') or (item.get('app') or '').lower()] *)
Definition item_key (item : AppUsage) : pystr :=
  match key item with
  | [] => lower (app item)
  | k => k
  end.

(** [item.get('app') or key.title()] *)
Definition item_label (item : AppUsage) : pystr :=
  match app item with
  | [] => title (item_key item)
  | a => a
  end.

(** The body of [for item in apps]. *)
Definition rollup_item (acc : Dict.dict Q * Dict.dict pystr) (item : AppUsage)
    : Dict.dict Q * Dict.dict pystr :=
  let '(totals, names) := acc in
  let k := item_key item in
  let m := minutes item in
  (Dict.set totals k (get0 totals k + m),
   if Dict.mem names k then names else Dict.set names k (item_label item)).

(** The body of [for eid in employee_ids], given what [get_apps_usage]
    did for that employee: an exception skips the employee. *)
Definition rollup_employee (acc : Dict.dict Q * Dict.dict pystr)
    (apps : outcome (list AppUsage)) : Dict.dict Q * Dict.dict pystr :=
  match apps with
  | Ok items => fold_left rollup_item items acc
  | Raise _ => acc
  end.

Definition rollup (reports : list (outcome (list AppUsage))) : list AppUsage :=
  let '(totals, names) := fold_left rollup_employee reports ([], []) in
  ranked totals names.

(** [get_company_apps_usage] *)
Definition get_company_apps_usage (db : Database) (day : option date)
    (now : timestamp) : list AppUsage :=
  let d := day_or_today day now in
  rollup (List.map (fun eid => get_apps_usage db eid (Some d) now)
            (db_employees db)).

(* ------------------------------------------------------------------ *)
(** ** The movement batch of [ActivityDetector] *)

Record ActivityDetector : Type := mkDetector {
  movement_events : list Movement;
  employee_id : option pystr
}.

(** The detector together with the store it writes to.  A method returns
    what it raised, if anything, and the state it left behind. *)
Definition World : Type := ActivityDetector * Database.

(** [_flush_batch] *)
Definition _flush_batch (w : World) : outcome unit * World :=
  let '(self, db) := w in
  match movement_events self with
  | [] => (Ok tt, w)
  | _ =>
      match log_movement_batch db (movement_events self) (employee_id self) with
      | Ok db' => (Ok tt, (mkDetector [] (employee_id self), db'))
      | Raise e => (Raise e, w)
      end
  end.

(** [_add_event] *)
Definition _add_event (w : World) (event : Movement) : outcome unit * World :=
  let '(self, db) := w in
  let self := mkDetector (movement_events self ++ [event]) (employee_id self) in
  if (50 <=? List.length (movement_events self))%nat
  then _flush_batch (self, db)
  else (Ok tt, (self, db)).

(** A run of listener callbacks, each appending one record; it ends at the
    first exception. *)
Fixpoint add_events (w : World) (events : list Movement) : outcome unit * World :=
  match events with
  | [] => (Ok tt, w)
  | e :: rest =>
      match _add_event w e with
      | (Ok _, w') => add_events w' rest
      | (Raise x, w') => (Raise x, w')
      end
  end.

(* ------------------------------------------------------------------ *)
(** ** Vocabulary of the statements *)

(** Rows in non-decreasing timestamp order. *)
Definition ts_le (a b : Event) : Prop := (ev_timestamp a <= ev_timestamp b)%Z.




(** The state in which a subject was left by the rows: that of the last row
    whose kind is one the loop classifies, idle when there is none. *)
Definition classifying (r : Event) : bool :=
  in_tuple (ev_event_type r) ACTIVE_KINDS || in_tuple (ev_event_type r) IDLE_KINDS.

Definition last_classified (rows : list Event) : pystr :=
  match List.find classifying (rev rows) with
  | Some r => if in_tuple (ev_event_type r) ACTIVE_KINDS then S_ACTIVE else S_IDLE
  | None => S_IDLE
  end.

(** [tok] is the first whitespace-delimited token of [n]: only whitespace
    before it, no whitespace in it, and the end of [n] or whitespace after
    it. *)
Definition first_token_of (n tok : pystr) : Prop :=
  exists pre post,
    n = pre ++ tok ++ post /\
    forallb isspace pre = true /\
    tok <> [] /\
    forallb (fun c => negb (isspace c)) tok = true /\
    match post with
    | [] => True
    | c :: _ => isspace c = true
    end.

(** The first separator of the list that occurs in [n], with the
    separators that come after it in the list. *)
Fixpoint first_separator (seps : list pystr) (n : pystr)
    : option (pystr * list pystr) :=
  match seps with
  | [] => None
  | sep :: later =>
      if contains sep n then Some (sep, later) else first_separator later n
  end.

(** The separator step as the specification words it: one split, on the
    first separator found, and one side of it kept. *)
Definition cut_first_separator (n : pystr) : pystr :=
  match first_separator SEPARATORS n with
  | Some (sep, _) => kept_side sep n
  | None => n
  end.

(** Every item that the employees reported, in the order the rollup reads
    them; an employee whose query raised reports nothing. *)
Definition reported (reports : list (outcome (list AppUsage))) : list AppUsage :=
  List.concat
    (List.map (fun r => match r with Ok items => items | Raise _ => [] end)
       reports).

(** The minutes reported under key [k], summed in reading order. *)
Definition key_total (k : pystr) (items : list AppUsage) : Q :=
  fold_left
    (fun acc it => if PyStr.eqb (item_key it) k then acc + minutes it else acc)
    items 0.

(** The label of the first item reported under key [k]. *)
Definition first_label (k : pystr) (items : list AppUsage) : pystr :=
  match List.find (fun it => PyStr.eqb (item_key it) k) items with
  | Some it => item_label it
  | None => title k
  end.

(** Descending by a rational key. *)
Definition key_desc (A : Type) (key : A -> Q) (a b : A) : Prop := key b <= key a.

(** Descending by minutes. *)
Definition minutes_desc (a b : AppUsage) : Prop := minutes b <= minutes a.

(** [sep.join(parts)] *)
Definition join (sep : pystr) (parts : list pystr) : pystr :=
  match parts with
  | [] => []
  | p :: rest => p ++ List.concat (List.map (fun q => sep ++ q) rest)
  end.

(** The four-event day used as a worked scenario: a window change to
    Chrome at [t0], idle five minutes later, a window change to Word at the
    same instant, and an idle photo at fifteen minutes. *)
Definition scenario_db : Database :=
  let ev i t kind window :=
    mkEvent i (py "emp") t (py kind) (option_map py window) None in
  mkDatabase [py "emp"]
    [ ev 1 0 "window_change" (Some "Chrome");
      ev 2 300000000 "idle" None;
      ev 3 300000000 "window_change" (Some "Word");
      ev 4 900000000 "idle_photo" None ]%Z%string
    [] [] true.


(* ------------------------------------------------------------------ *)
(** ** Shutdown of the detector and deletions from the store *)

(** [ActivityDetector.stop]: the final flush.  Stopping the listeners and
    joining the two threads changes nothing that the model holds. *)
Definition stop (w : World) : outcome unit * World := _flush_batch w.

(** [WHERE employee_id=? AND timestamp BETWEEN ? AND ?] on [movement_logs];
    a row whose [employee_id] is NULL matches no id. *)
Definition movement_in_range (employee_id : pystr) (start end_ : timestamp)
    (m : MovementRow) : bool :=
  match ml_employee_id m with
  | Some e => PyStr.eqb e employee_id
  | None => false
  end && (start <=? ml_timestamp m)%Z && (ml_timestamp m <=? end_)%Z.

(** The same condition on [screenshots]. *)
Definition screenshot_in_range (employee_id : pystr) (start end_ : timestamp)
    (s : Screenshot) : bool :=
  PyStr.eqb (sh_employee_id s) employee_id &&
  (start <=? sh_timestamp s)%Z && (sh_timestamp s <=? end_)%Z.

(** [DELETE FROM t WHERE cond] keeps the rows for which [cond] is false. *)
Definition delete_where (A : Type) (cond : A -> bool) (rows : list A) : list A :=
  List.filter (fun r => negb (cond r)) rows.

(** [clear_employee_timeline] *)
Definition clear_employee_timeline (db : Database) (employee_id : pystr)
    (day : option date) (include_media : bool) (now : timestamp)
    : outcome Database :=
  let d := day_or_today day now in
  let '(start, end_) := _day_bounds d in
  if db_writable db
  then Ok (mkDatabase (db_employees db)
             (delete_where (in_range employee_id start end_) (db_events db))
             (if include_media
              then delete_where (screenshot_in_range employee_id start end_)
                     (db_screenshots db)
              else db_screenshots db)
             (delete_where (movement_in_range employee_id start end_)
                (db_movement_logs db))
             (db_writable db))
  else Raise OperationalError.

(** The [for eid in ids] loop of [clear_today_all]. *)
Fixpoint clear_each (db : Database) (ids : list pystr) (d : date)
    (include_media : bool) (now : timestamp) : outcome Database :=
  match ids with
  | [] => Ok db
  | eid :: rest =>
      db' <- clear_employee_timeline db eid (Some d) include_media now ;;
      clear_each db' rest d include_media now
  end.

(** [clear_today_all] *)
Definition clear_today_all (db : Database) (include_media : bool)
    (now : timestamp) : outcome Database :=
  let ids := db_employees db in
  let d := date_of now in
  clear_each db ids d include_media now.

(** [delete_employee] *)
Definition delete_employee (db : Database) (employee_id : pystr)
    : outcome Database :=
  match employee_id with
  | [] => Ok db
  | _ =>
      if db_writable db
      then Ok (mkDatabase
                 (delete_where (fun e => PyStr.eqb e employee_id) (db_employees db))
                 (delete_where (fun e => PyStr.eqb (ev_employee_id e) employee_id)
                    (db_events db))
                 (delete_where (fun s => PyStr.eqb (sh_employee_id s) employee_id)
                    (db_screenshots db))
                 (delete_where
                    (fun m => match ml_employee_id m with
                              | Some e => PyStr.eqb e employee_id
                              | None => false
                              end)
                    (db_movement_logs db))
                 (db_writable db))
      else Raise OperationalError
  end.

(* ------------------------------------------------------------------ *)
(** ** Top applications and counts *)

(** [l[:k]]: a negative [k] counts from the end. *)
Definition slice_to (A : Type) (k : Z) (l : list A) : list A :=
  if (0 <=? k)%Z
  then firstn (Z.to_nat k) l
  else firstn (List.length l - Z.to_nat (- k)) l.

(** [get_top_apps] *)
Definition get_top_apps (db : Database) (employee_id : pystr)
    (day : option date) (limit : Z) (now : timestamp) : list (pystr * Q) :=
  let stats := get_daily_stats db employee_id day now in
  slice_to limit (top_apps stats).

(** The number of rows of a kind among the rows of a day. *)
Definition count_kind (kinds : list pystr) (rows : list Event) : nat :=
  List.length (List.filter (fun r => in_tuple (ev_event_type r) kinds) rows).

(** [1] while a session is open, [0] otherwise. *)
Definition open_count (current_start : option timestamp) : nat :=
  match current_start with Some _ => 1 | None => 0 end.

(* ------------------------------------------------------------------ *)
(** ** Vocabulary of the further statements *)

(** A code point that may occur in a normalised key: neither whitespace nor
    an ASCII capital. *)
Definition key_char (c : N) : Prop := isspace c = false /\ is_upper c = false.

(** The shape of a normalised key. *)
Definition key_shape (k : pystr) : Prop := k <> [] /\ Forall key_char k.

(** The sum of a list of minutes. *)
Definition sumQ (l : list Q) : Q := fold_right Qplus 0 l.


(** What the usage loop keeps true of its two dictionaries and its current
    key. *)
Definition usage_inv (st : UsageState) : Prop :=
  NoDup (Dict.keys (minutes_by_key st)) /\
  Forall key_shape (Dict.keys (minutes_by_key st)) /\
  key_shape (u_prev_key st) /\
  Forall (fun kv => 0 <= snd kv) (minutes_by_key st) /\
  (forall k, In k (Dict.keys (minutes_by_key st)) ->
             Dict.get (name_by_key st) k <> None) /\
  (forall k l, Dict.get (name_by_key st) k = Some l -> (List.length l <= 80)%nat).

(** The usage loop and the segmentation loop are at the same point: same
    previous timestamp, same state, and the per-key minutes add up to the
    active minutes. *)
Definition usage_matches (u : UsageState) (s : SegState) : Prop :=
  u_prev_ts u = prev_ts s /\
  u_prev_state u = prev_state s /\
  sumQ (List.map snd (minutes_by_key u)) == active_min s.

(* ------------------------------------------------------------------ *)
(** ** The windows of the employee summary *)

(** [date.weekday()]: Monday is 0.  Day 0 of the epoch, 1 January 1970, was
    a Thursday. *)
Definition weekday (d : date) : Z := (d + 3) mod 7.

(** [_today_bounds] *)
Definition _today_bounds (now : timestamp) : timestamp * timestamp :=
  let d := date_of now in
  ((d * MICROS_PER_DAY)%Z, (d * MICROS_PER_DAY + MICROS_PER_DAY - 1)%Z).

(** [_week_bounds]: from Monday of the current week to the end of today. *)
Definition _week_bounds (now : timestamp) : timestamp * timestamp :=
  let today := date_of now in
  let start_day := (today - weekday today)%Z in
  ((start_day * MICROS_PER_DAY)%Z, (today * MICROS_PER_DAY + MICROS_PER_DAY - 1)%Z).

(** The four totals of [get_employee_summary]:
    [active_time_today_min], [idle_time_today_min], [active_time_week_min]
    and [idle_time_week_min]. *)
Definition summary_totals (db : Database) (employee_id : pystr)
    (now : timestamp) : (Q * Q) * (Q * Q) :=
  let '(today_start, today_end) := _today_bounds now in
  let '(week_start, week_end) := _week_bounds now in
  (_sum_active_idle db employee_id today_start today_end,
   _sum_active_idle db employee_id week_start week_end).

(** The segmentation loop run on a longer list of rows is ahead of the loop
    run on a suffix of it: it has at least as many active minutes, and
    whenever the shorter run is in the active state so is the longer one, at
    the same timestamp. *)
Definition runs_ahead (long short : SegState) : Prop :=
  0 <= active_min short /\
  active_min short <= active_min long /\
  (PyStr.eqb (prev_state short) S_ACTIVE = true ->
   PyStr.eqb (prev_state long) S_ACTIVE = true /\ prev_ts long = prev_ts short).

(* ------------------------------------------------------------------ *)
(** ** The random screenshot schedule *)

(** [random.randint(low, high)].  [draw] is what the generator supplies; an
    empty range is a [ValueError], here [None]. *)
Definition randint (low high draw : Z) : option Z :=
  if (low <=? high)%Z
  then Some (low + draw mod (high - low + 1))%Z
  else None.

(** The bounds that [_schedule_next_shot] hands to [randint]. *)
Definition shot_low (base jitter : Z) : Z := Z.max 30 (base - Z.max 0 jitter).
Definition shot_high (base jitter : Z) : Z :=
  Z.max (shot_low base jitter) (base + Z.max 0 jitter).

(** [_schedule_next_shot]: the new [_next_random_shot_at], in seconds. *)
Definition _schedule_next_shot (now : Q) (base jitter draw : Z) : option Q :=
  let low := shot_low base jitter in
  let high := shot_high base jitter in
  match randint low high draw with
  | Some delay => Some (now + inject_Z delay)
  | None => None
  end.

(** The clamps of [api_set_runtime_settings]: 30 s to 6 h for the interval,
    0 to 1 h for the jitter. *)
Definition clamp_interval (val : Z) : Z := Z.max 30 (Z.min val (6 * 3600)).
Definition clamp_jitter (val : Z) : Z := Z.max 0 (Z.min val 3600).

(* ------------------------------------------------------------------ *)
(** ** What the dashboard and the report do with the company rollup *)

(** The body of [for item in (raw_company_apps or [])] in [dashboard]. *)
Definition merge_item (merged : Dict.dict AppUsage) (item : AppUsage)
    : Dict.dict AppUsage :=
  let k := item_key item in
  let mins := minutes item in
  match Dict.get merged k with
  | Some m => Dict.set merged k (mkAppUsage (app m) (key m) (minutes m + mins))
  | None => Dict.set merged k (mkAppUsage (item_label item) k mins)
  end.

(** [company_apps] of [dashboard]: the server-side dedupe by key, then
    [sorted(merged.values(), key=lambda x: x['minutes'], reverse=True)]. *)
Definition dashboard_company_apps (raw_company_apps : list AppUsage)
    : list AppUsage :=
  let merged := fold_left merge_item raw_company_apps [] in
  sorted_desc minutes (List.map snd merged).

(** The lines of [generate_daily_report] for the top three applications:
    the label and [round(item.get('minutes', 0), 2)]. *)
Definition report_top_apps (company : list AppUsage) : list (pystr * Q) :=
  List.map (fun item => (app item, round2 (minutes item))) (firstn 3 company).

(* ------------------------------------------------------------------ *)
(** ** Writing employees and events *)

(** What an [INSERT] into a table with a foreign key can do: succeed, fail
    the key ([sqlite3.IntegrityError]), or raise as any other write. *)
Inductive insert_outcome (A : Type) : Type :=
| Inserted (a : A)
| IntegrityError
| InsertRaised (e : exn).
Arguments Inserted {A} a.
Arguments IntegrityError {A}.
Arguments InsertRaised {A} e.

(** [upsert_employee], on the column that the store record carries: the id
    is added if it is not there.  [name], [team] and [config] are columns
    the record does not hold. *)
Definition upsert_employee (db : Database) (employee_id : pystr)
    : outcome Database :=
  if db_writable db
  then Ok (if existsb (PyStr.eqb employee_id) (db_employees db)
           then db
           else mkDatabase (db_employees db ++ [employee_id]) (db_events db)
                  (db_screenshots db) (db_movement_logs db) (db_writable db))
  else Raise OperationalError.

(** [log_event].  [events.employee_id] references [employees] and
    [_connect] turns foreign keys on, so the employee must exist.  [rowid]
    is the id that SQLite assigns to the new row; the function returns it.
    [timestamp_] is the instant that the ISO string denotes, [None] when the
    argument is missing or empty.  The columns written are those the [Event]
    record carries. *)
Definition log_event (db : Database) (rowid : Z) (employee_id event_type : pystr)
    (active_window process_name : option pystr)
    (timestamp_ : option timestamp) (now : timestamp)
    : insert_outcome (Z * Database) :=
  let ts := match timestamp_ with Some t => t | None => now end in
  if negb (db_writable db) then InsertRaised OperationalError
  else if negb (existsb (PyStr.eqb employee_id) (db_employees db))
  then IntegrityError
  else Inserted
         (rowid,
          mkDatabase (db_employees db)
            (db_events db ++
             [mkEvent rowid employee_id ts event_type active_window process_name])
            (db_screenshots db) (db_movement_logs db) (db_writable db)).

(** [insert_screenshot]: as [log_event], on [screenshots]; [reason] is a
    column the [Screenshot] record does not carry. *)
Definition insert_screenshot (db : Database) (rowid : Z) (employee_id path : pystr)
    (timestamp_ : option timestamp) (now : timestamp)
    : insert_outcome (Z * Database) :=
  let ts := match timestamp_ with Some t => t | None => now end in
  if negb (db_writable db) then InsertRaised OperationalError
  else if negb (existsb (PyStr.eqb employee_id) (db_employees db))
  then IntegrityError
  else Inserted
         (rowid,
          mkDatabase (db_employees db) (db_events db)
            (db_screenshots db ++ [mkScreenshot employee_id ts path])
            (db_movement_logs db) (db_writable db)).

(** The two foreign keys of the schema: every event and every screenshot
    belongs to a listed employee.  ([movement_logs.employee_id] is a plain
    column, added by [ALTER TABLE], and references nothing.) *)
Definition referential (db : Database) : Prop :=
  (forall e, In e (db_events db) -> In (ev_employee_id e) (db_employees db)) /\
  (forall s, In s (db_screenshots db) -> In (sh_employee_id s) (db_employees db)).

(** One call of a function that writes to the store and returns. *)
Inductive db_write (db : Database) : Database -> Prop :=
| W_upsert_employee emp db' :
    upsert_employee db emp = Ok db' -> db_write db db'
| W_log_event rowid emp kind window process ts now db' :
    log_event db rowid emp kind window process ts now = Inserted (rowid, db') ->
    db_write db db'
| W_log_movement_batch events emp db' :
    log_movement_batch db events emp = Ok db' -> db_write db db'
| W_clear_employee_timeline emp day media now db' :
    clear_employee_timeline db emp day media now = Ok db' -> db_write db db'
| W_clear_today_all media now db' :
    clear_today_all db media now = Ok db' -> db_write db db'
| W_delete_employee emp db' :
    delete_employee db emp = Ok db' -> db_write db db'
| W_insert_screenshot rowid emp path ts now db' :
    insert_screenshot db rowid emp path ts now = Inserted (rowid, db') ->
    db_write db db'.

(** Any number of such calls, one after the other. *)
Inductive db_writes (db : Database) : Database -> Prop :=
| writes_none : db_writes db db
| writes_more db1 db2 : db_write db db1 -> db_writes db1 db2 -> db_writes db db2.

(** The store that [init_db] creates where there was none. *)
Definition empty_db : Database := mkDatabase [] [] [] [] true.

(* ------------------------------------------------------------------ *)
(** ** Ranking employees *)

(** The days that [while day <= end_date: ...; day += timedelta(days=1)]
    visits, in order. *)
Definition days_between (start_date end_date : date) : list date :=
  List.map (fun i => (start_date + Z.of_nat i)%Z)
    (seq 0 (Z.to_nat (end_date - start_date + 1))).

(** One day of the loop: [for emp in employees: totals[emp] += ...].  Every
    employee is a key of [totals], so [totals[emp]] finds it. *)
Definition rank_day (db : Database) (now : timestamp) (employees : list pystr)
    (totals : Dict.dict Q) (day : date) : Dict.dict Q :=
  fold_left
    (fun totals emp =>
       let d := get_daily_stats db emp (Some day) now in
       Dict.set totals emp (get0 totals emp + active_time_min d))
    employees totals.

(** [rank_employees].  [now] is only handed on to [get_daily_stats], which
    does not read the clock when it is given a day. *)
Definition rank_employees (db : Database) (start_date end_date : date)
    (now : timestamp) : list (pystr * Q) :=
  let employees := db_employees db in
  let totals := fold_left (fun totals emp => Dict.set totals emp 0) employees [] in
  let totals :=
    fold_left (rank_day db now employees) (days_between start_date end_date) totals in
  sorted_desc snd totals.

(* ------------------------------------------------------------------ *)
(** ** Movement statistics *)

Record MovementStats : Type := mkMovementStats {
  keys_pressed : Z;
  total_distance_px : Q;
  clicks : Z;
  activity_split : Dict.dict Z
}.

(** [WHERE timestamp BETWEEN ? AND ?] on [movement_logs]: rows of every
    employee, and rows without one. *)
Definition movement_between (start end_ : timestamp) (m : MovementRow) : bool :=
  (start <=? ml_timestamp m)%Z && (ml_timestamp m <=? end_)%Z.

(** [AND event_type=...] *)
Definition of_type (kind : pystr) (m : MovementRow) : bool :=
  PyStr.eqb (ml_event_type m) kind.

(** One more row in the group of its [event_type]. *)
Definition split_step (split : Dict.dict Z) (m : MovementRow) : Dict.dict Z :=
  Dict.set split (ml_event_type m)
    (match Dict.get split (ml_event_type m) with
     | Some n => n + 1
     | None => 1
     end)%Z.

(** [SELECT event_type, COUNT( * ) ... GROUP BY event_type] read into a dict.
    The keys are listed in the order of their first row; SQLite's order may
    differ, and Python compares dicts without regard to it. *)
Definition count_by_type (rows : list MovementRow) : Dict.dict Z :=
  fold_left split_step rows [].

(** [get_movement_stats].  [day] is the date that [date_str] denotes, [None]
    when the argument is missing or empty; the bounds are those of
    [_day_bounds]. *)
Definition get_movement_stats (db : Database) (day : option date)
    (now : timestamp) : MovementStats :=
  let d := day_or_today day now in
  let '(start, end_) := _day_bounds d in
  let rows := List.filter (movement_between start end_) (db_movement_logs db) in
  let keys_pressed :=
    Z.of_nat (List.length (List.filter (of_type (py "key_press")) rows)) in
  let total_distance :=
    sumQ (List.map ml_distance_px (List.filter (of_type (py "mouse_move")) rows)) in
  let clicks :=
    Z.of_nat (List.length (List.filter (of_type (py "mouse_click")) rows)) in
  mkMovementStats keys_pressed (round2 total_distance) clicks (count_by_type rows).

(** [split.get(kind, 0)] *)
Definition split_count (split : Dict.dict Z) (kind : pystr) : Z :=
  match Dict.get split kind with Some n => n | None => 0%Z end.

(** [sum(split.values())] *)
Definition sumZ (l : list Z) : Z := fold_right Z.add 0%Z l.

(** The buffered records of a kind whose timestamp lies in a day. *)
Definition buffered (kind : pystr) (day : date) (events : list Movement)
    : list Movement :=
  List.filter
    (fun m => (fst (_day_bounds day) <=? mv_timestamp m)%Z &&
              (mv_timestamp m <=? snd (_day_bounds day))%Z &&
              PyStr.eqb (mv_event_type m) kind)
    events.

(* ------------------------------------------------------------------ *)
(** ** The activity chart and today's ratio *)

(** [SELECT COUNT( * ) FROM events WHERE event_type='active' AND timestamp
    BETWEEN ? AND ?]: events of every employee. *)
Definition count_active_between (db : Database) (start end_ : timestamp) : Z :=
  Z.of_nat (List.length (List.filter
    (fun e => PyStr.eqb (ev_event_type e) (py "active") &&
              (start <=? ev_timestamp e)%Z && (ev_timestamp e <=? end_)%Z)
    (db_events db))).

(** [SELECT COUNT( * ) FROM events WHERE timestamp BETWEEN ? AND ?] *)
Definition count_between (db : Database) (start end_ : timestamp) : Z :=
  Z.of_nat (List.length (List.filter
    (fun e => (start <=? ev_timestamp e)%Z && (ev_timestamp e <=? end_)%Z)
    (db_events db))).

Record ActivityData : Type := mkActivityData {
  labels : list date;
  data : list Z
}.

(** [get_activity_data].  A label is the date whose ISO form the source
    puts in the list; [range(days - 1, -1, -1)] is empty when [days] is not
    positive. *)
Definition get_activity_data (db : Database) (days : Z) (now : timestamp)
    : ActivityData :=
  let end_day := date_of now in
  let labels :=
    List.map (fun i => (end_day - Z.of_nat i)%Z) (rev (seq 0 (Z.to_nat days))) in
  let data :=
    List.map
      (fun ds =>
         let '(start, end_) := _day_bounds ds in
         count_active_between db start end_)
      labels in
  mkActivityData labels data.

(** [get_today_ratio]: the list [[active, idle]]. *)
Definition get_today_ratio (db : Database) (now : timestamp) : list Z :=
  let d := date_of now in
  let '(start, end_) := _day_bounds d in
  let active := count_active_between db start end_ in
  let total := count_between db start end_ in
  let idle := Z.max 0 (total - active) in
  [active; idle].

(* ------------------------------------------------------------------ *)
(** ** Current status and the company summary *)

(** One row of the scan for the latest event of an employee: a later row
    with the same timestamp replaces an earlier one. *)
Definition latest_step (emp : pystr) (best : option Event) (e : Event)
    : option Event :=
  if PyStr.eqb (ev_employee_id e) emp
  then match best with
       | None => Some e
       | Some b => if (ev_timestamp b <=? ev_timestamp e)%Z then Some e else Some b
       end
  else best.

(** [SELECT ... FROM events WHERE employee_id=? ORDER BY timestamp DESC
    LIMIT 1]: the latest event of the employee; of several with the same
    timestamp, the one inserted last, as the index on
    [(employee_id, timestamp)] is read backwards. *)
Definition last_event (db : Database) (employee_id : pystr) : option Event :=
  fold_left (latest_step employee_id) (db_events db) None.

(** The [status] entry that [get_all_employees_status] computes for one
    employee. *)
Definition status_entry (db : Database) (emp : pystr) : pystr :=
  match last_event db emp with
  | None => py "unknown"
  | Some last =>
      if in_tuple (ev_event_type last)
           [py "active"; py "window_change"; py "non_work_detected"]
      then py "active" else py "idle"
  end.

(** The [status] entry of [get_employee_summary]. *)
Definition summary_status (db : Database) (employee_id : pystr) : pystr :=
  match last_event db employee_id with
  | Some last =>
      if in_tuple (ev_event_type last)
           [py "active"; py "window_change"; py "non_work_detected"]
      then py "active" else py "idle"
  | None => py "idle"
  end.

Record GlobalSummary : Type := mkGlobalSummary {
  active_now : Z;
  idle_now : Z;
  total_employees : Z;
  screenshots_today : Z;
  total_active_today_min : Q;
  total_idle_today_min : Q
}.

(** [get_global_summary] *)
Definition get_global_summary (db : Database) (now : timestamp) : GlobalSummary :=
  let '(today_start, today_end) := _today_bounds now in
  let total := Z.of_nat (List.length (db_employees db)) in
  let statuses := List.map (status_entry db) (db_employees db) in
  let active_now :=
    Z.of_nat (List.length (List.filter (fun s => PyStr.eqb s (py "active")) statuses)) in
  let idle_now :=
    Z.of_nat (List.length (List.filter (fun s => PyStr.eqb s (py "idle")) statuses)) in
  let shots_today :=
    Z.of_nat (List.length (List.filter
      (fun s => (today_start <=? sh_timestamp s)%Z && (sh_timestamp s <=? today_end)%Z)
      (db_screenshots db))) in
  let '(totals_active, totals_idle) :=
    fold_left
      (fun '(totals_active, totals_idle) eid =>
         let '(active_today, idle_today) := fst (summary_totals db eid now) in
         (totals_active + active_today, totals_idle + idle_today))
      (db_employees db) (0, 0) in
  mkGlobalSummary active_now idle_now total shots_today
    (round2 totals_active) (round2 totals_idle).

(** Whether the employee has any event at all. *)
Definition has_events (db : Database) (emp : pystr) : bool :=
  existsb (fun e => PyStr.eqb (ev_employee_id e) emp) (db_events db).

(** How many of the employees satisfy a condition. *)
Definition how_many (cond : pystr -> bool) (emps : list pystr) : Z :=
  Z.of_nat (List.length (List.filter cond emps)).

(* ------------------------------------------------------------------ *)
(** ** The active window *)

(** The dict that [get_active_context] returns, by its two keys. *)
Record ActiveContext : Type := mkActiveContext {
  ctx_title : pystr;
  ctx_process_name : option pystr
}.

(** [for proc in psutil.process_iter(['name']): proc_name = ...; if
    proc_name: break]: the first name that is not empty, or else the last
    value assigned. *)
Fixpoint first_named (names : list (option pystr)) (proc_name : option pystr)
    : option pystr :=
  match names with
  | [] => proc_name
  | n :: rest => if truthy n then n else first_named rest n
  end.

(** [get_active_context].  What the operating system answers is given:
    [window_title] is [win.title] of the active window, [None] when
    [pygetwindow] is missing, raises or reports no window; [foreground] is
    the name that [_get_foreground_process_info] returns; [running] lists
    the names of [psutil.process_iter], [None] when the iteration raises. *)
Definition get_active_context (window_title foreground : option pystr)
    (running : option (list (option pystr))) : ActiveContext :=
  let title := if truthy window_title then window_title else None in
  let proc_name := foreground in
  let title :=
    match title with
    | Some (c :: t) => c :: t
    | _ => or_else proc_name (py "Unknown Window")
    end in
  let proc_name :=
    if truthy proc_name then proc_name
    else match running with
         | Some names => first_named names proc_name
         | None => None
         end in
  mkActiveContext title proc_name.

(** [get_active_window] *)
Definition get_active_window (window_title foreground : option pystr)
    (running : option (list (option pystr))) : pystr :=
  let ctx := get_active_context window_title foreground running in
  or_else (Some (ctx_title ctx)) (py "Unknown Window").

(* ------------------------------------------------------------------ *)
(** ** Runtime settings *)

Definition INTERVAL_KEY : pystr := py "screenshot_interval_seconds".
Definition JITTER_KEY : pystr := py "screenshot_jitter_seconds".

Section RuntimeSettings.
(** The values of the JSON object in the settings file, with the integers
    among them. *)
Variable V : Type.
Variable int_value : Z -> V.
(** [int(_LEGACY.screenshot_interval_seconds)] and
    [int(_LEGACY.screenshot_jitter_seconds)]. *)
Variables legacy_interval legacy_jitter : Z.

(** What the settings file holds, by what [load_runtime_settings] can do
    with it.  [FileAbsent]: no file, a file that cannot be read or parsed, or
    a JSON value that Python takes for false ([null], [false], [0], an empty
    string, list or object), all of which leave [data = {}].  [FileObject]: a
    JSON object.  [FileSequence]: a list or a string that is not empty, with
    what [key in data] answers for the two keys.  [FileScalar]: [true] or a
    number other than zero, on which [key in data] raises. *)
Inductive SettingsFile : Type :=
| FileAbsent
| FileObject (d : Dict.dict V)
| FileSequence (has_interval has_jitter : bool)
| FileScalar.

(** What [load_runtime_settings] returns: a dict, or the list or string of
    the file as it is. *)
Inductive Settings : Type :=
| SettingsObject (d : Dict.dict V)
| SettingsSequence.

(** A call of [load_runtime_settings]: it returns, or the [TypeError] of
    [key in data] or of [data[key] = ...] leaves it, these two statements
    being outside the [try]. *)
Inductive LoadOutcome : Type :=
| Loaded (settings : Settings)
| LoadTypeError.

(** [load_runtime_settings] *)
Definition load_runtime_settings (file : SettingsFile) : LoadOutcome :=
  match file with
  | FileSequence has_interval has_jitter =>
      if negb has_interval then LoadTypeError
      else if negb has_jitter then LoadTypeError
      else Loaded SettingsSequence
  | FileScalar => LoadTypeError
  | _ =>
      let data := match file with FileObject data => data | _ => [] end in
      let data :=
        if negb (Dict.mem data INTERVAL_KEY)
        then Dict.set data INTERVAL_KEY (int_value legacy_interval)
        else data in
      let data :=
        if negb (Dict.mem data JITTER_KEY)
        then Dict.set data JITTER_KEY (int_value legacy_jitter)
        else data in
      Loaded (SettingsObject data)
  end.

(** [current.update(settings)] *)
Definition dict_update (current settings : Dict.dict V) : Dict.dict V :=
  fold_left (fun d kv => Dict.set d (fst kv) (snd kv)) settings current.

(** [save_runtime_settings]: the file afterwards.  Every exception inside
    is swallowed: the [TypeError] of the load, the [AttributeError] of
    [update] on a list or string, and the failure to open the file for
    writing ([can_write] false); the file then stays as it was. *)
Definition save_runtime_settings (file : SettingsFile) (can_write : bool)
    (settings : Dict.dict V) : SettingsFile :=
  match load_runtime_settings file with
  | Loaded (SettingsObject current) =>
      let current := dict_update current settings in
      if can_write then FileObject current else file
  | Loaded SettingsSequence => file
  | LoadTypeError => file
  end.

(** The body of the request after [get_json(...) or {}].  [BodyObject]: a
    JSON object, each value being what [int(...)] makes of it, [None] when
    [int] raises; a body that is missing, not JSON or false in Python is the
    empty object.  [BodySequence]: a list or string that is not empty, on
    which [body[key]] raises inside the inner [try].  [BodyScalar]: [true] or
    a number other than zero, on which [key in body] raises. *)
Inductive RequestBody : Type :=
| BodyObject (d : Dict.dict (option Z))
| BodySequence
| BodyScalar.

(** The answers of [api_set_runtime_settings]: status 400, status 500, or
    [ok] with the settings as loaded after the save. *)
Inductive SettingsResponse : Type :=
| NoValidKeys
| ServerError
| SettingsSaved (settings : Settings).

(** [api_set_runtime_settings] *)
Definition api_set_runtime_settings (file : SettingsFile) (can_write : bool)
    (body : RequestBody) : SettingsResponse * SettingsFile :=
  match body with
  | BodyScalar => (ServerError, file)
  | BodySequence => (NoValidKeys, file)
  | BodyObject body =>
      let out : Dict.dict V := [] in
      let out :=
        match Dict.get body INTERVAL_KEY with
        | Some (Some val) =>
            Dict.set out INTERVAL_KEY (int_value (clamp_interval val))
        | _ => out
        end in
      let out :=
        match Dict.get body JITTER_KEY with
        | Some (Some val) => Dict.set out JITTER_KEY (int_value (clamp_jitter val))
        | _ => out
        end in
      match out with
      | [] => (NoValidKeys, file)
      | _ =>
          let file' := save_runtime_settings file can_write out in
          match load_runtime_settings file' with
          | Loaded settings => (SettingsSaved settings, file')
          | LoadTypeError => (ServerError, file')
          end
      end
  end.

(** [api_get_runtime_settings] *)
Definition api_get_runtime_settings (file : SettingsFile) : SettingsResponse :=
  match load_runtime_settings file with
  | Loaded settings => SettingsSaved settings
  | LoadTypeError => ServerError
  end.
End RuntimeSettings.
Arguments FileAbsent {V}.
Arguments FileSequence {V} has_interval has_jitter.
Arguments FileScalar {V}.
Arguments SettingsSequence {V}.
Arguments LoadTypeError {V}.
Arguments NoValidKeys {V}.
Arguments ServerError {V}.

(* ------------------------------------------------------------------ *)
(** ** Key presses *)

(** [LOG_SENSITIVE_KEYS] of [config.py]. *)
Definition LOG_SENSITIVE_KEYS : bool := false.

(** A key as the listener hands it over: one with a [char] attribute, which
    may be [None], or a special key without it; [shown] is [str(key)]. *)
Inductive Key : Type :=
| KeyCode (char : option pystr) (shown : pystr)
| SpecialKey (shown : pystr).

(** The detector and the store, with [self.last_activity_time] in seconds. *)
Record Tracked : Type := mkTracked {
  tr_world : World;
  last_activity_time : Q
}.

(** [hasattr(key, 'char') and key.char] *)
Definition key_char_of (key : Key) : option pystr :=
  match key with
  | KeyCode (Some (c :: s)) _ => Some (c :: s)
  | _ => None
  end.

(** [str(key)] *)
Definition key_shown (key : Key) : pystr :=
  match key with
  | KeyCode _ shown => shown
  | SpecialKey shown => shown
  end.

Section KeyPresses.
(** [str.isalpha], left open. *)
Variable isalpha : pystr -> bool.
(** [IDLE_THRESHOLD], in seconds. *)
Variable IDLE_THRESHOLD : Q.

(** [_on_key_press].  [stamp] is [datetime.now()] and [clock] is
    [time.time()] at the call.  An exception of the flush is not an
    [AttributeError] and passes through, before the activity time is set. *)
Definition _on_key_press (t : Tracked) (key : Key) (stamp : timestamp) (clock : Q)
    : outcome unit * Tracked :=
  if negb LOG_SENSITIVE_KEYS &&
     match key_char_of key with Some c => isalpha c | None => false end
  then (Ok tt, t)
  else
    let detail :=
      match key_char_of key with Some c => c | None => key_shown key end in
    let event := mkMovement stamp (py "key_press") detail 0 in
    match _add_event (tr_world t) event with
    | (Ok _, w) => (Ok tt, mkTracked w clock)
    | (Raise e, w) => (Raise e, mkTracked w (last_activity_time t))
    end.

(** [get_status] at time [clock]. *)
Definition get_status (t : Tracked) (clock : Q) : pystr :=
  let idle_time := clock - last_activity_time t in
  if Qle_bool idle_time IDLE_THRESHOLD then py "active" else py "idle".

(** A run of key presses, each with its two clock readings; it ends at the
    first exception. *)
Fixpoint key_presses (t : Tracked) (keys : list (Key * timestamp * Q))
    : outcome unit * Tracked :=
  match keys with
  | [] => (Ok tt, t)
  | (key, stamp, clock) :: rest =>
      match _on_key_press t key stamp clock with
      | (Ok _, t') => key_presses t' rest
      | (Raise e, t') => (Raise e, t')
      end
  end.

(** Whether a key is a letter, which the listener passes over. *)
Definition is_letter (key : Key) : bool :=
  match key_char_of key with Some c => isalpha c | None => false end.

(** The keys of a run that are not letters. *)
Definition other_keys (keys : list (Key * timestamp * Q))
    : list (Key * timestamp * Q) :=
  List.filter (fun k => negb (is_letter (fst (fst k)))) keys.

(** The record of a key that is not a letter. *)
Definition key_record (k : Key * timestamp * Q) : Movement :=
  let key := fst (fst k) in
  mkMovement (snd (fst k)) (py "key_press")
    (match key_char_of key with Some c => c | None => key_shown key end) 0.

(** The activity time after a run: the clock of its last key that is not a
    letter. *)
Definition seen_after (seen : Q) (keys : list (Key * timestamp * Q)) : Q :=
  last (List.map snd (other_keys keys)) seen.
End KeyPresses.

(* ------------------------------------------------------------------ *)
(** * Properties *)

(** ** Strings *)

Lemma pystr_eqb_eq (a b : pystr) : PyStr.eqb a b = true <-> a = b.
Proof.
  revert b; induction a as [|x a IH]; intros [|y b]; simpl; split; intro H;
    try reflexivity; try discriminate.
  - apply andb_true_iff in H as [Hx Hab].
    apply N.eqb_eq in Hx. apply IH in Hab. now subst.
  - injection H as -> ->. rewrite N.eqb_refl. simpl. now apply IH.
Qed.

Lemma pystr_eqb_refl (a : pystr) : PyStr.eqb a a = true.
Proof. now apply pystr_eqb_eq. Qed.

Lemma pystr_eqb_neq (a b : pystr) : PyStr.eqb a b = false <-> a <> b.
Proof.
  split; intro H.
  - intro E. apply pystr_eqb_eq in E. congruence.
  - destruct (PyStr.eqb a b) eqn:E; [|reflexivity].
    apply pystr_eqb_eq in E. contradiction.
Qed.

(** ** The store query *)

Lemma insert_by_ts_In (e x : Event) (l : list Event) :
  In x (insert_by_ts e l) <-> x = e \/ In x l.
Proof.
  induction l as [|y l IH]; simpl.
  - intuition.
  - destruct (ev_timestamp e <=? ev_timestamp y)%Z; simpl; rewrite ?IH; intuition.
Qed.

Lemma order_by_timestamp_In (x : Event) (l : list Event) :
  In x (order_by_timestamp l) <-> In x l.
Proof.
  induction l as [|y l IH]; simpl; [tauto|].
  rewrite insert_by_ts_In, IH. intuition.
Qed.

Lemma insert_by_ts_sorted (e : Event) (l : list Event) :
  StronglySorted ts_le l -> StronglySorted ts_le (insert_by_ts e l).
Proof.
  induction 1 as [|y l Hs IH Hy]; simpl.
  - repeat constructor.
  - destruct (ev_timestamp e <=? ev_timestamp y)%Z eqn:E.
    + apply Z.leb_le in E. constructor; [now constructor|].
      constructor; [exact E|].
      eapply Forall_impl; [|exact Hy]. unfold ts_le. intros; lia.
    + apply Z.leb_gt in E. constructor; [exact IH|].
      apply Forall_forall. intros x Hx. apply insert_by_ts_In in Hx as [->|Hx].
      * unfold ts_le; lia.
      * rewrite Forall_forall in Hy. now apply Hy.
Qed.

Lemma order_by_timestamp_sorted (l : list Event) :
  StronglySorted ts_le (order_by_timestamp l).
Proof.
  induction l; simpl; [constructor | now apply insert_by_ts_sorted].
Qed.

Lemma select_events_sorted db emp start end_ :
  StronglySorted ts_le (select_events db emp start end_).
Proof. apply order_by_timestamp_sorted. Qed.

Lemma select_events_In db emp start end_ (e : Event) :
  In e (select_events db emp start end_) <->
  In e (db_events db) /\ ev_employee_id e = emp /\
  (start <= ev_timestamp e <= end_)%Z.
Proof.
  unfold select_events. rewrite order_by_timestamp_In, filter_In.
  unfold in_range. rewrite !andb_true_iff, pystr_eqb_eq, !Z.leb_le. tauto.
Qed.

#[local] Arguments in_tuple : simpl never.
#[local] Arguments py : simpl never.

(** ** Empty windows *)

(** C7: a window with no event of the subject is not an error: the
    active/idle totals of [_sum_active_idle] are both zero, and the session
    list of [get_continuous_sessions] for a day with no event is empty. *)
Theorem empty_window_all_zero (db : Database) (emp : pystr) :
  (forall start end_,
      select_events db emp start end_ = [] ->
      _sum_active_idle db emp start end_ = (0, 0)) /\
  (forall day now,
      select_events db emp (fst (_day_bounds (day_or_today day now)))
                    (snd (_day_bounds (day_or_today day now))) = [] ->
      get_continuous_sessions db emp day now = []).
Proof.
  split.
  - intros start end_ H. unfold _sum_active_idle. now rewrite H.
  - intros day now H. unfold get_continuous_sessions.
    destruct (_day_bounds (day_or_today day now)) as [s e]. simpl in H.
    now rewrite H.
Qed.

Lemma empty_window_all_zero_witness :
  let db := mkDatabase [py "e1"]
              [mkEvent 1 (py "e2") 5%Z (py "active") None None] [] [] true in
  _sum_active_idle db (py "e1") 0%Z 100%Z = (0, 0) /\
  get_continuous_sessions db (py "e1") (Some 0%Z) 7%Z = [].
Proof.
  intro db.
  split.
  - apply (proj1 (empty_window_all_zero db (py "e1"))). reflexivity.
  - apply (proj2 (empty_window_all_zero db (py "e1"))). reflexivity.
Defined.

(** ** Sessions *)







(** ** The movement batch *)

Lemma log_movement_batch_ok (db : Database) (events : list Movement)
    (eid : option pystr) :
  db_writable db = true ->
  exists db',
    log_movement_batch db events eid = Ok db' /\
    db_movement_logs db' = db_movement_logs db ++ List.map (movement_row eid) events /\
    db_events db' = db_events db /\ db_writable db' = true.
Proof.
  intro Hw. destruct events as [|m events].
  - exists db. simpl. rewrite app_nil_r. auto.
  - unfold log_movement_batch. rewrite Hw. eexists. split; [reflexivity|].
    simpl. auto.
Qed.

Lemma flush_batch_ok (self : ActivityDetector) (db : Database) :
  db_writable db = true ->
  exists db',
    _flush_batch (self, db) = (Ok tt, (mkDetector [] (employee_id self), db')) /\
    db_movement_logs db' =
      db_movement_logs db ++ List.map (movement_row (employee_id self)) (movement_events self) /\
    db_writable db' = true.
Proof.
  intro Hw. unfold _flush_batch.
  destruct (movement_events self) as [|m ms] eqn:E.
  - exists db. simpl. rewrite app_nil_r. destruct self; simpl in *. subst. auto.
  - destruct (log_movement_batch_ok db (m :: ms) (employee_id self) Hw)
      as (db' & Hlog & Hrows & _ & Hw').
    rewrite Hlog. exists db'. auto.
Qed.

Lemma add_event_below_threshold (self : ActivityDetector) (db : Database)
    (event : Movement) :
  (List.length (movement_events self) + 1 < 50)%nat ->
  _add_event (self, db) event =
    (Ok tt, (mkDetector (movement_events self ++ [event]) (employee_id self), db)).
Proof.
  intro H. unfold _add_event. cbn [movement_events].
  rewrite length_app. simpl List.length.
  destruct (50 <=? _)%nat eqn:E; [|reflexivity].
  apply Nat.leb_le in E. lia.
Qed.

Lemma add_event_at_threshold (self : ActivityDetector) (db : Database)
    (event : Movement) :
  (50 <= List.length (movement_events self) + 1)%nat ->
  _add_event (self, db) event =
    _flush_batch (mkDetector (movement_events self ++ [event]) (employee_id self), db).
Proof.
  intro H. unfold _add_event. cbn [movement_events].
  rewrite length_app. simpl List.length.
  destruct (50 <=? _)%nat eqn:E; [reflexivity|].
  apply Nat.leb_gt in E. lia.
Qed.

(** C3: from any buffer state, appending records one at a time until the
    batch holds exactly 50, with no explicit flush and a store that accepts
    the write, ends with the batch empty and 50 more rows in
    [movement_logs]: the 50 buffered records, in order. *)
Theorem auto_flush_at_fifty (events : list Movement) :
  forall (self : ActivityDetector) (db : Database),
    db_writable db = true ->
    events <> [] ->
    (List.length (movement_events self) + List.length events = 50)%nat ->
    exists db',
      add_events (self, db) events =
        (Ok tt, (mkDetector [] (employee_id self), db')) /\
      List.length (db_movement_logs db') =
        (List.length (db_movement_logs db) + 50)%nat /\
      db_movement_logs db' =
        db_movement_logs db ++
        List.map (movement_row (employee_id self)) (movement_events self ++ events).
Proof.
  induction events as [|e rest IH]; intros self db Hw Hne Hlen; [contradiction|].
  cbn [add_events]. simpl List.length in Hlen.
  destruct rest as [|e' rest'].
  - rewrite add_event_at_threshold by (simpl in Hlen; lia).
    destruct (flush_batch_ok (mkDetector (movement_events self ++ [e]) (employee_id self)) db Hw)
      as (db' & Hflush & Hrows & _).
    rewrite Hflush. cbn [add_events]. exists db'. cbn [employee_id movement_events] in *.
    repeat split; [|exact Hrows].
    rewrite Hrows, length_app, length_map, length_app. simpl in *. lia.
  - rewrite add_event_below_threshold by (simpl in Hlen; lia).
    destruct (IH (mkDetector (movement_events self ++ [e]) (employee_id self)) db Hw)
      as (db' & Hrun & Hcount & Hrows).
    + discriminate.
    + cbn [movement_events]. rewrite length_app. simpl in *. lia.
    + exists db'. cbn [employee_id movement_events] in *.
      rewrite Hrun. repeat split; [exact Hcount|].
      rewrite Hrows, <- app_assoc. reflexivity.
Qed.

Lemma auto_flush_at_fifty_witness :
  let m := mkMovement 0%Z (py "key_press") (py "Key.shift") 0 in
  let start := (mkDetector (repeat m 47) (Some (py "e1")),
                mkDatabase [py "e1"] [] [] [] true) in
  exists db',
    add_events start [m; m; m] = (Ok tt, (mkDetector [] (Some (py "e1")), db')) /\
    List.length (db_movement_logs db') = 50%nat.
Proof.
  intros m start.
  destruct (@auto_flush_at_fifty [m; m; m] (fst start) (snd start))
    as (db' & Hrun & Hcount & _).
  - reflexivity.
  - discriminate.
  - reflexivity.
  - exists db'. split; [exact Hrun | exact Hcount].
Defined.

(** C8: when the store rejects the write, [_flush_batch] raises to its
    caller and leaves the batch, and the store, exactly as they were; a
    later flush against a store that accepts the write then commits those
    same records and only then empties the batch. *)
Theorem flush_failure_keeps_batch (self : ActivityDetector) (db : Database) :
  movement_events self <> [] ->
  db_writable db = false ->
  _flush_batch (self, db) = (Raise OperationalError, (self, db)) /\
  forall db1,
    db_writable db1 = true ->
    exists db2,
      _flush_batch (self, db1) = (Ok tt, (mkDetector [] (employee_id self), db2)) /\
      db_movement_logs db2 =
        db_movement_logs db1 ++
        List.map (movement_row (employee_id self)) (movement_events self).
Proof.
  intros Hne Hw. split.
  - unfold _flush_batch, log_movement_batch.
    destruct (movement_events self); [contradiction|]. now rewrite Hw.
  - intros db1 Hw1.
    destruct (flush_batch_ok self db1 Hw1) as (db2 & Hflush & Hrows & _).
    exists db2. auto.
Qed.

Lemma flush_failure_keeps_batch_witness :
  let m := mkMovement 0%Z (py "mouse_click") (py "left") 0 in
  let self := mkDetector [m; m] (Some (py "e1")) in
  let db := mkDatabase [py "e1"] [] [] [] false in
  _flush_batch (self, db) = (Raise OperationalError, (self, db)).
Proof.
  intros m self db.
  apply (proj1 (@flush_failure_keeps_batch self db
                  ltac:(discriminate) ltac:(reflexivity))).
Defined.

(** ** Arithmetic on minutes *)

Lemma max0_pos (x : Q) : 0 < x -> max0 x = x.
Proof.
  intro H. unfold max0. destruct (Qle_bool x 0) eqn:E; [|reflexivity].
  apply Qle_bool_iff in E. exfalso. apply (Qlt_not_le _ _ H E).
Qed.

Lemma max0_nonneg (x : Q) : 0 <= x -> max0 x == x.
Proof.
  intro H. unfold max0. destruct (Qle_bool x 0) eqn:E; [|reflexivity].
  apply Qle_bool_iff in E. lra.
Qed.

Lemma max0_ge0 (x : Q) : 0 <= max0 x.
Proof.
  unfold max0. destruct (Qle_bool x 0) eqn:E; [lra|].
  apply Qlt_le_weak, Qnot_le_lt. intro Hle.
  apply Qle_bool_iff in Hle. congruence.
Qed.

Lemma delta_minutes_inject (a b : timestamp) :
  delta_minutes a b == (inject_Z b - inject_Z a) / 60000000.
Proof.
  unfold delta_minutes, total_seconds.
  rewrite Qmake_Qdiv. unfold Z.sub. rewrite inject_Z_plus, inject_Z_opp. field.
Qed.

Lemma delta_minutes_nonneg (a b : timestamp) :
  (a <= b)%Z -> 0 <= delta_minutes a b.
Proof.
  intro H. rewrite delta_minutes_inject.
  rewrite Zle_Qle in H.
  apply Qle_shift_div_l; lra.
Qed.

Lemma delta_minutes_pos (a b : timestamp) :
  (a < b)%Z -> 0 < delta_minutes a b.
Proof.
  intro H. rewrite delta_minutes_inject.
  rewrite Zlt_Qlt in H.
  apply Qlt_shift_div_l; lra.
Qed.

Lemma delta_minutes_add (a b c : timestamp) :
  delta_minutes a b + delta_minutes b c == delta_minutes a c.
Proof. rewrite !delta_minutes_inject. field. Qed.

Lemma delta_minutes_diag (a : timestamp) : delta_minutes a a == 0.
Proof. rewrite delta_minutes_inject. field. Qed.

Lemma round_half_even_near (y : Q) :
  Qabs (inject_Z (round_half_even y) - y) <= 1 # 2.
Proof.
  unfold round_half_even.
  pose proof (Qfloor_le y) as Hlo.
  pose proof (Qlt_floor y) as Hhi.
  rewrite inject_Z_plus in Hhi.
  change (inject_Z 1) with 1 in Hhi.
  set (f := Qfloor y) in *.
  apply Qabs_Qle_condition.
  destruct (Qcompare (y - inject_Z f) (1 # 2)) eqn:E.
  - apply Qeq_alt in E.
    destruct (Z.even f); rewrite ?inject_Z_plus; change (inject_Z 1) with 1; lra.
  - apply Qlt_alt in E. lra.
  - apply Qgt_alt in E. rewrite inject_Z_plus. change (inject_Z 1) with 1. lra.
Qed.

Lemma round2_near (x : Q) : Qabs (round2 x - x) <= 1 # 200.
Proof.
  unfold round2. rewrite Qmake_Qdiv.
  pose proof (round_half_even_near (x * 100)) as H.
  apply Qabs_Qle_condition in H. apply Qabs_Qle_condition.
  set (r := inject_Z (round_half_even (x * 100))) in *.
  change (inject_Z (Z.pos 100)) with 100.
  split.
  - apply Qle_minus_iff. 
    setoid_replace (r / 100 - x + - - (1 # 200)) with ((r - x * 100 + (1#2)) / 100) by field.
    apply Qle_shift_div_l; lra.
  - apply Qle_minus_iff.
    setoid_replace ((1 # 200) + - (r / 100 - x)) with (((1#2) - (r - x * 100)) / 100) by field.
    apply Qle_shift_div_l; lra.
Qed.

(** ** The segmentation loop *)

Lemma accrue_sum (st : SegState) (d : Q) :
  active_min (accrue st d) + idle_min (accrue st d) ==
  active_min st + idle_min st + max0 d.
Proof.
  unfold accrue. destruct (PyStr.eqb (prev_state st) S_ACTIVE); simpl; ring.
Qed.

Lemma accrue_prev (st : SegState) (d : Q) :
  prev_ts (accrue st d) = prev_ts st /\ prev_state (accrue st d) = prev_state st.
Proof.
  unfold accrue. destruct (PyStr.eqb (prev_state st) S_ACTIVE); simpl; auto.
Qed.

Lemma segment_step_sum (st : SegState) (r : Event) (t0 : timestamp) :
  (prev_ts st <= ev_timestamp r)%Z ->
  active_min st + idle_min st == delta_minutes t0 (prev_ts st) ->
  active_min (segment_step st r) + idle_min (segment_step st r) ==
  delta_minutes t0 (ev_timestamp r).
Proof.
  intros Hle Hsum. unfold segment_step. cbn [active_min idle_min].
  rewrite accrue_sum, Hsum.
  rewrite max0_nonneg by now apply delta_minutes_nonneg.
  apply delta_minutes_add.
Qed.

Lemma segment_fold_sum (rows : list Event) :
  forall (st : SegState) (t0 : timestamp),
    StronglySorted ts_le rows ->
    Forall (fun r => (prev_ts st <= ev_timestamp r)%Z) rows ->
    active_min st + idle_min st == delta_minutes t0 (prev_ts st) ->
    active_min (fold_left segment_step rows st) +
    idle_min (fold_left segment_step rows st) ==
    delta_minutes t0 (prev_ts (fold_left segment_step rows st)).
Proof.
  induction rows as [|r rows IH]; intros st t0 Hs Hall Hsum; simpl.
  - exact Hsum.
  - inversion Hs as [|? ? Hs' Hr]; subst. inversion Hall; subst.
    apply IH.
    + exact Hs'.
    + exact Hr.
    + now apply segment_step_sum.
Qed.

Lemma last_cons_default (A : Type) (l : list A) :
  forall x d d' : A, last (x :: l) d = last (x :: l) d'.
Proof.
  induction l as [|y l IH]; intros x d d'; [reflexivity|].
  change (last (y :: l) d = last (y :: l) d'). apply IH.
Qed.

Lemma segment_fold_prev_ts (rows : list Event) :
  forall st : SegState,
    prev_ts (fold_left segment_step rows st) =
    last (List.map ev_timestamp rows) (prev_ts st).
Proof.
  induction rows as [|r rows IH]; intro st; [reflexivity|].
  cbn [fold_left]. rewrite IH. cbn [List.map].
  destruct rows as [|r' rows]; [reflexivity|].
  cbn [List.map].
  change (last (ev_timestamp r :: ev_timestamp r' :: List.map ev_timestamp rows) (prev_ts st))
    with (last (ev_timestamp r' :: List.map ev_timestamp rows) (prev_ts st)).
  apply last_cons_default.
Qed.

Lemma last_map_timestamp (rows : list Event) (first : Event) :
  last (List.map ev_timestamp rows) (ev_timestamp first) =
  ev_timestamp (last rows first).
Proof.
  induction rows as [|r rows IH]; [reflexivity|].
  cbn [List.map]. destruct rows; [reflexivity|]. exact IH.
Qed.

Lemma last_In_cons (A : Type) (l : list A) :
  forall x d : A, In (last (x :: l) d) (x :: l).
Proof.
  induction l as [|y l IH]; intros x d; [now left|].
  right. change (last (x :: y :: l) d) with (last (y :: l) d). apply IH.
Qed.

Lemma segment_fold_state (rows : list Event) (st : SegState) :
  prev_state (fold_left segment_step rows st) =
  match List.find classifying (rev rows) with
  | Some r => if in_tuple (ev_event_type r) ACTIVE_KINDS then S_ACTIVE else S_IDLE
  | None => prev_state st
  end.
Proof.
  induction rows as [|r rows IH] using rev_ind; [reflexivity|].
  rewrite fold_left_app, rev_app_distr.
  change (rev [r] ++ rev rows) with (r :: rev rows).
  cbn [fold_left List.find].
  unfold segment_step at 1. cbn [prev_state].
  destruct (accrue_prev (fold_left segment_step rows st)
              (delta_minutes (prev_ts (fold_left segment_step rows st))
                 (ev_timestamp r))) as [_ ->].
  unfold reclassify, classifying at 1.
  destruct (in_tuple (ev_event_type r) ACTIVE_KINDS) eqn:EA; cbn [orb].
  { now rewrite EA. }
  destruct (in_tuple (ev_event_type r) IDLE_KINDS) eqn:EI.
  { now rewrite EA. }
  exact IH.
Qed.

Lemma segment_loop_state (rows : list Event) (first : Event) :
  prev_state (segment_loop rows first) = last_classified rows.
Proof. unfold segment_loop. now rewrite segment_fold_state. Qed.

(** The accumulators after the loop and the tail, on the rows of a window. *)
Lemma closed_tail_sum db emp start end_ first rest :
  select_events db emp start end_ = first :: rest ->
  let st := close_tail (segment_loop (first :: rest) first) end_ in
  active_min st + idle_min st == delta_minutes (ev_timestamp first) end_.
Proof.
  intros Hrows st.
  pose proof (select_events_sorted db emp start end_) as Hs. rewrite Hrows in Hs.
  assert (Hsum : active_min (segment_loop (first :: rest) first) +
                 idle_min (segment_loop (first :: rest) first) ==
                 delta_minutes (ev_timestamp first)
                   (prev_ts (segment_loop (first :: rest) first))).
  { unfold segment_loop. apply segment_fold_sum.
    - exact Hs.
    - inversion Hs as [|? ? _ Hr]; subst. constructor; [simpl; lia | exact Hr].
    - simpl. rewrite delta_minutes_diag. ring. }
  assert (Hend : (prev_ts (segment_loop (first :: rest) first) <= end_)%Z).
  { unfold segment_loop. rewrite segment_fold_prev_ts.
    cbn [segment_init prev_ts]. rewrite last_map_timestamp.
    pose proof (last_In_cons rest first first) as Hin.
    rewrite <- Hrows in Hin at 2. apply select_events_In in Hin. lia. }
  subst st. unfold close_tail.
  destruct (end_ >? prev_ts (segment_loop (first :: rest) first))%Z eqn:E.
  - rewrite accrue_sum, Hsum.
    rewrite max0_nonneg by (apply delta_minutes_nonneg; lia).
    apply delta_minutes_add.
  - assert (prev_ts (segment_loop (first :: rest) first) = end_) as Heq by lia.
    rewrite Hsum, Heq. reflexivity.
Qed.

(** C1, as the code has it: on a window with at least one event of the
    subject, the active and idle totals accumulated by [_sum_active_idle]
    add up to the minutes from the first event of the window, not from the
    window's start, to its end; they add up to [end - start] when an event
    sits at [start].  Each returned total is rounded to a hundredth, so their
    sum is within a hundredth of a minute of that span. *)
Theorem active_idle_cover_from_first_event db emp start end_ first rest :
  select_events db emp start end_ = first :: rest ->
  let st := close_tail (segment_loop (first :: rest) first) end_ in
  let result := _sum_active_idle db emp start end_ in
  result = (round2 (active_min st), round2 (idle_min st)) /\
  active_min st + idle_min st == delta_minutes (ev_timestamp first) end_ /\
  (ev_timestamp first = start ->
   active_min st + idle_min st == delta_minutes start end_) /\
  Qabs (fst result + snd result - delta_minutes (ev_timestamp first) end_)
    <= 1 # 100.
Proof.
  intros Hrows st result.
  pose proof (closed_tail_sum db emp start end_ Hrows) as Hsum. fold st in Hsum.
  assert (Hres : result = (round2 (active_min st), round2 (idle_min st))).
  { subst result st. unfold _sum_active_idle. now rewrite Hrows. }
  repeat split.
  - exact Hres.
  - exact Hsum.
  - intros <-. exact Hsum.
  - rewrite Hres. cbn [fst snd]. rewrite <- Hsum.
    pose proof (round2_near (active_min st)) as Ha.
    pose proof (round2_near (idle_min st)) as Hi.
    apply Qabs_Qle_condition in Ha, Hi. apply Qabs_Qle_condition. lra.
Qed.

Lemma active_idle_cover_from_first_event_witness :
  let first := mkEvent 1 (py "e1") 60000000%Z (py "active") None None in
  let db := mkDatabase [py "e1"] [first] [] [] true in
  let result := _sum_active_idle db (py "e1") 0%Z 120000000%Z in
  Qabs (fst result + snd result - delta_minutes 60000000 120000000) <= 1 # 100.
Proof.
  intros first db result.
  apply (proj2 (proj2 (proj2
    (@active_idle_cover_from_first_event db (py "e1") 0%Z 120000000%Z
       first [] eq_refl)))).
Defined.

(** C1 as stated fails: one [active] event one minute into a two-minute
    window gives one active minute and no idle minute, not two minutes. *)
Lemma window_sum_counterexample :
  let db := mkDatabase [py "e1"]
              [mkEvent 1 (py "e1") 60000000%Z (py "active") None None] [] [] true in
  let result := _sum_active_idle db (py "e1") 0%Z 120000000%Z in
  select_events db (py "e1") 0%Z 120000000%Z <> [] /\
  result = (100 # 100, 0 # 100) /\
  ~ (fst result + snd result == delta_minutes 0 120000000).
Proof.
  intros db result. split; [discriminate|]. split; [reflexivity|].
  vm_compute. discriminate.
Qed.

(** Tail closing in [_sum_active_idle]: on a window with at least one
    event, the loop ends at the timestamp of the last row and in the state
    left by the last classifying row; when the window's end is strictly
    later, the minutes from that timestamp to the end are added to the
    active total if that state is active and to the idle total otherwise,
    before rounding. *)
Theorem tail_closing db emp start end_ first rest :
  select_events db emp start end_ = first :: rest ->
  let rows := first :: rest in
  let st := segment_loop rows first in
  prev_ts st = ev_timestamp (last rows first) /\
  prev_state st = last_classified rows /\
  ((prev_ts st < end_)%Z ->
   (last_classified rows = S_ACTIVE ->
    _sum_active_idle db emp start end_ =
      (round2 (active_min st + delta_minutes (prev_ts st) end_),
       round2 (idle_min st))) /\
   (last_classified rows <> S_ACTIVE ->
    _sum_active_idle db emp start end_ =
      (round2 (active_min st),
       round2 (idle_min st + delta_minutes (prev_ts st) end_)))).
Proof.
  intros Hrows rows st.
  assert (Hts : prev_ts st = ev_timestamp (last rows first)).
  { subst st. unfold segment_loop. rewrite segment_fold_prev_ts.
    apply last_map_timestamp. }
  assert (Hstate : prev_state st = last_classified rows)
    by apply segment_loop_state.
  split; [exact Hts|]. split; [exact Hstate|]. intro Hlt. split.
  - intro Hact.
    unfold _sum_active_idle. rewrite Hrows. fold rows. fold st.
    unfold close_tail.
    replace (end_ >? prev_ts st)%Z with true by (symmetry; apply Z.gtb_lt; lia).
    unfold accrue. rewrite Hstate, Hact, pystr_eqb_refl. cbn [active_min idle_min].
    rewrite max0_pos by (apply delta_minutes_pos; lia). reflexivity.
  - intro Hact.
    unfold _sum_active_idle. rewrite Hrows. fold rows. fold st.
    unfold close_tail.
    replace (end_ >? prev_ts st)%Z with true by (symmetry; apply Z.gtb_lt; lia).
    unfold accrue. rewrite Hstate.
    apply pystr_eqb_neq in Hact. rewrite Hact. cbn [active_min idle_min].
    rewrite max0_pos by (apply delta_minutes_pos; lia). reflexivity.
Qed.

Lemma tail_closing_witness :
  let e1 := mkEvent 1 (py "e1") 0%Z (py "idle") None None in
  let e2 := mkEvent 2 (py "e1") 60000000%Z (py "window_change") None None in
  let db := mkDatabase [py "e1"] [e1; e2] [] [] true in
  _sum_active_idle db (py "e1") 0%Z 180000000%Z = (200 # 100, 100 # 100).
Proof.
  intros e1 e2 db.
  destruct (@tail_closing db (py "e1") 0%Z 180000000%Z e1 [e2] eq_refl)
    as (_ & _ & Htail).
  destruct Htail as [Hactive _]; [reflexivity|].
  rewrite Hactive by reflexivity. reflexivity.
Defined.

(** C2: [get_daily_stats] does not close the tail.  One employee is [idle]
    at 00:00:00 and changes window at 00:01:00 of day 0, and logs nothing
    more: the last processed event is earlier than the end of the day and the
    last state is active.  [_sum_active_idle] over that day adds the rest of
    the day to the active minutes; [get_daily_stats] for the same day runs
    the same loop, adds nothing after it, and reports no active minute. *)
Theorem daily_stats_leaves_tail_open :
  let db :=
    mkDatabase [py "e1"]
      [mkEvent 1 (py "e1") 0 (py "idle") None None;
       mkEvent 2 (py "e1") 60000000 (py "window_change") (Some (py "Editor")) None]
      [] [] true in
  let stats := get_daily_stats db (py "e1") (Some 0%Z) 0 in
  let whole :=
    _sum_active_idle db (py "e1") (fst (_day_bounds 0)) (snd (_day_bounds 0)) in
  (60000000 < snd (_day_bounds 0))%Z /\
  (fst whole == 1439) /\ (snd whole == 1) /\
  (active_time_min stats == 0) /\ (idle_time_min stats == 1).
Proof.
  cbn zeta. split; [reflexivity|]. repeat split; vm_compute; reflexivity.
Qed.

(** [get_daily_stats] runs the same loop but returns its accumulators as
    they are after the last row: it has no tail-closing step. *)
Lemma get_daily_stats_loop_only db emp d now first rest :
  select_events db emp (fst (_day_bounds d)) (snd (_day_bounds d)) = first :: rest ->
  let st := segment_loop (first :: rest) first in
  active_time_min (get_daily_stats db emp (Some d) now) = round2 (active_min st) /\
  idle_time_min (get_daily_stats db emp (Some d) now) = round2 (idle_min st).
Proof.
  intros Hrows st. unfold get_daily_stats. cbn [day_or_today].
  destruct (_day_bounds d) as [s e]. cbn [fst snd] in Hrows. rewrite Hrows.
  assert (H : forall rows acc,
             fst (fold_left daily_step rows acc) =
             fold_left segment_step rows (fst acc)).
  { induction rows as [|r rows IH]; intros [st0 apps]; [reflexivity|].
    cbn [fold_left]. rewrite IH. reflexivity. }
  specialize (H (first :: rest) (segment_init first, [])).
  destruct (fold_left daily_step (first :: rest) (segment_init first, []))
    as [st' apps]. cbn [fst] in H. subst st'. split; reflexivity.
Qed.

(** ** Per-application usage and the clock *)

(** C4 as stated fails: with the store unchanged, a subject whose last event
    of the current day is [active] is credited up to the clock reading, so
    two calls one minute apart return different minutes. *)
Lemma apps_usage_clock_counterexample :
  let db := mkDatabase [py "e1"]
              [mkEvent 1 (py "e1") 0 (py "active") None (Some (py "chrome.exe"))]
              [] [] true in
  get_apps_usage db (py "e1") (Some 0%Z) 60000000 =
    Ok [mkAppUsage (py "chrome.exe") (py "chrome") (100 # 100)] /\
  get_apps_usage db (py "e1") (Some 0%Z) 120000000 =
    Ok [mkAppUsage (py "chrome.exe") (py "chrome") (200 # 100)] /\
  get_apps_usage db (py "e1") (Some 0%Z) 60000000 <>
  get_apps_usage db (py "e1") (Some 0%Z) 120000000.
Proof.
  intro db. split; [reflexivity|]. split; [reflexivity|].
  vm_compute. discriminate.
Qed.

(** C4, as the code has it: for a fixed store, subject and day the result
    of [get_apps_usage] depends on the clock only through
    [min(now, day_end)]; two calls whose clock readings agree after that cap,
    as they do for every day that is over, return identical results. *)
Theorem apps_usage_same_capped_clock db emp (d : date) (now1 now2 : timestamp) :
  Z.min now1 (snd (_day_bounds d)) = Z.min now2 (snd (_day_bounds d)) ->
  get_apps_usage db emp (Some d) now1 = get_apps_usage db emp (Some d) now2.
Proof.
  intro H. unfold get_apps_usage. cbn [day_or_today].
  destruct (_day_bounds d) as [s e]. cbn [snd] in H.
  rewrite H. reflexivity.
Qed.

Lemma apps_usage_same_capped_clock_witness :
  let db := mkDatabase [py "e1"]
              [mkEvent 1 (py "e1") 0 (py "active") None (Some (py "chrome.exe"))]
              [] [] true in
  get_apps_usage db (py "e1") (Some 0%Z) 90000000000 =
  get_apps_usage db (py "e1") (Some 0%Z) 99000000000.
Proof.
  intro db.
  apply (@apps_usage_same_capped_clock db (py "e1") 0 90000000000 99000000000).
  reflexivity.
Defined.

(** ** The normaliser *)

Lemma alias_lookup_none (aliases : list (pystr * pystr)) (n : pystr) :
  (forall k v, In (k, v) aliases -> contains k n = false) ->
  alias_lookup aliases n = None.
Proof.
  induction aliases as [|[k v] rest IH]; intro H; [reflexivity|].
  cbn [alias_lookup]. rewrite (H k v) by now left.
  apply IH. intros k' v' Hin. apply (H k' v'). now right.
Qed.

Lemma split_ws_go_spaces (pre s : pystr) :
  forallb isspace pre = true ->
  split_ws_go (pre ++ s) [] = split_ws_go s [].
Proof.
  induction pre as [|c pre IH]; intro H; [reflexivity|].
  cbn [forallb] in H. apply andb_true_iff in H as [Hc Hpre].
  rewrite <- app_comm_cons. cbn [split_ws_go]. rewrite Hc. now apply IH.
Qed.

Lemma split_ws_go_token (tok : pystr) :
  forall s cur : pystr,
    forallb (fun c => negb (isspace c)) tok = true ->
    split_ws_go (tok ++ s) cur = split_ws_go s (rev tok ++ cur).
Proof.
  induction tok as [|c tok IH]; intros s cur H; [reflexivity|].
  cbn [forallb] in H. apply andb_true_iff in H as [Hc Htok].
  apply negb_true_iff in Hc.
  rewrite <- app_comm_cons. cbn [split_ws_go]. rewrite Hc, IH by exact Htok.
  cbn [rev]. now rewrite <- app_assoc.
Qed.

Lemma split_ws_go_boundary (post cur : pystr) :
  cur <> [] ->
  match post with [] => True | c :: _ => isspace c = true end ->
  exists rest, split_ws_go post cur = rev cur :: rest.
Proof.
  intros Hcur Hpost. destruct post as [|c post]; cbn [split_ws_go].
  - destruct cur; [contradiction|]. now eexists.
  - rewrite Hpost. destruct cur; [contradiction|]. now eexists.
Qed.

Lemma split_ws_first_token (n tok : pystr) :
  first_token_of n tok -> exists rest, split_ws n = tok :: rest.
Proof.
  intros (pre & post & -> & Hpre & Hne & Htok & Hpost).
  unfold split_ws. rewrite split_ws_go_spaces by exact Hpre.
  rewrite split_ws_go_token by exact Htok.
  destruct (@split_ws_go_boundary post (rev tok ++ [])) as [rest Hrest].
  - rewrite app_nil_r. intro E. apply Hne.
    rewrite <- (rev_involutive tok), E. reflexivity.
  - exact Hpost.
  - exists rest. rewrite Hrest, app_nil_r, rev_involutive. reflexivity.
Qed.

(** What holds of the normaliser's keys: the pairs [("chrome.exe", None)]
    and [("Google Chrome - New Tab", "chrome.exe")] get the same key,
    [chrome]; every name whose normal form contains [chrome] gets the key
    [chrome]; and a name whose normal form contains no key of the alias
    table and has a token gets the first whitespace-delimited token of that
    normal form. *)
Theorem normalizer_keys :
  (normalize (Some (py "chrome.exe")) None = Ok (py "chrome") /\
   normalize (Some (py "Google Chrome - New Tab")) (Some (py "chrome.exe")) =
     Ok (py "chrome")) /\
  (forall name : pystr,
      contains (py "chrome") (normal_form name) = true ->
      _normalize (Some name) = Ok (py "chrome")) /\
  (forall name tok : pystr,
      name <> [] ->
      (forall k v, In (k, v) ALIASES -> contains k (normal_form name) = false) ->
      first_token_of (normal_form name) tok ->
      _normalize (Some name) = Ok tok).
Proof.
  split; [split; reflexivity|]. split.
  - intros name H. destruct name as [|c name]; [discriminate H|].
    unfold _normalize, ALIASES. cbn [alias_lookup]. now rewrite H.
  - intros name tok Hne Hnone Htok.
    destruct name as [|c name]; [contradiction|].
    unfold _normalize. rewrite (alias_lookup_none _ _ Hnone).
    destruct (split_ws_first_token Htok) as [rest ->]. reflexivity.
Qed.

Lemma normalizer_keys_witness :
  _normalize (Some (py "C:\Apps\Google\Chrome.EXE")) = Ok (py "chrome") /\
  _normalize (Some (py "  My Fancy Tool v2 ")) = Ok (py "my").
Proof.
  destruct normalizer_keys as (_ & Hchrome & Htoken). split.
  - apply Hchrome. reflexivity.
  - apply Htoken.
    + discriminate.
    + intros k v Hin. cbn in Hin.
      repeat (destruct Hin as [Hin|Hin]; [injection Hin as <- <-; reflexivity|]).
      contradiction.
    + exists [], (py " fancy tool v2"). repeat split; try reflexivity. discriminate.
Defined.

(** A name whose normal form has no token and matches no alias makes
    [n.split()[0]] raise: whitespace alone, or a path that ends in a slash. *)
Lemma normalize_without_token (name : pystr) :
  name <> [] ->
  alias_lookup ALIASES (normal_form name) = None ->
  split_ws (normal_form name) = [] ->
  _normalize (Some name) = Raise IndexError.
Proof.
  intros Hne Ha Hs. destruct name; [contradiction|].
  unfold _normalize. now rewrite Ha, Hs.
Qed.

Example normalize_blank_raises :
  _normalize (Some (py " ")) = Raise IndexError /\
  _normalize (Some (py "https://example.com/")) = Raise IndexError.
Proof. split; reflexivity. Qed.

(** C5: the fallback of [_normalize] fails on a name that matches no alias
    and has no token.  The title [example.com/ - Google Chrome] of a window
    whose process name is unknown is cut to [example.com/], of which the part
    after the last slash is empty: [n.split()[0]] raises [IndexError], and
    with it [get_apps_usage] for the whole day.  A name of whitespace alone
    does the same. *)
Theorem fallback_without_token_raises :
  let db :=
    mkDatabase [py "e1"]
      [mkEvent 1 (py "e1") 0 (py "window_change")
         (Some (py "example.com/ - Google Chrome")) None]
      [] [] true in
  normal_form (py "example.com/ - Google Chrome") = [] /\
  alias_lookup ALIASES [] = None /\
  _normalize (Some (py "example.com/ - Google Chrome")) = Raise IndexError /\
  _normalize (Some (py " ")) = Raise IndexError /\
  get_apps_usage db (py "e1") (Some 0%Z) 0 = Raise IndexError.
Proof.
  cbn zeta. repeat split; vm_compute; reflexivity.
Qed.

(** ** Splitting on a separator *)

Lemma startswith_app (p s : pystr) :
  startswith p s = true <-> exists r, s = p ++ r.
Proof.
  revert s. induction p as [|x p IH]; intro s; simpl.
  - split; [now exists s | reflexivity].
  - destruct s as [|y s]; [split; [discriminate | intros [r H]; discriminate]|].
    rewrite andb_true_iff, N.eqb_eq, IH. split.
    + intros [-> [r ->]]. now exists r.
    + intros [r [= -> ->]]. split; [reflexivity | now exists r].
Qed.

Lemma split_go_skip (sep : pystr) (k : nat) :
  forall s cur : pystr,
    (k <= List.length s)%nat ->
    split_go sep s k cur = split_go sep (skipn k s) 0 cur.
Proof.
  induction k as [|k IH]; intros s cur Hk; [reflexivity|].
  destruct s as [|c s]; [simpl in Hk; lia|].
  cbn [split_go skipn]. apply IH. simpl in Hk. lia.
Qed.

Lemma join_cons (sep p : pystr) (parts : list pystr) :
  parts <> [] -> join sep (p :: parts) = p ++ sep ++ join sep parts.
Proof.
  destruct parts as [|q parts]; [contradiction|]. intros _.
  cbn [join List.map List.concat]. now rewrite <- !app_assoc.
Qed.

Lemma split_go_nonempty (sep s : pystr) (k : nat) (cur : pystr) :
  split_go sep s k cur <> [].
Proof.
  revert k cur. induction s as [|c s IH]; intros k cur; cbn [split_go].
  - discriminate.
  - destruct k; [|apply IH].
    destruct (startswith sep (c :: s)); [discriminate | apply IH].
Qed.

(** [sep.join(s.split(sep)) == s] *)
Lemma join_split_go (sep : pystr) (n : nat) :
  sep <> [] ->
  forall s cur : pystr,
    (List.length s <= n)%nat ->
    join sep (split_go sep s 0 cur) = rev cur ++ s.
Proof.
  intro Hsep. induction n as [|n IH]; intros s cur Hlen.
  - destruct s; [|simpl in Hlen; lia]. simpl. reflexivity.
  - destruct s as [|c s]; [reflexivity|].
    cbn [split_go]. destruct (startswith sep (c :: s)) eqn:E.
    + apply startswith_app in E as [r Hr].
      destruct sep as [|x sep']; [contradiction|].
      injection Hr as Hc Hs. subst c s.
      replace (List.length (x :: sep') - 1)%nat with (List.length sep')
        by (simpl; lia).
      rewrite split_go_skip by (rewrite length_app; lia).
      rewrite skipn_app, skipn_all, Nat.sub_diag.
      cbn [skipn List.app].
      rewrite join_cons by apply split_go_nonempty.
      rewrite IH by (simpl in Hlen; rewrite length_app in Hlen; lia).
      reflexivity.
    + rewrite IH by (simpl in Hlen; lia).
      cbn [rev]. now rewrite <- app_assoc.
Qed.

Lemma join_split (sep s : pystr) : sep <> [] -> join sep (split sep s) = s.
Proof.
  intro Hsep. unfold split.
  now rewrite (@join_split_go sep (List.length s) Hsep s []).
Qed.

Lemma split_go_absent (sep : pystr) :
  forall s cur : pystr,
    contains sep s = false -> split_go sep s 0 cur = [rev cur ++ s].
Proof.
  induction s as [|c s IH]; intros cur H.
  - simpl. now rewrite app_nil_r.
  - cbn [contains] in H. apply orb_false_iff in H as [Hs Hc].
    cbn [split_go]. rewrite Hs, IH by exact Hc.
    cbn [rev]. now rewrite <- app_assoc.
Qed.


Lemma split_present (sep : pystr) :
  forall s cur : pystr,
    sep <> [] ->
    contains sep s = true ->
    exists p q parts, split_go sep s 0 cur = p :: q :: parts.
Proof.
  induction s as [|c s IH]; intros cur Hsep H.
  - destruct sep; [contradiction | discriminate].
  - cbn [contains] in H. cbn [split_go].
    destruct (startswith sep (c :: s)) eqn:E.
    + destruct (split_go sep s (List.length sep - 1) []) as [|q parts] eqn:G.
      * now apply split_go_nonempty in G.
      * now exists (rev cur), q, parts.
    + cbn [orb] in H. now apply IH.
Qed.

Lemma last_part_snoc (parts : list pystr) (p : pystr) :
  parts <> [] ->
  exists init, parts = init ++ [last_part parts].
Proof.
  intros Hne. unfold last_part.
  destruct (exists_last Hne) as (init & x & ->).
  exists init. now rewrite last_last.
Qed.

(** When the separator occurs, the first and the last piece of the split are
    what stands left of its first and right of its last split point. *)
Lemma split_sides (sep s : pystr) :
  sep <> [] ->
  contains sep s = true ->
  (exists right, s = first_part (split sep s) ++ sep ++ right) /\
  (exists left, s = left ++ sep ++ last_part (split sep s)).
Proof.
  intros Hsep Hin.
  pose proof (join_split s Hsep) as Hjoin.
  destruct (@split_present sep s [] Hsep Hin) as (p & q & parts & Hsplit).
  fold (split sep s) in Hsplit. rewrite Hsplit in *.
  rewrite join_cons in Hjoin by discriminate. split.
  - exists (join sep (q :: parts)). now rewrite <- Hjoin.
  - destruct (@last_part_snoc (q :: parts) p) as [init Hinit]; [discriminate|].
    assert (Hlast : last_part (p :: q :: parts) = last_part (q :: parts))
      by reflexivity.
    rewrite Hlast.
    set (l := last_part (q :: parts)) in *.
    destruct init as [|i init].
    + exists p. rewrite <- Hjoin, Hinit. cbn [List.app join List.map List.concat].
      now rewrite app_nil_r.
    + exists (p ++ sep ++ join sep (i :: init)).
      rewrite <- Hjoin, Hinit. cbn [List.app join].
      rewrite map_app, concat_app. cbn [List.map List.concat].
      now rewrite app_nil_r, <- !app_assoc.
Qed.

(** ** Title separators *)

Lemma cut_separators_absent (seps : list pystr) (n : pystr) :
  (forall s, In s seps -> contains s n = false) ->
  cut_separators seps n = n.
Proof.
  revert n. induction seps as [|sep seps IH]; intros n H; [reflexivity|].
  unfold cut_separators. cbn [fold_left]. unfold cut_separator at 2.
  rewrite (H sep) by now left.
  apply IH. intros s Hs. apply H. now right.
Qed.

Lemma cut_separators_first (seps : list pystr) :
  forall (n sep : pystr) (later : list pystr),
    first_separator seps n = Some (sep, later) ->
    contains sep n = true /\
    cut_separators seps n = cut_separators later (kept_side sep n).
Proof.
  induction seps as [|s seps IH]; intros n sep later H; [discriminate|].
  cbn [first_separator] in H.
  unfold cut_separators. cbn [fold_left]. unfold cut_separator at 2.
  destruct (contains s n) eqn:E.
  - injection H as <- <-. now split.
  - now apply IH.
Qed.

Lemma first_separator_In (seps : list pystr) :
  forall (n sep : pystr) (later : list pystr),
    first_separator seps n = Some (sep, later) -> In sep seps.
Proof.
  induction seps as [|s seps IH]; intros n sep later H; [discriminate|].
  cbn [first_separator] in H. destruct (contains s n).
  - injection H as <- _. now left.
  - right. eapply IH, H.
Qed.

(** C9 as stated fails: the loop over the separators has no [break].  Here
    the first separator found is [" - "]; its right side is 12 code points
    long, so the left side ["a | b"] is kept, and the loop then splits that
    side again on [" | "] and keeps ["b"]. *)
Lemma single_split_counterexample :
  let n := py "a | b - longlonglong" in
  first_separator SEPARATORS n = Some (py " - ", [py " | "; [32%N; EM_DASH; 32%N]; py " :: "]) /\
  cut_first_separator n = py "a | b" /\
  cut_separators SEPARATORS n = py "b" /\
  cut_separators SEPARATORS n <> cut_first_separator n.
Proof.
  intro n. repeat split; try reflexivity. vm_compute. discriminate.
Qed.

(** C9, as the code has it: when the name contains a separator, the first
    one found in the list splits it; the first piece is what stands left of
    the first split point and the last piece what stands right of the last
    one, and the last piece is kept if it is shorter than 8 code points, the
    first piece otherwise.  The kept piece then goes through the separators
    that come later in the list in the same way.  When it contains none of
    those, it is the result, which is then what a single split gives. *)
Theorem separators_first_then_later (n sep : pystr) (later : list pystr) :
  first_separator SEPARATORS n = Some (sep, later) ->
  ((exists right, n = first_part (split sep n) ++ sep ++ right) /\
   (exists left, n = left ++ sep ++ last_part (split sep n))) /\
  kept_side sep n =
    (if (len (last_part (split sep n)) <? 8)%Z
     then last_part (split sep n) else first_part (split sep n)) /\
  cut_separators SEPARATORS n = cut_separators later (kept_side sep n) /\
  ((forall s, In s later -> contains s (kept_side sep n) = false) ->
   cut_separators SEPARATORS n = kept_side sep n /\
   cut_separators SEPARATORS n = cut_first_separator n).
Proof.
  intro H. destruct (cut_separators_first _ _ H) as [Hin Hcut].
  split.
  { apply split_sides; [|exact Hin].
    apply first_separator_In in H. cbn in H.
    repeat (destruct H as [<-|H]; [discriminate|]). contradiction. }
  split; [reflexivity|]. split; [exact Hcut|].
  intro Hlater. rewrite Hcut, cut_separators_absent by exact Hlater.
  split; [reflexivity|]. unfold cut_first_separator. now rewrite H.
Qed.

Lemma separators_first_then_later_witness :
  cut_separators SEPARATORS (py "Quarterly report.docx - Word") = py "Word".
Proof.
  destruct (@separators_first_then_later (py "Quarterly report.docx - Word")
              (py " - ") [py " | "; [32%N; EM_DASH; 32%N]; py " :: "] eq_refl)
    as (_ & _ & _ & Hsingle).
  destruct Hsingle as [Hkept _].
  - intros s Hs. cbn in Hs.
    repeat (destruct Hs as [Hs|Hs]; [rewrite <- Hs; reflexivity|]).
    contradiction.
  - rewrite Hkept. reflexivity.
Defined.

(** ** Dictionaries and sorting *)

Section DictFacts.
Variable V : Type.
Implicit Types (d : Dict.dict V) (k : pystr) (v : V).

Lemma dict_get_set_same d k v : Dict.get (Dict.set d k v) k = Some v.
Proof.
  induction d as [|[k' v'] d IH]; simpl.
  - now rewrite pystr_eqb_refl.
  - destruct (PyStr.eqb k k') eqn:E; simpl; rewrite E; [reflexivity | exact IH].
Qed.

Lemma dict_get_set_other d k k' v :
  k <> k' -> Dict.get (Dict.set d k v) k' = Dict.get d k'.
Proof.
  intro Hne. induction d as [|[k0 v0] d IH]; simpl.
  - apply not_eq_sym in Hne. apply pystr_eqb_neq in Hne. now rewrite Hne.
  - destruct (PyStr.eqb k k0) eqn:E; simpl.
    + apply pystr_eqb_eq in E. subst k0.
      apply not_eq_sym in Hne. apply pystr_eqb_neq in Hne. now rewrite Hne.
    + now rewrite IH.
Qed.

Lemma dict_keys_set d k v :
  forall k', In k' (Dict.keys (Dict.set d k v)) <-> k' = k \/ In k' (Dict.keys d).
Proof.
  intro k'. induction d as [|[k0 v0] d IH]; simpl.
  - intuition.
  - destruct (PyStr.eqb k k0) eqn:E; simpl.
    + apply pystr_eqb_eq in E. subst k0. intuition.
    + rewrite IH. intuition.
Qed.

Lemma dict_set_nodup d k v :
  NoDup (Dict.keys d) -> NoDup (Dict.keys (Dict.set d k v)).
Proof.
  induction d as [|[k0 v0] d IH]; simpl; intro H.
  - repeat constructor. intros [].
  - inversion H as [|? ? Hnotin Hnd]; subst.
    destruct (PyStr.eqb k k0) eqn:E; simpl.
    + now constructor.
    + constructor; [|now apply IH].
      intro Hin. apply dict_keys_set in Hin as [->|Hin]; [|contradiction].
      rewrite pystr_eqb_refl in E. discriminate.
Qed.

Lemma dict_get_In d k v : Dict.get d k = Some v -> In (k, v) d.
Proof.
  induction d as [|[k0 v0] d IH]; simpl; [discriminate|].
  destruct (PyStr.eqb k k0) eqn:E.
  - apply pystr_eqb_eq in E. subst k0. intros [= ->]. now left.
  - intro H. right. now apply IH.
Qed.

Lemma dict_In_get d k v :
  NoDup (Dict.keys d) -> In (k, v) d -> Dict.get d k = Some v.
Proof.
  induction d as [|[k0 v0] d IH]; simpl; intros Hnd Hin; [contradiction|].
  inversion Hnd as [|? ? Hnotin Hnd']; subst.
  destruct Hin as [[= -> ->]|Hin].
  - now rewrite pystr_eqb_refl.
  - destruct (PyStr.eqb k k0) eqn:E.
    + apply pystr_eqb_eq in E. subst k0. exfalso. apply Hnotin.
      change k with (fst (k, v)). now apply in_map.
    + now apply IH.
Qed.

Lemma dict_get_keys d k : Dict.get d k <> None <-> In k (Dict.keys d).
Proof.
  induction d as [|[k0 v0] d IH]; simpl; [intuition|].
  destruct (PyStr.eqb k k0) eqn:E.
  - apply pystr_eqb_eq in E. subst k0. split; [now left | discriminate].
  - rewrite IH. apply pystr_eqb_neq in E. intuition congruence.
Qed.
End DictFacts.

Section SortDescFacts.
Variable A : Type.
Variable key : A -> Q.

Lemma insert_desc_perm (x : A) (l : list A) :
  Permutation (insert_desc key x l) (x :: l).
Proof.
  induction l as [|y l IH]; simpl; [reflexivity|].
  destruct (Qle_bool (key y) (key x)); [reflexivity|].
  rewrite IH. apply perm_swap.
Qed.

Lemma sorted_desc_perm (l : list A) : Permutation (sorted_desc key l) l.
Proof.
  induction l as [|x l IH]; simpl; [reflexivity|].
  rewrite insert_desc_perm. now constructor.
Qed.

Lemma insert_desc_sorted (x : A) (l : list A) :
  StronglySorted (key_desc key) l -> StronglySorted (key_desc key) (insert_desc key x l).
Proof.
  induction 1 as [|y l Hs IH Hy]; simpl.
  - repeat constructor.
  - destruct (Qle_bool (key y) (key x)) eqn:E.
    + apply Qle_bool_iff in E. constructor; [now constructor|].
      constructor; [exact E|].
      eapply Forall_impl; [|exact Hy]. unfold key_desc. intros a Ha.
      now apply Qle_trans with (key y).
    + assert (key x <= key y) as Hxy.
      { apply Qlt_le_weak, Qnot_le_lt. intro Hle.
        apply Qle_bool_iff in Hle. congruence. }
      constructor; [exact IH|].
      eapply Permutation_Forall; [symmetry; apply insert_desc_perm|].
      now constructor.
Qed.

Lemma sorted_desc_sorted (l : list A) :
  StronglySorted (key_desc key) (sorted_desc key l).
Proof.
  induction l; simpl; [constructor | now apply insert_desc_sorted].
Qed.
End SortDescFacts.

Lemma StronglySorted_filter (A : Type) (R : A -> A -> Prop) (f : A -> bool)
    (l : list A) :
  StronglySorted R l -> StronglySorted R (List.filter f l).
Proof.
  induction 1 as [|x l Hs IH Hx]; simpl; [constructor|].
  destruct (f x); [|exact IH].
  constructor; [exact IH|].
  rewrite Forall_forall in *. intros y Hy. apply filter_In in Hy as [Hy _]. auto.
Qed.

Lemma StronglySorted_map (A B : Type) (R : A -> A -> Prop) (R' : B -> B -> Prop)
    (f : A -> B) (l : list A) :
  (forall a b, R a b -> R' (f a) (f b)) ->
  StronglySorted R l -> StronglySorted R' (List.map f l).
Proof.
  intro Hf. induction 1 as [|x l Hs IH Hx]; simpl; constructor; [exact IH|].
  rewrite Forall_forall in *. intros y Hy.
  apply in_map_iff in Hy as (a & <- & Ha). auto.
Qed.

(** ** Rounding is monotone *)

Lemma round_half_even_bounds (x : Q) :
  (Qfloor x <= round_half_even x <= Qfloor x + 1)%Z.
Proof.
  unfold round_half_even.
  destruct (Qcompare (x - inject_Z (Qfloor x)) (1 # 2)); [|lia|lia].
  destruct (Z.even (Qfloor x)); lia.
Qed.

Lemma round_half_even_mono (x y : Q) :
  x <= y -> (round_half_even x <= round_half_even y)%Z.
Proof.
  intro Hxy.
  pose proof (Qfloor_resp_le _ _ Hxy) as Hf.
  pose proof (round_half_even_bounds x) as Hx.
  pose proof (round_half_even_bounds y) as Hy.
  destruct (Z.eq_dec (Qfloor x) (Qfloor y)) as [E|NE]; [|lia].
  unfold round_half_even in *. rewrite <- E in *.
  set (f := Qfloor x) in *.
  destruct (Qcompare (x - inject_Z f) (1 # 2)) eqn:Ex;
    [apply Qeq_alt in Ex | apply Qlt_alt in Ex | apply Qgt_alt in Ex];
  (destruct (Qcompare (y - inject_Z f) (1 # 2)) eqn:Ey;
    [apply Qeq_alt in Ey | apply Qlt_alt in Ey | apply Qgt_alt in Ey]);
    try lia; try (destruct (Z.even f); lia); exfalso; lra.
Qed.

Lemma round2_mono (x y : Q) : x <= y -> round2 x <= round2 y.
Proof.
  intro H. unfold round2.
  assert (x * 100 <= y * 100) as H100 by lra.
  apply round_half_even_mono in H100.
  unfold Qle. simpl. lia.
Qed.

(** ** The company rollup *)

Lemma get0_set (d : Dict.dict Q) (k k' : pystr) (v : Q) :
  get0 (Dict.set d k v) k' = if PyStr.eqb k k' then v else get0 d k'.
Proof.
  unfold get0. destruct (PyStr.eqb k k') eqn:E.
  - apply pystr_eqb_eq in E. subst k'. now rewrite dict_get_set_same.
  - apply pystr_eqb_neq in E. now rewrite dict_get_set_other.
Qed.

Lemma rollup_reports (reports : list (outcome (list AppUsage))) :
  forall acc,
    fold_left rollup_employee reports acc =
    fold_left rollup_item (reported reports) acc.
Proof.
  induction reports as [|r reports IH]; intro acc; [reflexivity|].
  unfold reported. cbn [List.map List.concat fold_left].
  rewrite fold_left_app, IH. destruct r; reflexivity.
Qed.

Lemma rollup_fold_total (k : pystr) (items : list AppUsage) :
  forall totals names,
    get0 (fst (fold_left rollup_item items (totals, names))) k =
    fold_left
      (fun acc it => if PyStr.eqb (item_key it) k then acc + minutes it else acc)
      items (get0 totals k).
Proof.
  induction items as [|it items IH]; intros totals names; [reflexivity|].
  cbn [fold_left]. unfold rollup_item at 2. rewrite IH, get0_set.
  destruct (PyStr.eqb (item_key it) k) eqn:E; [|reflexivity].
  apply pystr_eqb_eq in E. now rewrite E.
Qed.

Lemma rollup_fold_nodup (items : list AppUsage) :
  forall totals names,
    NoDup (Dict.keys totals) ->
    NoDup (Dict.keys (fst (fold_left rollup_item items (totals, names)))).
Proof.
  induction items as [|it items IH]; intros totals names H; [exact H|].
  cbn [fold_left]. unfold rollup_item at 2. apply IH.
  now apply dict_set_nodup.
Qed.

Lemma rollup_fold_keys (k : pystr) (items : list AppUsage) :
  forall totals names,
    In k (Dict.keys (fst (fold_left rollup_item items (totals, names)))) <->
    In k (Dict.keys totals) \/ exists it, In it items /\ item_key it = k.
Proof.
  induction items as [|it items IH]; intros totals names.
  - simpl. split; [now left | intros [H|(it & [] & _)]; exact H].
  - cbn [fold_left]. unfold rollup_item at 2. rewrite IH, dict_keys_set.
    split.
    + intros [[->|H]|(it' & Hin & Hk)].
      * right. exists it. split; [now left | reflexivity].
      * now left.
      * right. exists it'. split; [now right | exact Hk].
    + intros [H|(it' & [<-|Hin] & Hk)].
      * left. now right.
      * left. now left.
      * right. now exists it'.
Qed.

Lemma rollup_fold_names (k : pystr) (items : list AppUsage) :
  forall totals names,
    Dict.get (snd (fold_left rollup_item items (totals, names))) k =
    match Dict.get names k with
    | Some l => Some l
    | None =>
        option_map item_label
          (List.find (fun it => PyStr.eqb (item_key it) k) items)
    end.
Proof.
  induction items as [|it items IH]; intros totals names.
  - simpl. now destruct (Dict.get names k).
  - cbn [fold_left List.find]. unfold rollup_item at 2. rewrite IH.
    unfold Dict.mem.
    destruct (PyStr.eqb (item_key it) k) eqn:E.
    + apply pystr_eqb_eq in E. subst k.
      destruct (Dict.get names (item_key it)) eqn:G.
      * now rewrite G.
      * now rewrite dict_get_set_same.
    + apply pystr_eqb_neq in E.
      destruct (Dict.get names (item_key it)) eqn:G; [reflexivity|].
      rewrite dict_get_set_other by exact E. reflexivity.
Qed.

Lemma positive_filter (v : Q) : negb (Qle_bool v 0) = true <-> 0 < v.
Proof.
  rewrite negb_true_iff. split; intro H.
  - apply Qnot_le_lt. intro Hle. apply Qle_bool_iff in Hle. congruence.
  - destruct (Qle_bool v 0) eqn:E; [|reflexivity].
    apply Qle_bool_iff in E. exfalso. apply (Qlt_not_le _ _ H E).
Qed.

Lemma ranked_In (totals : Dict.dict Q) (names : Dict.dict pystr) (e : AppUsage) :
  In e (ranked totals names) <->
  exists k v,
    In (k, v) totals /\ 0 < v /\
    e = mkAppUsage
          (match Dict.get names k with Some a => a | None => title k end)
          k (round2 v).
Proof.
  unfold ranked. rewrite in_map_iff. split.
  - intros ([k v] & <- & Hin). apply filter_In in Hin as [Hin Hpos].
    exists k, v. cbn [fst snd] in *. repeat split.
    + eapply Permutation_in; [apply sorted_desc_perm | exact Hin].
    + now apply positive_filter.
  - intros (k & v & Hin & Hpos & ->). exists (k, v). split; [reflexivity|].
    apply filter_In. split.
    + eapply Permutation_in; [symmetry; apply sorted_desc_perm | exact Hin].
    + now apply positive_filter.
Qed.

Lemma ranked_nodup (totals : Dict.dict Q) (names : Dict.dict pystr) :
  NoDup (Dict.keys totals) -> NoDup (List.map key (ranked totals names)).
Proof.
  intro H. unfold ranked. rewrite map_map. cbn [key].
  apply NoDup_map_inv with (f := fun k : pystr => k).
  rewrite map_id.
  assert (Hs : NoDup (List.map fst (sorted_desc snd totals))).
  { eapply Permutation_NoDup; [|exact H].
    apply Permutation_map. symmetry. apply sorted_desc_perm. }
  revert Hs. generalize (sorted_desc snd totals). intro l.
  induction l as [|[k v] l IH]; simpl; intro Hs; [constructor|].
  inversion Hs as [|? ? Hnotin Hnd]; subst.
  destruct (negb (Qle_bool v 0)); simpl; [|now apply IH].
  constructor; [|now apply IH].
  intro Hin. apply Hnotin. apply in_map_iff in Hin as ([k' v'] & Hk & Hin).
  apply filter_In in Hin as [Hin _]. simpl in Hk. subst k'.
  change k with (fst (k, v')). now apply in_map.
Qed.

Lemma ranked_sorted (totals : Dict.dict Q) (names : Dict.dict pystr) :
  StronglySorted minutes_desc (ranked totals names).
Proof.
  unfold ranked.
  apply StronglySorted_map with (R := key_desc (@snd pystr Q)).
  - intros a b Hab. unfold minutes_desc, key_desc in *. cbn [minutes].
    now apply round2_mono.
  - apply StronglySorted_filter, sorted_desc_sorted.
Qed.

Lemma rollup_entry_fold (items : list AppUsage) (totals : Dict.dict Q)
    (names : Dict.dict pystr) (e : AppUsage) :
  fold_left rollup_item items (([] : Dict.dict Q), ([] : Dict.dict pystr)) =
    (totals, names) ->
  In e (ranked totals names) <->
  (exists it, In it items /\ item_key it = key e) /\
  0 < key_total (key e) items /\
  e = mkAppUsage (first_label (key e) items) (key e)
        (round2 (key_total (key e) items)).
Proof.
  intro Hfold.
  assert (Htotal : forall k, get0 totals k = key_total k items).
  { intro k. pose proof (rollup_fold_total k items [] []) as H.
    rewrite Hfold in H. exact H. }
  assert (Hnodup : NoDup (Dict.keys totals)).
  { pose proof (rollup_fold_nodup items [] [] (NoDup_nil _)) as H.
    rewrite Hfold in H. exact H. }
  assert (Hkeys : forall k, In k (Dict.keys totals) <->
                            exists it, In it items /\ item_key it = k).
  { intro k. pose proof (rollup_fold_keys k items [] []) as H.
    rewrite Hfold in H. cbn [fst] in H. rewrite H. simpl. tauto. }
  assert (Hlabel : forall k,
             match Dict.get names k with Some a => a | None => title k end =
             first_label k items).
  { intro k. pose proof (rollup_fold_names k items [] []) as H.
    rewrite Hfold in H. cbn [snd Dict.get] in H. rewrite H.
    unfold first_label. now destruct (List.find _ items). }
  assert (Hvalue : forall k v, In (k, v) totals -> v = key_total k items).
  { intros k v Hin. rewrite <- Htotal. unfold get0.
    now rewrite (dict_In_get _ _ _ Hnodup Hin). }
  rewrite ranked_In. split.
  - intros (k & v & Hin & Hpos & ->). cbn [key].
    rewrite Hlabel, <- (Hvalue _ _ Hin). repeat split; [|exact Hpos].
    apply Hkeys. change k with (fst (k, v)). now apply in_map.
  - intros (Hrep & Hpos & He).
    apply Hkeys, dict_get_keys in Hrep.
    destruct (Dict.get totals (key e)) as [v|] eqn:G; [|contradiction].
    apply dict_get_In in G.
    pose proof (Hvalue _ _ G) as Hv. subst v.
    exists (key e), (key_total (key e) items). rewrite Hlabel. auto.
Qed.

Lemma rollup_entry (reports : list (outcome (list AppUsage))) (e : AppUsage) :
  In e (rollup reports) <->
  (exists it, In it (reported reports) /\ item_key it = key e) /\
  0 < key_total (key e) (reported reports) /\
  e = mkAppUsage (first_label (key e) (reported reports)) (key e)
        (round2 (key_total (key e) (reported reports))).
Proof.
  unfold rollup. rewrite rollup_reports.
  destruct (fold_left rollup_item (reported reports) ([], []))
    as [totals names] eqn:Hfold.
  now apply rollup_entry_fold.
Qed.

(** C6: two subjects reporting [chrome] for 10 and for 5 minutes give one
    [chrome] entry of 15 minutes.  In general the rollup has at most one
    entry per key, is in descending order of minutes, and holds exactly the
    keys whose reported minutes sum to more than zero, each with that sum
    (rounded to a hundredth) and the label of the first item reported under
    the key. *)
Theorem rollup_merges_by_key :
  rollup [Ok [mkAppUsage (py "Chrome") (py "chrome") 10];
          Ok [mkAppUsage (py "chrome.exe") (py "chrome") 5]] =
    [mkAppUsage (py "Chrome") (py "chrome") (1500 # 100)] /\
  forall reports : list (outcome (list AppUsage)),
    NoDup (List.map key (rollup reports)) /\
    StronglySorted minutes_desc (rollup reports) /\
    (forall e,
        In e (rollup reports) ->
        0 < key_total (key e) (reported reports) /\
        e = mkAppUsage (first_label (key e) (reported reports)) (key e)
              (round2 (key_total (key e) (reported reports)))) /\
    (forall it,
        In it (reported reports) ->
        0 < key_total (item_key it) (reported reports) ->
        In (mkAppUsage (first_label (item_key it) (reported reports))
              (item_key it)
              (round2 (key_total (item_key it) (reported reports))))
           (rollup reports)).
Proof.
  split; [reflexivity|]. intro reports.
  split; [|split; [|split]].
  - unfold rollup. rewrite rollup_reports.
    pose proof (rollup_fold_nodup (reported reports) [] [] (NoDup_nil _)) as H.
    destruct (fold_left rollup_item (reported reports) ([], []))
      as [t nm] eqn:Hfold.
    apply ranked_nodup.
    replace t with (fst (fold_left rollup_item (reported reports) ([], [])))
      by now rewrite Hfold.
    exact H.
  - unfold rollup. destruct (fold_left rollup_employee reports ([], [])).
    apply ranked_sorted.
  - intros e H. apply rollup_entry in H as (_ & Hpos & He). now split.
  - intros it Hin Hpos. apply rollup_entry. cbn [key].
    split; [now exists it|]. now split.
Qed.

Lemma rollup_merges_by_key_witness :
  let reports := [Ok [mkAppUsage (py "Word") (py "word") 3;
                      mkAppUsage (py "Chrome") (py "chrome") 10];
                  Raise IndexError;
                  Ok [mkAppUsage (py "chrome.exe") (py "chrome") 5]] in
  In (mkAppUsage (py "Chrome") (py "chrome") (1500 # 100)) (rollup reports).
Proof.
  intro reports.
  destruct rollup_merges_by_key as [_ H].
  destruct (H reports) as (_ & _ & _ & Hin).
  apply (Hin (mkAppUsage (py "chrome.exe") (py "chrome") 5)).
  - right. right. now left.
  - reflexivity.
Defined.

(** ** A worked scenario *)

Example scenario_active_idle :
  _sum_active_idle scenario_db (py "emp") 0 1200000000 = (1500 # 100, 500 # 100).
Proof. reflexivity. Qed.

Example scenario_apps_usage :
  get_apps_usage scenario_db (py "emp") (Some 0%Z) 1200000000 =
    Ok [mkAppUsage (py "Word") (py "word") (1000 # 100);
        mkAppUsage (py "Chrome") (py "chrome") (500 # 100)].
Proof. reflexivity. Qed.

Example scenario_sessions :
  get_continuous_sessions scenario_db (py "emp") (Some 0%Z) 1200000000 =
    [mkSession 0 300000000 300; mkSession 300000000 900000000 600].
Proof. reflexivity. Qed.

Example scenario_company :
  get_company_apps_usage scenario_db (Some 0%Z) 1200000000 =
    [mkAppUsage (py "Word") (py "word") (1000 # 100);
     mkAppUsage (py "Chrome") (py "chrome") (500 # 100)].
Proof. reflexivity. Qed.

(* ------------------------------------------------------------------ *)
(** * Further properties *)

(** ** The movement batch over a whole run *)

Lemma flush_batch_writes (self : ActivityDetector) (db : Database) :
  db_writable db = true ->
  exists db',
    _flush_batch (self, db) = (Ok tt, (mkDetector [] (employee_id self), db')) /\
    db_movement_logs db' =
      db_movement_logs db ++
      List.map (movement_row (employee_id self)) (movement_events self) /\
    db_events db' = db_events db /\
    db_employees db' = db_employees db /\
    db_screenshots db' = db_screenshots db /\
    db_writable db' = true.
Proof.
  intro Hw. unfold _flush_batch.
  destruct (movement_events self) as [|m ms] eqn:E.
  - exists db. simpl. rewrite app_nil_r. destruct self; simpl in *. subst.
    repeat split; auto.
  - unfold log_movement_batch. rewrite Hw. eexists. split; [reflexivity|].
    simpl. repeat split; auto.
Qed.

(** A run of appends on a writable store, from a batch below the threshold. *)
Lemma add_events_run (events : list Movement) :
  forall (self : ActivityDetector) (db : Database),
    db_writable db = true ->
    (List.length (movement_events self) < 50)%nat ->
    exists self' db',
      add_events (self, db) events = (Ok tt, (self', db')) /\
      (List.length (movement_events self') < 50)%nat /\
      employee_id self' = employee_id self /\
      db_movement_logs db' ++
        List.map (movement_row (employee_id self)) (movement_events self') =
      db_movement_logs db ++
        List.map (movement_row (employee_id self)) (movement_events self ++ events) /\
      db_events db' = db_events db /\
      db_employees db' = db_employees db /\
      db_screenshots db' = db_screenshots db /\
      db_writable db' = true.
Proof.
  induction events as [|e rest IH]; intros self db Hw Hlen.
  - exists self, db. cbn [add_events]. rewrite app_nil_r. repeat split; auto.
  - cbn [add_events].
    destruct (Nat.lt_ge_cases (List.length (movement_events self) + 1) 50)
      as [Hbelow|Hat].
    + rewrite add_event_below_threshold by exact Hbelow.
      destruct (IH (mkDetector (movement_events self ++ [e]) (employee_id self)) db Hw)
        as (self' & db' & Hrun & Hlen' & Hid & Hrows & Hrest).
      { cbn [movement_events]. rewrite length_app. simpl. lia. }
      exists self', db'. cbn [employee_id movement_events] in *.
      rewrite Hrun, Hrows, <- app_assoc. repeat split; auto; apply Hrest.
    + rewrite add_event_at_threshold by exact Hat.
      destruct (flush_batch_writes
                  (mkDetector (movement_events self ++ [e]) (employee_id self)) db Hw)
        as (db1 & Hflush & Hrows1 & Hev1 & Hemp1 & Hsh1 & Hw1).
      rewrite Hflush. cbn [employee_id movement_events] in *.
      destruct (IH (mkDetector [] (employee_id self)) db1 Hw1)
        as (self' & db' & Hrun & Hlen' & Hid & Hrows & Hev & Hemp & Hsh & Hw').
      { simpl. lia. }
      exists self', db'. cbn [employee_id movement_events] in *.
      rewrite Hrun, Hrows, Hrows1. cbn [List.app].
      rewrite <- !app_assoc, !map_app, <- !app_assoc.
      repeat split; auto; congruence.
Qed.

(** X1: with a store that accepts writes and a batch that starts below the
    threshold, any run of appends succeeds, ends with fewer than 50 buffered
    records, and loses, duplicates or reorders nothing: the rows of
    [movement_logs] followed by the buffered records are the old rows
    followed by the old buffer and the appended records.  No other table
    changes. *)
Theorem add_events_conserves (events : list Movement) :
  forall (self : ActivityDetector) (db : Database),
    db_writable db = true ->
    (List.length (movement_events self) < 50)%nat ->
    exists self' db',
      add_events (self, db) events = (Ok tt, (self', db')) /\
      (List.length (movement_events self') < 50)%nat /\
      employee_id self' = employee_id self /\
      db_movement_logs db' ++
        List.map (movement_row (employee_id self)) (movement_events self') =
      db_movement_logs db ++
        List.map (movement_row (employee_id self)) (movement_events self ++ events) /\
      db_events db' = db_events db /\
      db_employees db' = db_employees db /\
      db_screenshots db' = db_screenshots db /\
      db_writable db' = true.
Proof. exact (@add_events_run events). Qed.

Lemma add_events_conserves_witness :
  let m := mkMovement 0%Z (py "mouse_move") (py "x:1,y:2") 3 in
  let start := (mkDetector (repeat m 30) None, mkDatabase [] [] [] [] true) in
  exists self' db',
    add_events start (repeat m 75) = (Ok tt, (self', db')) /\
    (List.length (movement_events self') < 50)%nat.
Proof.
  intros m start.
  destruct (@add_events_conserves (repeat m 75) (fst start) (snd start))
    as (self' & db' & Hrun & Hlen & _).
  - reflexivity.
  - simpl. lia.
  - exists self', db'. split; [exact Hrun | exact Hlen].
Defined.

(** X2: shutdown loses nothing.  After any run of appends, [stop] writes
    what is still buffered: the batch is empty and [movement_logs] holds
    the old rows, then the old buffer, then every appended record, in
    order. *)
Theorem stop_flushes_everything (events : list Movement)
    (self : ActivityDetector) (db : Database) :
  db_writable db = true ->
  (List.length (movement_events self) < 50)%nat ->
  exists w1 db2,
    add_events (self, db) events = (Ok tt, w1) /\
    stop w1 = (Ok tt, (mkDetector [] (employee_id self), db2)) /\
    db_movement_logs db2 =
      db_movement_logs db ++
      List.map (movement_row (employee_id self)) (movement_events self ++ events).
Proof.
  intros Hw Hlen.
  destruct (add_events_run events self db Hw Hlen)
    as (self' & db' & Hrun & _ & Hid & Hrows & _ & _ & _ & Hw').
  destruct (flush_batch_writes self' db' Hw')
    as (db2 & Hflush & Hrows2 & _).
  exists (self', db'), db2. unfold stop.
  rewrite Hrun, Hflush, Hrows2, Hid, Hrows. auto.
Qed.

Lemma stop_flushes_everything_witness :
  let m := mkMovement 0%Z (py "key_press") (py "Key.enter") 0 in
  exists w1 db2,
    add_events (mkDetector [] (Some (py "e1")), mkDatabase [py "e1"] [] [] [] true)
               (repeat m 60) = (Ok tt, w1) /\
    stop w1 = (Ok tt, (mkDetector [] (Some (py "e1")), db2)) /\
    List.length (db_movement_logs db2) = 60%nat.
Proof.
  intro m.
  destruct (@stop_flushes_everything (repeat m 60)
              (mkDetector [] (Some (py "e1")))
              (mkDatabase [py "e1"] [] [] [] true))
    as (w1 & db2 & Hrun & Hstop & Hrows).
  - reflexivity.
  - simpl. lia.
  - exists w1, db2. split; [exact Hrun|]. split; [exact Hstop|].
    rewrite Hrows. reflexivity.
Defined.

(** X3: the retry path.  When the append that fills the batch meets a store
    that rejects the write, it raises and the batch keeps all 50 records;
    the next append against a store that accepts writes then commits all 51
    in one flush and empties the batch. *)
Theorem rejected_flush_is_retried (self : ActivityDetector) (db : Database)
    (e1 e2 : Movement) :
  List.length (movement_events self) = 49%nat ->
  db_writable db = false ->
  let full := mkDetector (movement_events self ++ [e1]) (employee_id self) in
  _add_event (self, db) e1 = (Raise OperationalError, (full, db)) /\
  forall db1,
    db_writable db1 = true ->
    exists db2,
      _add_event (full, db1) e2 = (Ok tt, (mkDetector [] (employee_id self), db2)) /\
      db_movement_logs db2 =
        db_movement_logs db1 ++
        List.map (movement_row (employee_id self))
                 (movement_events self ++ [e1; e2]).
Proof.
  intros Hlen Hw full. split.
  - rewrite add_event_at_threshold by lia.
    unfold _flush_batch, log_movement_batch. cbn [movement_events employee_id].
    destruct (movement_events self ++ [e1]) eqn:E.
    + apply app_eq_nil in E as [_ E]. discriminate.
    + rewrite Hw. reflexivity.
  - intros db1 Hw1.
    rewrite add_event_at_threshold
      by (subst full; cbn [movement_events]; rewrite length_app; simpl; lia).
    destruct (flush_batch_writes
                (mkDetector (movement_events full ++ [e2]) (employee_id full)) db1 Hw1)
      as (db2 & Hflush & Hrows & _).
    exists db2. subst full. cbn [movement_events employee_id] in *.
    rewrite Hflush, Hrows, <- app_assoc. auto.
Qed.

Lemma rejected_flush_is_retried_witness :
  let m := mkMovement 0%Z (py "mouse_click") (py "left") 0 in
  let self := mkDetector (repeat m 49) (Some (py "e1")) in
  let db := mkDatabase [py "e1"] [] [] [] false in
  _add_event (self, db) m =
    (Raise OperationalError, (mkDetector (repeat m 49 ++ [m]) (Some (py "e1")), db)).
Proof.
  intros m self db.
  apply (proj1 (@rejected_flush_is_retried self db m m eq_refl eq_refl)).
Defined.

(** ** Clearing a timeline, deleting an employee *)

Lemma select_events_nil db emp start end_ :
  select_events db emp start end_ = [] <->
  forall x, In x (db_events db) -> in_range emp start end_ x = false.
Proof.
  split.
  - intros H x Hx. destruct (in_range emp start end_ x) eqn:E; [|reflexivity].
    assert (In x (select_events db emp start end_)) as Hin.
    { unfold select_events. apply order_by_timestamp_In, filter_In. now split. }
    rewrite H in Hin. contradiction.
  - intro H. unfold select_events.
    replace (List.filter (in_range emp start end_) (db_events db)) with (@nil Event);
      [reflexivity|].
    symmetry. induction (db_events db) as [|x l IH]; [reflexivity|].
    simpl. rewrite (H x) by now left. apply IH. intros y Hy. apply H. now right.
Qed.

Lemma filter_delete_where (A : Type) (p q : A -> bool) (l : list A) :
  (forall x, In x l -> p x = true -> q x = false) ->
  List.filter p (delete_where q l) = List.filter p l.
Proof.
  unfold delete_where. induction l as [|x l IH]; intro H; [reflexivity|].
  simpl. destruct (q x) eqn:Eq; simpl.
  - destruct (p x) eqn:Ep.
    + rewrite (H x) in Eq by (auto; now left). discriminate.
    + apply IH. intros y Hy. apply H. now right.
  - rewrite IH; [reflexivity|]. intros y Hy. apply H. now right.
Qed.

Lemma in_range_inside emp s e s' e' (x : Event) :
  (s <= s')%Z -> (e' <= e)%Z ->
  in_range emp s' e' x = true -> in_range emp s e x = true.
Proof.
  unfold in_range. rewrite !andb_true_iff, !Z.leb_le.
  intros Hs He [[H1 H2] H3]. repeat split; [exact H1 | lia | lia].
Qed.

(** The queries read the events through [select_events] only. *)
Lemma queries_follow_select (db db' : Database) (emp : pystr) :
  (forall s e, select_events db' emp s e = select_events db emp s e) ->
  (forall s e, _sum_active_idle db' emp s e = _sum_active_idle db emp s e) /\
  (forall day now, get_apps_usage db' emp day now = get_apps_usage db emp day now) /\
  (forall day now,
      get_continuous_sessions db' emp day now = get_continuous_sessions db emp day now).
Proof.
  intro H. repeat split.
  - intros s e. unfold _sum_active_idle. now rewrite H.
  - intros day now. unfold get_apps_usage.
    destruct (_day_bounds (day_or_today day now)). now rewrite H.
  - intros day now. unfold get_continuous_sessions.
    destruct (_day_bounds (day_or_today day now)). now rewrite H.
Qed.

(** X4: once [clear_employee_timeline] has returned, no window inside the
    cleared day holds an event of that employee, so the day's active and
    idle totals are zero and its usage list and session list are empty. *)
Theorem cleared_day_is_empty (db db' : Database) (emp : pystr) (d : date)
    (include_media : bool) (now : timestamp) :
  clear_employee_timeline db emp (Some d) include_media now = Ok db' ->
  (forall s e,
      (fst (_day_bounds d) <= s)%Z -> (e <= snd (_day_bounds d))%Z ->
      select_events db' emp s e = [] /\
      _sum_active_idle db' emp s e = (0, 0)) /\
  (forall now', get_apps_usage db' emp (Some d) now' = Ok []) /\
  (forall now', get_continuous_sessions db' emp (Some d) now' = []).
Proof.
  unfold clear_employee_timeline. cbn [day_or_today].
  destruct (_day_bounds d) as [ds de] eqn:Eb. cbn [fst snd].
  destruct (db_writable db); [|discriminate]. intros [= <-].
  assert (Hsel : forall s e, (ds <= s)%Z -> (e <= de)%Z ->
            select_events
              (mkDatabase (db_employees db)
                 (delete_where (in_range emp ds de) (db_events db))
                 (if include_media
                  then delete_where (screenshot_in_range emp ds de) (db_screenshots db)
                  else db_screenshots db)
                 (delete_where (movement_in_range emp ds de) (db_movement_logs db))
                 true) emp s e = []).
  { intros s e Hs He. apply select_events_nil. cbn [db_events].
    intros x Hx. unfold delete_where in Hx. apply filter_In in Hx as [_ Hx].
    apply negb_true_iff in Hx.
    destruct (in_range emp s e x) eqn:E; [|reflexivity].
    apply in_range_inside with (s := ds) (e := de) in E; [congruence | lia | lia]. }
  repeat split.
  - now apply Hsel.
  - unfold _sum_active_idle. now rewrite Hsel.
  - intro now'. unfold get_apps_usage. cbn [day_or_today]. rewrite Eb.
    rewrite Hsel by lia. reflexivity.
  - intro now'. unfold get_continuous_sessions. cbn [day_or_today]. rewrite Eb.
    rewrite Hsel by lia. reflexivity.
Qed.

Lemma cleared_day_is_empty_witness :
  exists db',
    clear_employee_timeline scenario_db (py "emp") (Some 0%Z) false 7%Z = Ok db' /\
    _sum_active_idle db' (py "emp") 0 1200000000 = (0, 0).
Proof.
  assert (Hc : exists db',
             clear_employee_timeline scenario_db (py "emp") (Some 0%Z) false 7%Z = Ok db')
    by (eexists; reflexivity).
  destruct Hc as [db' Hc]. exists db'. split; [exact Hc|].
  apply (proj1 (@cleared_day_is_empty scenario_db db' (py "emp") 0%Z false 7%Z Hc)).
  - vm_compute. discriminate.
  - vm_compute. discriminate.
Defined.



(** X6: [delete_employee] with a non-empty id removes the employee and
    every event of theirs, in any window; every other employee stays listed
    with the same events; and the company rollup afterwards is the rollup
    of the remaining employees' usage as it was before. *)
Theorem delete_employee_removes (db db' : Database) (emp : pystr) :
  emp <> [] ->
  delete_employee db emp = Ok db' ->
  ~ In emp (db_employees db') /\
  (forall s e, select_events db' emp s e = []) /\
  (forall emp',
      emp' <> emp ->
      (In emp' (db_employees db') <-> In emp' (db_employees db)) /\
      forall s e, select_events db' emp' s e = select_events db emp' s e) /\
  (forall day now,
      get_company_apps_usage db' day now =
      rollup (List.map
                (fun eid => get_apps_usage db eid (Some (day_or_today day now)) now)
                (List.filter (fun e => negb (PyStr.eqb e emp)) (db_employees db)))).
Proof.
  intros Hne Hdel. unfold delete_employee in Hdel.
  destruct emp as [|c emp0] eqn:Eemp; [contradiction|]. rewrite <- Eemp in *.
  clear Eemp c emp0.
  destruct (db_writable db); [|discriminate]. injection Hdel as <-.
  assert (Hother : forall emp' s e, emp' <> emp ->
            select_events
              (mkDatabase
                 (delete_where (fun e0 => PyStr.eqb e0 emp) (db_employees db))
                 (delete_where (fun e0 => PyStr.eqb (ev_employee_id e0) emp) (db_events db))
                 (delete_where (fun s0 => PyStr.eqb (sh_employee_id s0) emp)
                    (db_screenshots db))
                 (delete_where
                    (fun m => match ml_employee_id m with
                              | Some e0 => PyStr.eqb e0 emp
                              | None => false
                              end) (db_movement_logs db))
                 true) emp' s e = select_events db emp' s e).
  { intros emp' s e Hne'. unfold select_events. cbn [db_events].
    rewrite filter_delete_where; [reflexivity|].
    intros x _ Hx. unfold in_range in Hx.
    apply andb_true_iff in Hx as [Hx _]. apply andb_true_iff in Hx as [Hid _].
    apply pystr_eqb_eq in Hid. apply pystr_eqb_neq. congruence. }
  split; [|split; [|split]].
  - cbn [db_employees]. unfold delete_where. intro Hin.
    apply filter_In in Hin as [_ Hin]. rewrite pystr_eqb_refl in Hin. discriminate.
  - intros s e. apply select_events_nil. cbn [db_events].
    intros x Hx. unfold delete_where in Hx. apply filter_In in Hx as [_ Hx].
    apply negb_true_iff in Hx. unfold in_range. now rewrite Hx.
  - intros emp' Hne'. split.
    + cbn [db_employees]. unfold delete_where. rewrite filter_In.
      split; [tauto|]. intro Hin. split; [exact Hin|].
      apply negb_true_iff, pystr_eqb_neq. exact Hne'.
    + intros s e. now apply Hother.
  - intros day now. unfold get_company_apps_usage. cbn [db_employees].
    unfold delete_where. f_equal. apply map_ext_in.
    intros eid Hin. apply filter_In in Hin as [_ Hin].
    apply negb_true_iff, pystr_eqb_neq in Hin.
    refine (proj1 (proj2 (queries_follow_select _ _ _ _)) _ _).
    intros s e. now apply Hother.
Qed.

Lemma delete_employee_removes_witness :
  exists db',
    delete_employee scenario_db (py "emp") = Ok db' /\
    db_employees db' = [] /\
    get_company_apps_usage db' (Some 0%Z) 1200000000 = [].
Proof.
  assert (Hd : exists db', delete_employee scenario_db (py "emp") = Ok db')
    by (eexists; reflexivity).
  destruct Hd as [db' Hd]. exists db'. split; [exact Hd|].
  destruct (@delete_employee_removes scenario_db db' (py "emp")
              ltac:(discriminate) Hd) as (_ & _ & _ & Hcompany).
  split.
  - vm_compute in Hd. injection Hd as <-. reflexivity.
  - rewrite Hcompany. reflexivity.
Defined.

(** ** Clearing today for everybody *)

Lemma filter_twice (A : Type) (p q : A -> bool) (l : list A) :
  List.filter p (List.filter q l) = List.filter (fun x => q x && p x) l.
Proof.
  induction l as [|x l IH]; [reflexivity|]. simpl.
  destruct (q x); simpl; [destruct (p x); now rewrite IH | exact IH].
Qed.

Lemma clear_each_events (ids : list pystr) (d : date) (include_media : bool)
    (now : timestamp) :
  forall db db',
    clear_each db ids d include_media now = Ok db' ->
    db_employees db' = db_employees db /\
    db_events db' =
      delete_where
        (fun x => existsb
                    (fun id => in_range id (fst (_day_bounds d)) (snd (_day_bounds d)) x)
                    ids)
        (db_events db).
Proof.
  induction ids as [|id ids IH]; intros db db' H.
  - injection H as <-. split; [reflexivity|].
    unfold delete_where. cbn [existsb negb].
    induction (db_events db) as [|x l IHl]; [reflexivity|]. simpl. now f_equal.
  - cbn [clear_each] in H.
    destruct (clear_employee_timeline db id (Some d) include_media now)
      as [db1|] eqn:E1; [|discriminate].
    cbn [bind] in H. apply IH in H as [Hemp Hev].
    unfold clear_employee_timeline in E1. cbn [day_or_today] in E1.
    destruct (_day_bounds d) as [ds de]. cbn [fst snd] in *.
    destruct (db_writable db); [|discriminate]. injection E1 as <-.
    cbn [db_employees db_events] in *. split; [exact Hemp|].
    rewrite Hev. unfold delete_where. rewrite filter_twice.
    apply filter_ext. intro x. cbn [existsb]. now rewrite negb_orb.
Qed.

Lemma rollup_of_nothing (l : list pystr) :
  rollup (List.map (fun _ : pystr => @Ok (list AppUsage) []) l) = [].
Proof.
  unfold rollup. rewrite rollup_reports.
  replace (reported (List.map (fun _ : pystr => @Ok (list AppUsage) []) l))
    with (@nil AppUsage); [reflexivity|].
  unfold reported. induction l as [|x l IH]; [reflexivity|]. simpl. exact IH.
Qed.

(** X7: once [clear_today_all] has returned, no listed employee has an event
    left in the current day, the employee list is as before, and the
    company usage of the day is empty. *)
Theorem clear_today_all_empties_today (db db' : Database) (include_media : bool)
    (now : timestamp) :
  clear_today_all db include_media now = Ok db' ->
  db_employees db' = db_employees db /\
  (forall emp,
      In emp (db_employees db) ->
      select_events db' emp (fst (_day_bounds (date_of now)))
                    (snd (_day_bounds (date_of now))) = []) /\
  get_company_apps_usage db' None now = [].
Proof.
  unfold clear_today_all. intro H. apply clear_each_events in H as [Hemp Hev].
  assert (Hsel : forall emp,
            In emp (db_employees db) ->
            select_events db' emp (fst (_day_bounds (date_of now)))
                          (snd (_day_bounds (date_of now))) = []).
  { intros emp Hin. apply select_events_nil. rewrite Hev.
    intros x Hx. unfold delete_where in Hx. apply filter_In in Hx as [_ Hx].
    apply negb_true_iff in Hx.
    destruct (in_range emp _ _ x) eqn:E; [|reflexivity].
    assert (existsb
              (fun id => in_range id (fst (_day_bounds (date_of now)))
                           (snd (_day_bounds (date_of now))) x)
              (db_employees db) = true) as Hex
      by (apply existsb_exists; now exists emp).
    congruence. }
  split; [exact Hemp|]. split; [exact Hsel|].
  unfold get_company_apps_usage. cbn [day_or_today]. rewrite Hemp.
  rewrite <- (rollup_of_nothing (db_employees db)). f_equal.
  apply map_ext_in. intros eid Hin. unfold get_apps_usage. cbn [day_or_today].
  specialize (Hsel eid Hin).
  destruct (_day_bounds (date_of now)) as [s e]. cbn [fst snd] in Hsel.
  now rewrite Hsel.
Qed.

Lemma clear_today_all_empties_today_witness :
  exists db',
    clear_today_all scenario_db false 1200000000 = Ok db' /\
    get_company_apps_usage db' None 1200000000 = [].
Proof.
  assert (Hc : exists db', clear_today_all scenario_db false 1200000000 = Ok db')
    by (eexists; reflexivity).
  destruct Hc as [db' Hc]. exists db'. split; [exact Hc|].
  apply (proj2 (proj2 (@clear_today_all_empties_today scenario_db db' false
                         1200000000%Z Hc))).
Defined.

(** ** Daily statistics *)

Lemma accrue_monotone (st : SegState) (d : Q) :
  active_min st <= active_min (accrue st d) /\
  idle_min st <= idle_min (accrue st d).
Proof.
  pose proof (max0_ge0 d) as H.
  unfold accrue. destruct (PyStr.eqb (prev_state st) S_ACTIVE); simpl; split; lra.
Qed.

Lemma close_tail_monotone (st : SegState) (e : timestamp) :
  active_min st <= active_min (close_tail st e) /\
  idle_min st <= idle_min (close_tail st e).
Proof.
  unfold close_tail. destruct (e >? prev_ts st)%Z.
  - apply accrue_monotone.
  - split; lra.
Qed.

(** X8: on a day with events, the active and idle minutes of
    [get_daily_stats] cover the span from the first to the last event of
    the day and nothing after it: their sum is within a hundredth of a minute
    of that span, and neither exceeds what [_sum_active_idle] reports for
    the same day, which also credits the time after the last event. *)
Theorem daily_stats_span db emp (d : date) (now : timestamp) first rest :
  select_events db emp (fst (_day_bounds d)) (snd (_day_bounds d)) = first :: rest ->
  let stats := get_daily_stats db emp (Some d) now in
  let whole := _sum_active_idle db emp (fst (_day_bounds d)) (snd (_day_bounds d)) in
  Qabs (active_time_min stats + idle_time_min stats
        - delta_minutes (ev_timestamp first) (ev_timestamp (last rest first)))
    <= 1 # 100 /\
  active_time_min stats <= fst whole /\
  idle_time_min stats <= snd whole.
Proof.
  intros Hrows stats whole.
  destruct (get_daily_stats_loop_only db emp d now Hrows) as [Ha Hi].
  fold stats in Ha, Hi. rewrite Ha, Hi.
  set (st := segment_loop (first :: rest) first) in *.
  assert (Hsum : active_min st + idle_min st ==
                 delta_minutes (ev_timestamp first) (ev_timestamp (last rest first))).
  { pose proof (select_events_sorted db emp (fst (_day_bounds d)) (snd (_day_bounds d)))
      as Hs. rewrite Hrows in Hs.
    assert (Hts : prev_ts st = ev_timestamp (last (first :: rest) first)).
    { subst st. unfold segment_loop. rewrite segment_fold_prev_ts.
      apply last_map_timestamp. }
    assert (Hlast : last (first :: rest) first = last rest first)
      by (destruct rest; reflexivity).
    rewrite <- Hlast, <- Hts. subst st. unfold segment_loop.
    apply segment_fold_sum.
    - exact Hs.
    - inversion Hs as [|? ? _ Hr]; subst. constructor; [simpl; lia | exact Hr].
    - simpl. rewrite delta_minutes_diag. ring. }
  split; [|split].
  - rewrite <- Hsum.
    pose proof (round2_near (active_min st)) as H1.
    pose proof (round2_near (idle_min st)) as H2.
    apply Qabs_Qle_condition in H1, H2. apply Qabs_Qle_condition. lra.
  - subst whole. unfold _sum_active_idle. rewrite Hrows. fold st. cbn [fst].
    apply round2_mono, close_tail_monotone.
  - subst whole. unfold _sum_active_idle. rewrite Hrows. fold st. cbn [snd].
    apply round2_mono, close_tail_monotone.
Qed.

Lemma daily_stats_span_witness :
  let stats := get_daily_stats scenario_db (py "emp") (Some 0%Z) 7 in
  Qabs (active_time_min stats + idle_time_min stats - delta_minutes 0 900000000)
    <= 1 # 100.
Proof.
  intro stats.
  apply (proj1 (@daily_stats_span scenario_db (py "emp") 0%Z 7%Z _ _ eq_refl)).
Defined.

(** ** Top applications *)

Lemma firstn_In (A : Type) (n : nat) (l : list A) (x : A) :
  In x (firstn n l) -> In x l.
Proof.
  intro H. rewrite <- (firstn_skipn n l). apply in_or_app. now left.
Qed.

Lemma firstn_sorted (A : Type) (R : A -> A -> Prop) (n : nat) (l : list A) :
  StronglySorted R l -> StronglySorted R (firstn n l).
Proof.
  revert l. induction n as [|n IH]; intros l Hs; [constructor|].
  destruct l as [|x l]; [constructor|].
  inversion Hs as [|? ? Hs' Hx]; subst. cbn [firstn].
  constructor; [now apply IH|].
  rewrite Forall_forall in *. intros y Hy. apply Hx.
  eapply firstn_In. exact Hy.
Qed.

Lemma firstn_nodup (A : Type) (n : nat) (l : list A) :
  NoDup l -> NoDup (firstn n l).
Proof.
  revert l. induction n as [|n IH]; intros l Hl; [constructor|].
  destruct l as [|x l]; [constructor|].
  inversion Hl as [|? ? Hx Hl']; subst. cbn [firstn].
  constructor; [|now apply IH].
  intro Hin. apply Hx. eapply firstn_In. exact Hin.
Qed.

Lemma daily_fold_nodup (rows : list Event) :
  forall (st : SegState) (apps : Dict.dict Q),
    NoDup (Dict.keys apps) ->
    NoDup (Dict.keys (snd (fold_left daily_step rows (st, apps)))).
Proof.
  induction rows as [|r rows IH]; intros st apps H; [exact H|].
  cbn [fold_left]. unfold daily_step at 2.
  destruct (ev_active_window r) as [[|c w]|]; apply IH; auto.
  now apply dict_set_nodup.
Qed.

Lemma top_apps_shape db emp day now :
  (List.length (top_apps (get_daily_stats db emp day now)) <= 5)%nat /\
  StronglySorted (key_desc (@snd pystr Q)) (top_apps (get_daily_stats db emp day now)) /\
  NoDup (List.map fst (top_apps (get_daily_stats db emp day now))).
Proof.
  unfold get_daily_stats.
  destruct (_day_bounds (day_or_today day now)) as [s e].
  destruct (select_events db emp s e) as [|first rest] eqn:Hrows.
  - cbn [top_apps]. repeat split; [simpl; lia | constructor | constructor].
  - pose proof (daily_fold_nodup (first :: rest) (segment_init first) [] (NoDup_nil _))
      as Hnd.
    destruct (fold_left daily_step (first :: rest) (segment_init first, []))
      as [st apps] eqn:Hfold.
    replace apps with (snd (fold_left daily_step (first :: rest) (segment_init first, [])))
      by now rewrite Hfold.
    cbn [top_apps]. split; [|split].
    + rewrite length_firstn. lia.
    + apply firstn_sorted, sorted_desc_sorted.
    + rewrite <- firstn_map. apply firstn_nodup.
      eapply Permutation_NoDup; [|exact Hnd].
      apply Permutation_map. symmetry. apply sorted_desc_perm.
Qed.

(** X9: [get_top_apps] returns at most five windows, and at most [limit] of
    them when [limit] is not negative; no window title occurs twice, and the
    entries are in descending order of minutes. *)
Theorem top_apps_bounded db emp day (limit : Z) now :
  (List.length (get_top_apps db emp day limit now) <= 5)%nat /\
  ((0 <= limit)%Z ->
   (Z.of_nat (List.length (get_top_apps db emp day limit now)) <= limit)%Z) /\
  StronglySorted (key_desc (@snd pystr Q)) (get_top_apps db emp day limit now) /\
  NoDup (List.map fst (get_top_apps db emp day limit now)).
Proof.
  destruct (top_apps_shape db emp day now) as (Hlen & Hsorted & Hnd).
  unfold get_top_apps, slice_to.
  set (l := top_apps (get_daily_stats db emp day now)) in *.
  destruct (0 <=? limit)%Z eqn:E.
  - apply Z.leb_le in E. repeat split.
    + rewrite length_firstn. lia.
    + intros _. rewrite length_firstn. lia.
    + now apply firstn_sorted.
    + rewrite <- firstn_map. now apply firstn_nodup.
  - apply Z.leb_gt in E. repeat split.
    + rewrite length_firstn. lia.
    + intro H. lia.
    + now apply firstn_sorted.
    + rewrite <- firstn_map. now apply firstn_nodup.
Qed.

Lemma top_apps_bounded_witness :
  (Z.of_nat (List.length (get_top_apps scenario_db (py "emp") (Some 0%Z) 1 7)) <= 1)%Z.
Proof.
  apply (proj1 (proj2 (@top_apps_bounded scenario_db (py "emp") (Some 0%Z) 1%Z 7%Z))).
  lia.
Defined.

(** ** Sessions that never close *)

Lemma session_step_counts (ss : list Session) (cs : option timestamp) (r : Event) :
  let acc' := session_step (ss, cs) r in
  (List.length (fst acc') <=
     List.length ss + count_kind CLOSE_KINDS [r])%nat /\
  (List.length (fst acc') + open_count (snd acc') <=
     List.length ss + open_count cs + count_kind OPEN_KINDS [r])%nat.
Proof.
  unfold session_step, count_kind. cbn [List.filter].
  destruct cs as [c|].
  - destruct (in_tuple (ev_event_type r) CLOSE_KINDS); cbn [fst snd open_count];
      destruct (in_tuple (ev_event_type r) OPEN_KINDS);
      rewrite ?length_app; simpl; lia.
  - destruct (in_tuple (ev_event_type r) OPEN_KINDS);
      [destruct (in_tuple (ev_event_type r) CLOSE_KINDS)|];
      cbn [fst snd open_count]; rewrite ?length_app; simpl;
      try destruct (in_tuple (ev_event_type r) CLOSE_KINDS); simpl; lia.
Qed.

Lemma count_kind_cons (kinds : list pystr) (r : Event) (rows : list Event) :
  count_kind kinds (r :: rows) = (count_kind kinds [r] + count_kind kinds rows)%nat.
Proof.
  unfold count_kind. cbn [List.filter].
  destruct (in_tuple (ev_event_type r) kinds); reflexivity.
Qed.

Lemma session_loop_counts (rows : list Event) :
  forall (ss : list Session) (cs : option timestamp),
    let acc' := fold_left session_step rows (ss, cs) in
    (List.length (fst acc') <= List.length ss + count_kind CLOSE_KINDS rows)%nat /\
    (List.length (fst acc') + open_count (snd acc') <=
       List.length ss + open_count cs + count_kind OPEN_KINDS rows)%nat.
Proof.
  induction rows as [|r rows IH]; intros ss cs.
  - unfold count_kind. simpl. lia.
  - cbn [fold_left]. rewrite !(count_kind_cons _ r rows).
    pose proof (session_step_counts ss cs r) as [H1 H2].
    destruct (session_step (ss, cs) r) as [ss1 cs1]. cbn [fst snd] in *.
    specialize (IH ss1 cs1). cbn zeta in IH. destruct IH as [H3 H4].
    split; lia.
Qed.

(** X10: [get_continuous_sessions] returns no more sessions than the day
    has closing events ([idle], [idle_photo], [non_work_detected]) and no
    more than it has opening events ([active], [window_change]).  A session
    that is still open after the last event of the day is not returned: a
    day without a closing event has no session at all. *)
Theorem sessions_need_a_close db emp day now :
  let rows := select_events db emp
                (fst (_day_bounds (day_or_today day now)))
                (snd (_day_bounds (day_or_today day now))) in
  (List.length (get_continuous_sessions db emp day now)
     <= count_kind CLOSE_KINDS rows)%nat /\
  (List.length (get_continuous_sessions db emp day now)
     <= count_kind OPEN_KINDS rows)%nat /\
  (count_kind CLOSE_KINDS rows = 0%nat ->
   get_continuous_sessions db emp day now = []).
Proof.
  intro rows. subst rows. unfold get_continuous_sessions.
  destruct (_day_bounds (day_or_today day now)) as [s e]. cbn [fst snd].
  pose proof (session_loop_counts (select_events db emp s e) [] None) as [H1 H2].
  cbn zeta in H1, H2. cbn [List.length open_count] in H1, H2.
  split; [lia|]. split; [lia|].
  intro H0. rewrite H0 in H1.
  destruct (fst (fold_left session_step (select_events db emp s e) ([], None)));
    [reflexivity | simpl in H1; lia].
Qed.

Lemma sessions_need_a_close_witness :
  let db := mkDatabase [py "e1"]
              [mkEvent 1 (py "e1") 0 (py "active") None None;
               mkEvent 2 (py "e1") 600000000 (py "window_change") None None]
              [] [] true in
  get_continuous_sessions db (py "e1") (Some 0%Z) 7 = [].
Proof.
  intro db.
  apply (proj2 (proj2 (@sessions_need_a_close db (py "e1") (Some 0%Z) 7%Z))).
  reflexivity.
Defined.

(** ** The shape of a normalised key *)

Lemma split_go_chars (P : N -> Prop) (sep : pystr) :
  forall (s : pystr) (k : nat) (cur : pystr),
    Forall P s -> Forall P cur -> Forall (Forall P) (split_go sep s k cur).
Proof.
  induction s as [|c s IH]; intros k cur Hs Hcur; cbn [split_go].
  - constructor; [|constructor]. now apply Forall_rev.
  - inversion Hs; subst. destruct k as [|k]; [|now apply IH].
    destruct (startswith sep (c :: s)).
    + constructor; [now apply Forall_rev|]. apply IH; [assumption | constructor].
    + apply IH; [assumption | now constructor].
Qed.

Lemma last_part_chars (P : N -> Prop) (parts : list pystr) :
  Forall (Forall P) parts -> Forall P (last_part parts).
Proof.
  unfold last_part. induction 1 as [|p parts Hp Hparts IH]; [constructor|].
  destruct parts; [exact Hp | exact IH].
Qed.

Lemma split_last_chars (P : N -> Prop) (sep s : pystr) :
  Forall P s -> Forall P (last_part (split sep s)).
Proof.
  intro H. apply last_part_chars, split_go_chars; [exact H | constructor].
Qed.

Lemma lower_not_upper (s : pystr) : Forall (fun c => is_upper c = false) (lower s).
Proof.
  unfold lower. apply Forall_forall. intros c Hc.
  apply in_map_iff in Hc as (x & <- & _).
  unfold to_lower. destruct (is_upper x) eqn:E; [|exact E].
  unfold is_upper in *. apply andb_true_iff in E as [E1 E2].
  apply N.leb_le in E1, E2. apply andb_false_iff. right. apply N.leb_gt. lia.
Qed.

Lemma normal_form_not_upper (name : pystr) :
  Forall (fun c => is_upper c = false) (normal_form name).
Proof.
  unfold normal_form.
  apply split_last_chars, split_last_chars.
  match goal with
  | |- Forall _ (if ?b then _ else _) => destruct b
  end.
  - unfold drop_last. rewrite Forall_forall. intros c Hc.
    apply firstn_In in Hc. revert c Hc. apply Forall_forall, lower_not_upper.
  - apply lower_not_upper.
Qed.

Lemma split_ws_go_tokens (P : N -> Prop) :
  forall s cur : pystr,
    Forall P s -> Forall P cur ->
    Forall (fun c => isspace c = false) cur ->
    Forall (fun t => t <> [] /\ Forall (fun c => isspace c = false /\ P c) t)
           (split_ws_go s cur).
Proof.
  assert (Hrev : forall cur : pystr,
             cur <> [] -> Forall P cur -> Forall (fun c => isspace c = false) cur ->
             rev cur <> [] /\ Forall (fun c => isspace c = false /\ P c) (rev cur)).
  { intros cur Hne HP Hsp. split.
    - intro E. apply Hne. rewrite <- (rev_involutive cur), E. reflexivity.
    - apply Forall_rev. rewrite Forall_forall in *. intros c Hc. split; auto. }
  induction s as [|c s IH]; intros cur Hs HP Hsp; cbn [split_ws_go].
  - destruct cur as [|x cur]; [constructor|].
    constructor; [|constructor]. apply Hrev; [discriminate | exact HP | exact Hsp].
  - inversion Hs; subst. destruct (isspace c) eqn:E.
    + destruct cur as [|x cur].
      * apply IH; [assumption | constructor | constructor].
      * constructor.
        -- apply Hrev; [discriminate | exact HP | exact Hsp].
        -- apply IH; [assumption | constructor | constructor].
    + apply IH; [assumption | now constructor | now constructor].
Qed.

Lemma alias_values_shaped :
  Forall (fun kv => key_shape (snd kv)) ALIASES.
Proof.
  unfold ALIASES.
  repeat (constructor;
          [split; [discriminate | repeat (constructor; [split; reflexivity|])];
           constructor|]).
  constructor.
Qed.

Lemma alias_lookup_In (aliases : list (pystr * pystr)) (n v : pystr) :
  alias_lookup aliases n = Some v -> exists k, In (k, v) aliases.
Proof.
  induction aliases as [|[k0 v0] rest IH]; [discriminate|].
  cbn [alias_lookup]. destruct (contains k0 n).
  - intros [= <-]. exists k0. now left.
  - intro H. destruct (IH H) as [k Hk]. exists k. now right.
Qed.

(** The shape of what [_normalize] returns. *)
Lemma normalize_shape :
  (_normalize None = Ok (py "unknown") /\ _normalize (Some []) = Ok (py "unknown")) /\
  forall (name : option pystr) (k : pystr),
    _normalize name = Ok k -> key_shape k.
Proof.
  split; [split; reflexivity|].
  assert (Hunknown : key_shape (py "unknown")).
  { split; [discriminate|]. repeat (constructor; [split; reflexivity|]). constructor. }
  intros name k H. unfold _normalize in H.
  destruct name as [[|c name]|]; try (injection H as <-; exact Hunknown).
  destruct (alias_lookup ALIASES (normal_form (c :: name))) as [v|] eqn:Ea.
  - injection H as <-. apply alias_lookup_In in Ea as [k0 Hin].
    pose proof alias_values_shaped as Hall. rewrite Forall_forall in Hall.
    apply (Hall (k0, v) Hin).
  - destruct (split_ws (normal_form (c :: name))) as [|base rest] eqn:Es;
      [discriminate|]. injection H as <-.
    pose proof (@split_ws_go_tokens (fun c => is_upper c = false)
                  (normal_form (c :: name)) []
                  (normal_form_not_upper (c :: name))
                  (Forall_nil _) (Forall_nil _)) as Htok.
    fold (split_ws (normal_form (c :: name))) in Htok. rewrite Es in Htok.
    inversion Htok as [|? ? [Hne Hchars] _]; subst. split; [exact Hne|].
    exact Hchars.
Qed.

(** X13: whatever [_normalize] returns is usable as a key: it is never
    empty and contains neither whitespace nor an ASCII capital letter.
    A missing or empty name gives [unknown]. *)
Theorem normalize_key_shape :
  (_normalize None = Ok (py "unknown") /\ _normalize (Some []) = Ok (py "unknown")) /\
  forall (name : option pystr) (k : pystr),
    _normalize name = Ok k -> key_shape k.
Proof. exact (@normalize_shape). Qed.

Lemma normalize_key_shape_witness :
  key_shape (py "report").
Proof.
  apply (proj2 normalize_key_shape (Some (py " Report FINAL.docx")) (py "report")).
  reflexivity.
Defined.

(** ** The shape of a usage list *)

Lemma display_from_length (raw : option pystr) :
  (List.length (_display_from raw) <= 80)%nat.
Proof.
  unfold _display_from. destruct raw as [[|c raw]|]; try (vm_compute; lia).
  unfold take. rewrite length_firstn. lia.
Qed.

Lemma dict_set_values (P : Q -> Prop) (d : Dict.dict Q) (k : pystr) (v : Q) :
  Forall (fun kv => P (snd kv)) d -> P v ->
  Forall (fun kv => P (snd kv)) (Dict.set d k v).
Proof.
  intros Hd Hv. induction d as [|[k0 v0] d IH]; simpl.
  - now repeat constructor.
  - inversion Hd; subst. destruct (PyStr.eqb k k0); constructor; auto.
Qed.

Lemma get0_nonneg (d : Dict.dict Q) (k : pystr) :
  Forall (fun kv => 0 <= snd kv) d -> 0 <= get0 d k.
Proof.
  intro H. unfold get0. destruct (Dict.get d k) as [v|] eqn:G; [|lra].
  apply dict_get_In in G. rewrite Forall_forall in H. apply (H (k, v) G).
Qed.

Lemma credit_inv (st : UsageState) (delta : Q) :
  usage_inv st -> usage_inv (credit st delta).
Proof.
  intros (Hnd & Hkeys & Hkey & Hpos & Hnames & Hlen).
  unfold usage_inv, credit. cbn [minutes_by_key name_by_key u_prev_key].
  split; [now apply dict_set_nodup|]. split.
  { apply Forall_forall. intros k Hk. apply dict_keys_set in Hk as [->|Hk].
    - exact Hkey.
    - rewrite Forall_forall in Hkeys. now apply Hkeys. }
  split; [exact Hkey|]. split.
  { apply dict_set_values; [exact Hpos|].
    pose proof (get0_nonneg (u_prev_key st) Hpos). pose proof (max0_ge0 delta). lra. }
  split.
  - intros k Hk. unfold Dict.mem.
    destruct (Dict.get (name_by_key st) (u_prev_key st)) eqn:G.
    + apply dict_keys_set in Hk as [->|Hk]; [congruence | now apply Hnames].
    + destruct (pystr_eqb_eq (u_prev_key st) k) as [_ Heq].
      destruct (PyStr.eqb (u_prev_key st) k) eqn:E.
      * apply pystr_eqb_eq in E. subst k. rewrite dict_get_set_same. discriminate.
      * apply pystr_eqb_neq in E. rewrite dict_get_set_other by exact E.
        apply dict_keys_set in Hk as [->|Hk]; [congruence | now apply Hnames].
  - intros k l. unfold Dict.mem.
    destruct (Dict.get (name_by_key st) (u_prev_key st)) eqn:G; [apply Hlen|].
    destruct (PyStr.eqb (u_prev_key st) k) eqn:E.
    + apply pystr_eqb_eq in E. subst k. rewrite dict_get_set_same.
      intro Heq.
      assert (Hl : l = _display_from (Some (u_prev_raw st))) by congruence.
      rewrite Hl. apply display_from_length.
    + apply pystr_eqb_neq in E. rewrite dict_get_set_other by exact E. apply Hlen.
Qed.

Lemma usage_step_inv (st st' : UsageState) (r : Event) :
  usage_inv st -> usage_step st r = Ok st' -> usage_inv st'.
Proof.
  intros Hinv H. unfold usage_step in H.
  set (st1 := if PyStr.eqb (u_prev_state st) S_ACTIVE
              then credit st (delta_minutes (u_prev_ts st) (ev_timestamp r))
              else st) in *.
  assert (Hinv1 : usage_inv st1).
  { subst st1. destruct (PyStr.eqb (u_prev_state st) S_ACTIVE);
      [now apply credit_inv | exact Hinv]. }
  destruct Hinv1 as (Hnd & Hkeys & Hkey & Hpos & Hnames & Hlen).
  destruct (in_tuple (ev_event_type r) ACTIVE_KINDS).
  - destruct (_normalize _) as [k|] eqn:En; [|discriminate].
    cbn [bind] in H. injection H as <-.
    unfold usage_inv. cbn [minutes_by_key name_by_key u_prev_key].
    repeat split; auto; apply (proj2 normalize_shape _ _ En).
  - destruct (in_tuple (ev_event_type r) IDLE_KINDS); injection H as <-;
      unfold usage_inv; cbn [minutes_by_key name_by_key u_prev_key];
      repeat split; auto; apply Hkey.
Qed.

Lemma usage_loop_inv (rows : list Event) :
  forall st st', usage_inv st -> usage_loop rows st = Ok st' -> usage_inv st'.
Proof.
  induction rows as [|r rows IH]; intros st st' Hinv H.
  - injection H as <-. exact Hinv.
  - cbn [usage_loop] in H. destruct (usage_step st r) as [st1|] eqn:E; [|discriminate].
    cbn [bind] in H. eapply IH; [|exact H]. eapply usage_step_inv; eauto.
Qed.

(** The state from which [get_apps_usage] ranks its result. *)
Lemma apps_usage_final_state db emp (d : date) now out :
  get_apps_usage db emp (Some d) now = Ok out ->
  out = [] \/
  exists st, usage_inv st /\ out = ranked (minutes_by_key st) (name_by_key st).
Proof.
  unfold get_apps_usage. cbn [day_or_today].
  destruct (_day_bounds d) as [s e].
  destruct (select_events db emp s e) as [|first rest]; [intros [= <-]; now left|].
  destruct (_normalize _) as [k0|] eqn:En; [|discriminate]. cbn [bind].
  destruct (usage_loop _ _) as [st|] eqn:El; [|discriminate]. cbn [bind].
  intros [= <-]. right.
  assert (Hinv : usage_inv st).
  { eapply usage_loop_inv; [|exact El].
    unfold usage_inv. cbn [minutes_by_key name_by_key u_prev_key].
    split; [constructor|]. split; [constructor|].
    split; [apply (proj2 normalize_shape _ _ En)|].
    split; [constructor|].
    split; [intros k' [] | intros k' l' Hk; discriminate]. }
  eexists. split; [|reflexivity].
  destruct (PyStr.eqb (u_prev_state st) S_ACTIVE && (Z.min now e >? u_prev_ts st)%Z);
    [now apply credit_inv | exact Hinv].
Qed.

(** X11: a list returned by [get_apps_usage] has one entry per key, in
    descending order of minutes; every key has the shape of a normalised
    key (not empty, no whitespace, no ASCII capital), every label has at most
    80 code points, and no minutes are negative. *)
Theorem apps_usage_shape db emp (d : date) now out :
  get_apps_usage db emp (Some d) now = Ok out ->
  NoDup (List.map key out) /\
  StronglySorted minutes_desc out /\
  Forall (fun e => key_shape (key e) /\
                   (List.length (app e) <= 80)%nat /\
                   0 <= minutes e) out.
Proof.
  intro H. apply apps_usage_final_state in H as [->|(st & Hinv & ->)].
  - repeat split; constructor.
  - destruct Hinv as (Hnd & Hkeys & _ & Hpos & Hnames & Hlen).
    split; [now apply ranked_nodup|]. split; [apply ranked_sorted|].
    apply Forall_forall. intros e He.
    apply ranked_In in He as (k & v & Hin & Hv & ->). cbn [key app minutes].
    assert (Hk : In k (Dict.keys (minutes_by_key st)))
      by (change k with (fst (k, v)); now apply in_map).
    split; [|split].
    + rewrite Forall_forall in Hkeys. now apply Hkeys.
    + destruct (Dict.get (name_by_key st) k) as [l|] eqn:G.
      * now apply (Hlen k).
      * now apply Hnames in Hk.
    + apply Qle_trans with (round2 0); [vm_compute; discriminate|].
      apply round2_mono. lra.
Qed.

Lemma apps_usage_shape_witness :
  NoDup (List.map key
           [mkAppUsage (py "Word") (py "word") (1000 # 100);
            mkAppUsage (py "Chrome") (py "chrome") (500 # 100)]).
Proof.
  assert (H : get_apps_usage scenario_db (py "emp") (Some 0%Z) 1200000000 =
              Ok [mkAppUsage (py "Word") (py "word") (1000 # 100);
                  mkAppUsage (py "Chrome") (py "chrome") (500 # 100)])
    by (vm_compute; reflexivity).
  apply (proj1 (apps_usage_shape _ _ _ _ H)).
Defined.

(** ** Per-application minutes add up to the active minutes *)

Lemma sumQ_perm (l l' : list Q) : Permutation l l' -> sumQ l == sumQ l'.
Proof.
  induction 1; simpl; lra.
Qed.

Lemma dict_sum_set (d : Dict.dict Q) (k : pystr) (x : Q) :
  sumQ (List.map snd (Dict.set d k (get0 d k + x))) ==
  sumQ (List.map snd d) + x.
Proof.
  unfold get0. induction d as [|[k0 v0] d IH]; simpl.
  - lra.
  - destruct (PyStr.eqb k k0); simpl; [lra|]. rewrite IH. lra.
Qed.

Lemma credit_sum (st : UsageState) (delta : Q) :
  sumQ (List.map snd (minutes_by_key (credit st delta))) ==
  sumQ (List.map snd (minutes_by_key st)) + max0 delta.
Proof. unfold credit. cbn [minutes_by_key]. apply dict_sum_set. Qed.

Lemma usage_step_matches (u u' : UsageState) (s : SegState) (r : Event) :
  usage_matches u s -> usage_step u r = Ok u' ->
  usage_matches u' (segment_step s r).
Proof.
  intros (Hts & Hstate & Hsum) H. unfold usage_step in H.
  set (u1 := if PyStr.eqb (u_prev_state u) S_ACTIVE
             then credit u (delta_minutes (u_prev_ts u) (ev_timestamp r))
             else u) in *.
  set (s1 := accrue s (delta_minutes (prev_ts s) (ev_timestamp r))).
  assert (H1 : u_prev_state u1 = prev_state s1 /\
               sumQ (List.map snd (minutes_by_key u1)) == active_min s1).
  { unfold u1, s1, accrue. rewrite <- Hstate, <- Hts.
    destruct (PyStr.eqb (u_prev_state u) S_ACTIVE).
    - split.
      + unfold credit. cbn [u_prev_state prev_state]. reflexivity.
      + rewrite credit_sum. cbn [active_min]. now rewrite Hsum.
    - split; [reflexivity | exact Hsum]. }
  destruct H1 as [Hstate1 Hsum1].
  unfold usage_matches, segment_step. fold s1. unfold reclassify.
  cbn [prev_ts prev_state active_min].
  destruct (in_tuple (ev_event_type r) ACTIVE_KINDS).
  - destruct (_normalize _) as [k|]; [|discriminate]. cbn [bind] in H.
    injection H as <-. cbn [u_prev_ts u_prev_state minutes_by_key]. auto.
  - destruct (in_tuple (ev_event_type r) IDLE_KINDS); injection H as <-;
      cbn [u_prev_ts u_prev_state minutes_by_key]; auto.
Qed.

Lemma usage_loop_matches (rows : list Event) :
  forall u u' s,
    usage_matches u s -> usage_loop rows u = Ok u' ->
    usage_matches u' (fold_left segment_step rows s).
Proof.
  induction rows as [|r rows IH]; intros u u' s Hm H.
  - injection H as <-. exact Hm.
  - cbn [usage_loop] in H. destruct (usage_step u r) as [u1|] eqn:E; [|discriminate].
    cbn [bind] in H. cbn [fold_left]. eapply IH; [|exact H].
    eapply usage_step_matches; eauto.
Qed.

Lemma sum_round2_near (l : list Q) :
  Qabs (sumQ (List.map round2 l) - sumQ l) <= Z.of_nat (List.length l) # 200.
Proof.
  induction l as [|v l IH].
  - vm_compute. discriminate.
  - cbn [List.map sumQ fold_right List.length].
    pose proof (round2_near v) as Hv.
    apply Qabs_Qle_condition in Hv, IH. apply Qabs_Qle_condition.
    fold (sumQ (List.map round2 l)) (sumQ l).
    assert (Hn : Z.of_nat (S (List.length l)) # 200 ==
                 (Z.of_nat (List.length l) # 200) + (1 # 200)).
    { rewrite Nat2Z.inj_succ. unfold Qeq, Qplus. simpl. lia. }
    rewrite Hn. lra.
Qed.

Lemma sum_positive_part (l : list (pystr * Q)) :
  Forall (fun kv => 0 <= snd kv) l ->
  sumQ (List.map snd (List.filter (fun kv => negb (Qle_bool (snd kv) 0)) l)) ==
  sumQ (List.map snd l).
Proof.
  induction 1 as [|[k v] l Hv Hl IH]; [reflexivity|].
  cbn [List.filter List.map sumQ fold_right snd] in *.
  destruct (Qle_bool v 0) eqn:E; cbn [negb List.map sumQ fold_right snd].
  - apply Qle_bool_iff in E. fold (sumQ (List.map snd l)). rewrite IH.
    fold (sumQ (List.map snd l)). lra.
  - fold (sumQ (List.map snd l)) in *. rewrite IH. reflexivity.
Qed.

Lemma ranked_minutes (totals : Dict.dict Q) (names : Dict.dict pystr) :
  List.map minutes (ranked totals names) =
  List.map round2
    (List.map snd (List.filter (fun kv => negb (Qle_bool (snd kv) 0))
                     (sorted_desc snd totals))).
Proof. unfold ranked. rewrite !map_map. reflexivity. Qed.

Lemma ranked_sum (totals : Dict.dict Q) (names : Dict.dict pystr) :
  Forall (fun kv => 0 <= snd kv) totals ->
  Qabs (sumQ (List.map minutes (ranked totals names)) - sumQ (List.map snd totals))
    <= Z.of_nat (List.length (ranked totals names)) # 200.
Proof.
  intro Hpos. rewrite ranked_minutes.
  set (kept := List.filter (fun kv => negb (Qle_bool (snd kv) 0))
                 (sorted_desc snd totals)).
  assert (Hlen : List.length (ranked totals names) = List.length (List.map snd kept)).
  { unfold ranked. fold kept. now rewrite !length_map. }
  rewrite Hlen.
  assert (Hsum : sumQ (List.map snd kept) == sumQ (List.map snd totals)).
  { subst kept. rewrite sum_positive_part.
    - apply sumQ_perm, Permutation_map, sorted_desc_perm.
    - eapply Permutation_Forall; [symmetry; apply sorted_desc_perm | exact Hpos]. }
  rewrite <- Hsum. apply sum_round2_near.
Qed.

Lemma apps_usage_state db emp (d : date) now first rest out :
  select_events db emp (fst (_day_bounds d)) (snd (_day_bounds d)) = first :: rest ->
  get_apps_usage db emp (Some d) now = Ok out ->
  exists u,
    usage_inv u /\
    out = ranked (minutes_by_key u) (name_by_key u) /\
    sumQ (List.map snd (minutes_by_key u)) ==
    active_min (close_tail (segment_loop (first :: rest) first)
                  (Z.min now (snd (_day_bounds d)))).
Proof.
  unfold get_apps_usage. cbn [day_or_today].
  destruct (_day_bounds d) as [s e]. cbn [fst snd]. intros ->.
  destruct (_normalize _) as [k0|] eqn:En; [|discriminate]. cbn [bind].
  destruct (usage_loop _ _) as [u|] eqn:El; [|discriminate]. cbn [bind].
  intros [= <-].
  assert (Hinv : usage_inv u).
  { eapply usage_loop_inv; [|exact El].
    unfold usage_inv. cbn [minutes_by_key name_by_key u_prev_key].
    split; [constructor|]. split; [constructor|].
    split; [apply (proj2 normalize_shape _ _ En)|].
    split; [constructor|].
    split; [intros k' [] | intros k' l' Hk; discriminate]. }
  assert (Hm : usage_matches u (segment_loop (first :: rest) first)).
  { unfold segment_loop. eapply usage_loop_matches; [|exact El].
    unfold usage_matches, segment_init. cbn. repeat split; reflexivity. }
  destruct Hm as (Hts & Hstate & Hsum).
  eexists. split; [|split; [reflexivity|]].
  - destruct (PyStr.eqb (u_prev_state u) S_ACTIVE && (Z.min now e >? u_prev_ts u)%Z);
      [now apply credit_inv | exact Hinv].
  - unfold close_tail, accrue. rewrite <- Hts, <- Hstate.
    destruct (PyStr.eqb (u_prev_state u) S_ACTIVE);
      destruct (Z.min now e >? u_prev_ts u)%Z; cbn [andb active_min];
      rewrite ?credit_sum; rewrite Hsum; reflexivity.
Qed.

(** X12: the minutes that [get_apps_usage] lists add up to the active
    minutes of the same day.  Each listed value is rounded to a hundredth, so
    the sum is within half a hundredth per entry of the active minutes
    accumulated up to [min(now, day_end)]; for a day that is over it is
    within that margin, plus half a hundredth, of the active minutes that
    [_sum_active_idle] returns for the day. *)
Theorem usage_adds_up_to_active db emp (d : date) now first rest out :
  select_events db emp (fst (_day_bounds d)) (snd (_day_bounds d)) = first :: rest ->
  get_apps_usage db emp (Some d) now = Ok out ->
  Qabs (sumQ (List.map minutes out)
        - active_min (close_tail (segment_loop (first :: rest) first)
                        (Z.min now (snd (_day_bounds d)))))
    <= Z.of_nat (List.length out) # 200 /\
  ((snd (_day_bounds d) <= now)%Z ->
   Qabs (sumQ (List.map minutes out)
         - fst (_sum_active_idle db emp (fst (_day_bounds d)) (snd (_day_bounds d))))
     <= Z.of_nat (List.length out + 1) # 200).
Proof.
  intros Hrows Hout.
  destruct (apps_usage_state db emp d now Hrows Hout)
    as (u & (_ & _ & _ & Hpos & _) & -> & Hsum).
  pose proof (ranked_sum (name_by_key u) Hpos) as Hr.
  rewrite Hsum in Hr. split; [exact Hr|].
  intro Hover. rewrite Z.min_r in Hr by exact Hover.
  unfold _sum_active_idle. rewrite Hrows. cbn [fst].
  set (A := active_min (close_tail (segment_loop (first :: rest) first)
                          (snd (_day_bounds d)))) in *.
  pose proof (round2_near A) as Ha.
  apply Qabs_Qle_condition in Hr, Ha. apply Qabs_Qle_condition.
  assert (Hn : Z.of_nat (List.length (ranked (minutes_by_key u) (name_by_key u)) + 1) # 200
               == (Z.of_nat (List.length (ranked (minutes_by_key u) (name_by_key u))) # 200)
                  + (1 # 200)).
  { rewrite Nat.add_1_r, Nat2Z.inj_succ. unfold Qeq, Qplus. simpl. lia. }
  rewrite Hn. lra.
Qed.

Lemma usage_adds_up_to_active_witness :
  Qabs (sumQ [1000 # 100; 500 # 100]
        - fst (_sum_active_idle scenario_db (py "emp")
                 (fst (_day_bounds 0)) (snd (_day_bounds 0))))
    <= 3 # 200.
Proof.
  assert (Hrows : exists first rest,
             select_events scenario_db (py "emp")
               (fst (_day_bounds 0)) (snd (_day_bounds 0)) = first :: rest)
    by (do 2 eexists; vm_compute; reflexivity).
  destruct Hrows as (first & rest & Hrows).
  assert (H : get_apps_usage scenario_db (py "emp") (Some 0%Z) 90000000000 =
              Ok [mkAppUsage (py "Word") (py "word") (1000 # 100);
                  mkAppUsage (py "Chrome") (py "chrome") (500 # 100)])
    by (vm_compute; reflexivity).
  destruct (usage_adds_up_to_active _ _ _ _ Hrows H) as [_ Hday].
  apply Hday. vm_compute. discriminate.
Defined.

(** ** Widening a window to the left *)

Lemma filter_insert_by_ts (p : Event -> bool) (e : Event) (l : list Event) :
  StronglySorted ts_le l ->
  List.filter p (insert_by_ts e l) =
  if p e then insert_by_ts e (List.filter p l) else List.filter p l.
Proof.
  induction 1 as [|x l Hs IH Hx]; cbn [insert_by_ts List.filter].
  - destruct (p e); reflexivity.
  - destruct (ev_timestamp e <=? ev_timestamp x)%Z eqn:E.
    + cbn [List.filter]. destruct (p e) eqn:Ep; [|reflexivity].
      destruct (p x).
      * cbn [insert_by_ts]. now rewrite E.
      * apply Z.leb_le in E.
        assert (Hall : Forall (fun y => (ev_timestamp e <= ev_timestamp y)%Z)
                         (List.filter p l)).
        { apply Forall_forall. intros y Hy. apply filter_In in Hy as [Hy _].
          rewrite Forall_forall in Hx. specialize (Hx y Hy). unfold ts_le in Hx. lia. }
        destruct (List.filter p l) as [|y l']; [reflexivity|].
        cbn [insert_by_ts]. inversion Hall; subst.
        replace (ev_timestamp e <=? ev_timestamp y)%Z with true
          by (symmetry; now apply Z.leb_le).
        reflexivity.
    + cbn [List.filter]. rewrite IH. destruct (p x), (p e); cbn [insert_by_ts];
        rewrite ?E; reflexivity.
Qed.

Lemma filter_order_by_timestamp (p : Event -> bool) (l : list Event) :
  List.filter p (order_by_timestamp l) = order_by_timestamp (List.filter p l).
Proof.
  induction l as [|x l IH]; [reflexivity|].
  cbn [order_by_timestamp fold_right List.filter].
  fold (order_by_timestamp l).
  rewrite filter_insert_by_ts by apply order_by_timestamp_sorted.
  rewrite IH. destruct (p x); reflexivity.
Qed.

Lemma sorted_split_at (t : timestamp) (l : list Event) :
  StronglySorted ts_le l ->
  l = List.filter (fun x => (ev_timestamp x <? t)%Z) l ++
      List.filter (fun x => (t <=? ev_timestamp x)%Z) l.
Proof.
  induction 1 as [|x l Hs IH Hx]; [reflexivity|].
  cbn [List.filter].
  destruct (ev_timestamp x <? t)%Z eqn:E.
  - replace (t <=? ev_timestamp x)%Z with false
      by (symmetry; apply Z.leb_gt; now apply Z.ltb_lt).
    cbn [List.app]. now rewrite <- IH.
  - apply Z.ltb_ge in E.
    replace (t <=? ev_timestamp x)%Z with true by (symmetry; now apply Z.leb_le).
    assert (Hnone : List.filter (fun y => (ev_timestamp y <? t)%Z) l = []).
    { clear IH. induction l as [|y l IHl]; [reflexivity|].
      inversion Hx as [|? ? Hy Hl]; subst. inversion Hs; subst.
      cbn [List.filter]. unfold ts_le in Hy.
      replace (ev_timestamp y <? t)%Z with false
        by (symmetry; apply Z.ltb_ge; lia).
      now apply IHl. }
    rewrite Hnone in *. cbn [List.app] in *. now rewrite <- IH.
Qed.

(** The rows of a window are the rows before [s2] followed by the rows of
    the window that starts at [s2]. *)
Lemma select_events_split db emp (s1 s2 e : timestamp) :
  (s1 <= s2)%Z ->
  exists before,
    select_events db emp s1 e = before ++ select_events db emp s2 e.
Proof.
  intro Hle.
  exists (List.filter (fun x => (ev_timestamp x <? s2)%Z) (select_events db emp s1 e)).
  rewrite (sorted_split_at s2 (select_events_sorted db emp s1 e)) at 1.
  f_equal. unfold select_events.
  rewrite filter_order_by_timestamp, filter_twice. f_equal.
  apply filter_ext. intro x. unfold in_range.
  destruct (PyStr.eqb (ev_employee_id x) emp); cbn [andb]; [|reflexivity].
  destruct (s2 <=? ev_timestamp x)%Z eqn:E2.
  - apply Z.leb_le in E2.
    replace (s1 <=? ev_timestamp x)%Z with true by (symmetry; apply Z.leb_le; lia).
    cbn [andb]. now rewrite andb_true_r.
  - now rewrite andb_false_r.
Qed.

Lemma segment_step_nonneg (st : SegState) (r : Event) :
  0 <= active_min st -> 0 <= active_min (segment_step st r).
Proof.
  intro H. unfold segment_step. cbn [active_min].
  pose proof (accrue_monotone st (delta_minutes (prev_ts st) (ev_timestamp r))). lra.
Qed.

Lemma segment_fold_nonneg (rows : list Event) :
  forall st, 0 <= active_min st -> 0 <= active_min (fold_left segment_step rows st).
Proof.
  induction rows as [|r rows IH]; intros st H; [exact H|].
  cbn [fold_left]. apply IH. now apply segment_step_nonneg.
Qed.

Lemma idle_is_not_active : PyStr.eqb S_IDLE S_ACTIVE = false.
Proof. reflexivity. Qed.

Lemma segment_step_ahead (long short : SegState) (r : Event) :
  runs_ahead long short ->
  runs_ahead (segment_step long r) (segment_step short r).
Proof.
  intros (H0 & Hle & Hact). unfold runs_ahead, segment_step.
  cbn [active_min prev_state prev_ts].
  destruct (accrue_prev long (delta_minutes (prev_ts long) (ev_timestamp r)))
    as [_ ->].
  destruct (accrue_prev short (delta_minutes (prev_ts short) (ev_timestamp r)))
    as [_ ->].
  pose proof (accrue_monotone long (delta_minutes (prev_ts long) (ev_timestamp r)))
    as [Hl _].
  pose proof (accrue_monotone short (delta_minutes (prev_ts short) (ev_timestamp r)))
    as [Hs _].
  split; [lra|]. split.
  - unfold accrue in *.
    destruct (PyStr.eqb (prev_state short) S_ACTIVE) eqn:Es.
    + destruct (Hact eq_refl) as [El Ets]. rewrite El, Ets.
      cbn [active_min]. lra.
    + cbn [active_min] in *. lra.
  - unfold reclassify.
    destruct (in_tuple (ev_event_type r) ACTIVE_KINDS); [now split|].
    destruct (in_tuple (ev_event_type r) IDLE_KINDS).
    + rewrite idle_is_not_active. discriminate.
    + intro Es. destruct (Hact Es) as [El _]. now split.
Qed.

Lemma segment_fold_ahead (rows : list Event) :
  forall long short,
    runs_ahead long short ->
    runs_ahead (fold_left segment_step rows long) (fold_left segment_step rows short).
Proof.
  induction rows as [|r rows IH]; intros long short H; [exact H|].
  cbn [fold_left]. apply IH. now apply segment_step_ahead.
Qed.

Lemma close_tail_ahead (long short : SegState) (e : timestamp) :
  runs_ahead long short ->
  active_min (close_tail short e) <= active_min (close_tail long e).
Proof.
  intros (H0 & Hle & Hact).
  pose proof (close_tail_monotone long e) as [Hl _].
  unfold close_tail, accrue in *.
  destruct (PyStr.eqb (prev_state short) S_ACTIVE) eqn:Es.
  - destruct (Hact eq_refl) as [El Ets]. rewrite El, Ets in *.
    destruct (e >? prev_ts short)%Z; cbn [active_min] in *; lra.
  - destruct (e >? prev_ts short)%Z; cbn [active_min] in *; lra.
Qed.

Lemma sum_active_nonneg db emp s e : 0 <= fst (_sum_active_idle db emp s e).
Proof.
  unfold _sum_active_idle.
  destruct (select_events db emp s e) as [|first rest]; cbn [fst]; [lra|].
  apply Qle_trans with (round2 0); [vm_compute; discriminate|].
  apply round2_mono.
  pose proof (close_tail_monotone (segment_loop (first :: rest) first) e) as [H _].
  assert (0 <= active_min (segment_loop (first :: rest) first)).
  { unfold segment_loop. apply segment_fold_nonneg. simpl. lra. }
  lra.
Qed.

(** Widening the window to the left never lowers the active minutes. *)
Lemma active_grows_leftwards db emp (s1 s2 e : timestamp) :
  (s1 <= s2)%Z ->
  fst (_sum_active_idle db emp s2 e) <= fst (_sum_active_idle db emp s1 e).
Proof.
  intro Hle.
  destruct (select_events_split db emp e Hle) as [before Hsplit].
  destruct (select_events db emp s2 e) as [|f2 rest2] eqn:H2.
  - unfold _sum_active_idle at 1. rewrite H2. cbn [fst]. apply sum_active_nonneg.
  - unfold _sum_active_idle. rewrite H2, Hsplit.
    destruct (before ++ f2 :: rest2) as [|f1 rest1] eqn:H1.
    + destruct before; discriminate.
    + cbn [fst]. apply round2_mono. rewrite <- H1.
      unfold segment_loop. rewrite fold_left_app.
      apply close_tail_ahead, segment_fold_ahead.
      unfold runs_ahead. cbn [segment_init active_min prev_state].
      split; [lra|]. split.
      * apply segment_fold_nonneg. simpl. lra.
      * rewrite idle_is_not_active. discriminate.
Qed.

Lemma weekday_range (d : date) : (0 <= weekday d < 7)%Z.
Proof. unfold weekday. apply Z.mod_pos_bound. lia. Qed.

(** X14: the week of [get_employee_summary] starts on a Monday, at most six
    days before today, and ends where today ends; and the active minutes it
    reports for the week are never less than those it reports for today. *)
Theorem week_covers_today db emp (now : timestamp) :
  let today := date_of now in
  let monday := (today - weekday today)%Z in
  weekday monday = 0%Z /\
  (today - 6 <= monday <= today)%Z /\
  fst (_week_bounds now) = fst (_day_bounds monday) /\
  snd (_week_bounds now) = snd (_today_bounds now) /\
  fst (fst (summary_totals db emp now)) <= fst (snd (summary_totals db emp now)).
Proof.
  intros today monday.
  pose proof (weekday_range today) as Hw.
  split.
  { unfold monday, weekday in *.
    replace (today - (today + 3) mod 7 + 3)%Z with (today + 3 - (today + 3) mod 7)%Z
      by lia.
    rewrite Zminus_mod, Zmod_mod, Z.sub_diag. reflexivity. }
  split; [unfold monday; lia|]. split; [reflexivity|]. split; [reflexivity|].
  unfold summary_totals, _today_bounds, _week_bounds. cbn [fst snd].
  fold today. apply active_grows_leftwards.
  unfold MICROS_PER_DAY. lia.
Qed.

(** X15: starting the window of [_sum_active_idle] earlier, with the same
    end, never lowers the active minutes it returns. *)
Theorem wider_window_more_active db emp (s1 s2 e : timestamp) :
  (s1 <= s2)%Z ->
  fst (_sum_active_idle db emp s2 e) <= fst (_sum_active_idle db emp s1 e).
Proof. apply active_grows_leftwards. Qed.

Lemma wider_window_more_active_witness :
  fst (_sum_active_idle scenario_db (py "emp") 300000000 1200000000)
  <= fst (_sum_active_idle scenario_db (py "emp") 0 1200000000).
Proof.
  apply (@wider_window_more_active scenario_db (py "emp") 0 300000000 1200000000).
  lia.
Defined.

(** ** The random screenshot schedule *)

(** X16: [_schedule_next_shot] never hands [randint] an empty range, so it
    never raises; the delay it draws lies between its two bounds and is at
    least 30 seconds, and every delay between the bounds can be drawn.  With
    an interval and a jitter that went through the clamps of the settings
    API, the bounds are [max(30, base - jitter)] and [base + jitter], and
    the delay is at most 7 hours. *)
Theorem schedule_window (now : Q) (base jitter draw : Z) :
  (exists delay,
      _schedule_next_shot now base jitter draw = Some (now + inject_Z delay) /\
      (30 <= shot_low base jitter <= delay)%Z /\
      (delay <= shot_high base jitter)%Z) /\
  (forall delay,
      (shot_low base jitter <= delay <= shot_high base jitter)%Z ->
      exists draw',
        _schedule_next_shot now base jitter draw' = Some (now + inject_Z delay)) /\
  (forall b j,
      base = clamp_interval b -> jitter = clamp_jitter j ->
      shot_low base jitter = Z.max 30 (base - jitter) /\
      shot_high base jitter = (base + jitter)%Z /\
      (shot_high base jitter <= 25200)%Z).
Proof.
  assert (Hrange : (30 <= shot_low base jitter <= shot_high base jitter)%Z)
    by (unfold shot_high, shot_low; lia).
  split; [|split].
  - unfold _schedule_next_shot, randint.
    replace (shot_low base jitter <=? shot_high base jitter)%Z with true
      by (symmetry; apply Z.leb_le; lia).
    eexists. split; [reflexivity|].
    pose proof (Z.mod_pos_bound draw (shot_high base jitter - shot_low base jitter + 1)).
    lia.
  - intros delay Hd. exists (delay - shot_low base jitter)%Z.
    unfold _schedule_next_shot, randint.
    replace (shot_low base jitter <=? shot_high base jitter)%Z with true
      by (symmetry; apply Z.leb_le; lia).
    rewrite Z.mod_small by lia.
    replace (shot_low base jitter + (delay - shot_low base jitter))%Z with delay by lia.
    reflexivity.
  - intros b j -> ->. unfold shot_high, shot_low, clamp_interval, clamp_jitter. lia.
Qed.

Lemma schedule_window_witness :
  exists draw, _schedule_next_shot 1000 600 60 draw = Some (1000 + inject_Z 540).
Proof.
  destruct (schedule_window 1000 600 60 0) as (_ & Hall & _).
  apply Hall. vm_compute. split; discriminate.
Defined.

(** ** Post-processing of the company rollup *)

Lemma sorted_desc_fixed (A : Type) (f : A -> Q) (l : list A) :
  StronglySorted (key_desc f) l -> sorted_desc f l = l.
Proof.
  induction 1 as [|x l Hs IH Hx]; [reflexivity|].
  cbn [sorted_desc fold_right]. fold (sorted_desc f l). rewrite IH.
  destruct l as [|y l]; [reflexivity|]. cbn [insert_desc].
  inversion Hx as [|? ? Hy _]; subst. unfold key_desc in Hy.
  apply Qle_bool_iff in Hy. now rewrite Hy.
Qed.

Lemma dict_get_absent (V : Type) (d : Dict.dict V) (k : pystr) :
  ~ In k (Dict.keys d) -> Dict.get d k = None.
Proof.
  intro H. destruct (Dict.get d k) eqn:G; [|reflexivity].
  exfalso. apply H. apply dict_get_keys. congruence.
Qed.

Lemma dict_set_absent (V : Type) (d : Dict.dict V) (k : pystr) (v : V) :
  ~ In k (Dict.keys d) -> Dict.set d k v = d ++ [(k, v)].
Proof.
  induction d as [|[k0 v0] d IH]; intro H; [reflexivity|].
  cbn [Dict.set]. destruct (PyStr.eqb k k0) eqn:E.
  - apply pystr_eqb_eq in E. subst k0. exfalso. apply H. now left.
  - cbn [List.app]. f_equal. apply IH. intro Hin. apply H. now right.
Qed.

Lemma merge_distinct (l : list AppUsage) :
  forall merged : Dict.dict AppUsage,
    NoDup (List.map item_key l) ->
    (forall it, In it l -> ~ In (item_key it) (Dict.keys merged)) ->
    fold_left merge_item l merged =
    merged ++ List.map (fun it => (item_key it,
                                   mkAppUsage (item_label it) (item_key it) (minutes it)))
                       l.
Proof.
  induction l as [|it l IH]; intros merged Hnd Hfresh.
  - simpl. now rewrite app_nil_r.
  - cbn [fold_left List.map]. inversion Hnd as [|? ? Hit Hnd']; subst.
    unfold merge_item at 2.
    rewrite dict_get_absent by (apply Hfresh; now left).
    rewrite dict_set_absent by (apply Hfresh; now left).
    rewrite IH.
    + now rewrite <- app_assoc.
    + exact Hnd'.
    + intros it' Hin' Hk. unfold Dict.keys in Hk. rewrite map_app in Hk.
      apply in_app_or in Hk as [Hk|Hk].
      * apply (Hfresh it'); [now right | exact Hk].
      * cbn in Hk. destruct Hk as [Hk|[]]. apply Hit. rewrite Hk.
        now apply in_map.
Qed.

Lemma dashboard_fixed (l : list AppUsage) :
  NoDup (List.map key l) ->
  StronglySorted minutes_desc l ->
  (forall e, In e l -> key e <> [] /\ app e <> []) ->
  dashboard_company_apps l = l.
Proof.
  intros Hnd Hsorted Hne.
  assert (Hsame : forall e, In e l ->
            item_key e = key e /\
            mkAppUsage (item_label e) (item_key e) (minutes e) = e).
  { intros e He. destruct (Hne e He) as [Hk Ha].
    unfold item_label, item_key. destruct e as [a k m]. cbn [key app minutes] in *.
    destruct k; [contradiction|]. destruct a; [contradiction|]. now split. }
  unfold dashboard_company_apps.
  rewrite merge_distinct.
  - cbn [List.app]. rewrite map_map. cbn [snd].
    replace (List.map (fun it => mkAppUsage (item_label it) (item_key it) (minutes it)) l)
      with l.
    + now apply sorted_desc_fixed.
    + rewrite <- (map_id l) at 1. apply map_ext_in. intros e He.
      symmetry. apply (Hsame e He).
  - replace (List.map item_key l) with (List.map key l); [exact Hnd|].
    apply map_ext_in. intros e He. symmetry. apply (Hsame e He).
  - intros it _ [].
Qed.

Lemma title_go_length (s : pystr) :
  forall b, List.length (title_go s b) = List.length s.
Proof.
  induction s as [|c s IH]; intro b; [reflexivity|].
  cbn [title_go]. destruct (is_upper c || is_lower c); simpl; now rewrite IH.
Qed.

Lemma title_nonempty (s : pystr) : s <> [] -> title s <> [].
Proof.
  intros Hs E. apply Hs. apply length_zero_iff_nil.
  rewrite <- (title_go_length s false). fold (title s). now rewrite E.
Qed.

Lemma item_label_nonempty (it : AppUsage) : item_key it <> [] -> item_label it <> [].
Proof.
  intro H. unfold item_label. destruct (app it) eqn:E; [|discriminate].
  now apply title_nonempty.
Qed.

Lemma apps_usage_keys db emp (d : date) now out :
  get_apps_usage db emp (Some d) now = Ok out ->
  forall it, In it out -> key it <> [].
Proof.
  intros H it Hin. apply apps_usage_final_state in H as [->|(st & Hinv & ->)].
  - destruct Hin.
  - destruct Hinv as (_ & Hkeys & _).
    apply ranked_In in Hin as (k & v & Hkv & _ & ->). cbn [key].
    rewrite Forall_forall in Hkeys.
    assert (In k (Dict.keys (minutes_by_key st))) as Hk
      by (change k with (fst (k, v)); now apply in_map).
    apply (Hkeys k Hk).
Qed.

Lemma reported_In (reports : list (outcome (list AppUsage))) (it : AppUsage) :
  In it (reported reports) <-> exists items, In (Ok items) reports /\ In it items.
Proof.
  unfold reported. rewrite in_concat. split.
  - intros (l & Hl & Hit). apply in_map_iff in Hl as (r & <- & Hr).
    destruct r as [items|]; [|destruct Hit]. now exists items.
  - intros (items & Hr & Hit). exists items. split; [|exact Hit].
    apply in_map_iff. now exists (Ok items).
Qed.

Lemma company_entries_named db day now (e : AppUsage) :
  In e (get_company_apps_usage db day now) -> key e <> [] /\ app e <> [].
Proof.
  unfold get_company_apps_usage. intro He.
  apply rollup_entry in He as ((it & Hit & Hkey) & _ & He).
  set (items := reported _) in *.
  assert (Hkeys : forall it', In it' items -> key it' <> []).
  { intros it' Hin. subst items. apply reported_In in Hin as (out & Hout & Hin).
    apply in_map_iff in Hout as (eid & Hout & _).
    eapply apps_usage_keys; eauto. }
  assert (Hik : forall it', In it' items -> item_key it' <> []).
  { intros it' Hin. unfold item_key. specialize (Hkeys it' Hin).
    destruct (key it'); [contradiction | discriminate]. }
  split.
  - rewrite <- Hkey. now apply Hik.
  - rewrite He. cbn [app]. unfold first_label.
    destruct (List.find _ items) as [it'|] eqn:Ef.
    + apply find_some in Ef as [Hin' _]. apply item_label_nonempty. now apply Hik.
    + apply (find_none _ _ Ef) in Hit. rewrite Hkey, pystr_eqb_refl in Hit.
      discriminate.
Qed.

Lemma round2_fixed (x : Q) : round2 (round2 x) = round2 x.
Proof.
  unfold round2 at 1 3. f_equal.
  set (z := round_half_even (x * 100)).
  unfold round2. fold z.
  assert (Hz : (z # 100) * 100 == inject_Z z).
  { rewrite Qmake_Qdiv. field. }
  unfold round_half_even.
  rewrite (Qfloor_comp _ _ Hz), Qfloor_Z.
  assert (Hc : Qcompare ((z # 100) * 100 - inject_Z z) (1 # 2) = Lt).
  { apply Qlt_alt.
    setoid_replace ((z # 100) * 100 - inject_Z z) with 0 by (rewrite Hz; ring).
    reflexivity. }
  now rewrite Hc.
Qed.

(** X17: the post-processing of the company rollup changes nothing.  The
    dashboard's second merge by key and re-sort returns
    [get_company_apps_usage]'s list as it is, because its keys are already
    distinct, its order already descending, and every entry already has a
    key and a label; and the report's [round(minutes, 2)] leaves the minutes
    of the at most three entries it prints as they are. *)
Theorem rollup_postprocessing_is_identity db day now :
  dashboard_company_apps (get_company_apps_usage db day now) =
    get_company_apps_usage db day now /\
  report_top_apps (get_company_apps_usage db day now) =
    List.map (fun item => (app item, minutes item))
             (firstn 3 (get_company_apps_usage db day now)) /\
  (List.length (report_top_apps (get_company_apps_usage db day now)) <= 3)%nat.
Proof.
  split; [|split].
  - apply dashboard_fixed.
    + unfold get_company_apps_usage, rollup. rewrite rollup_reports.
      set (items := reported _).
      pose proof (rollup_fold_nodup items [] [] (NoDup_nil _)) as H.
      destruct (fold_left rollup_item items ([], [])) as [t nm] eqn:Hfold.
      apply ranked_nodup.
      replace t with (fst (fold_left rollup_item items ([], [])))
        by now rewrite Hfold.
      exact H.
    + unfold get_company_apps_usage, rollup.
      destruct (fold_left rollup_employee _ ([], [])). apply ranked_sorted.
    + apply company_entries_named.
  - unfold report_top_apps. apply map_ext_in. intros e He. f_equal.
    apply firstn_In in He. unfold get_company_apps_usage, rollup in He.
    destruct (fold_left rollup_employee _ ([], [])) as [t nm].
    apply ranked_In in He as (k & v & _ & _ & ->). cbn [minutes].
    apply round2_fixed.
  - unfold report_top_apps. rewrite length_map, length_firstn. lia.
Qed.

(** ** Logging an event *)

Lemma insert_by_ts_perm (e : Event) (l : list Event) :
  Permutation (insert_by_ts e l) (e :: l).
Proof.
  induction l as [|x l IH]; cbn [insert_by_ts]; [reflexivity|].
  destruct (ev_timestamp e <=? ev_timestamp x)%Z; [reflexivity|].
  rewrite IH. apply perm_swap.
Qed.

Lemma order_by_timestamp_perm (l : list Event) : Permutation (order_by_timestamp l) l.
Proof.
  induction l as [|x l IH]; [reflexivity|].
  cbn [order_by_timestamp fold_right]. fold (order_by_timestamp l).
  rewrite insert_by_ts_perm. now constructor.
Qed.

Lemma existsb_eqb_In (k : pystr) (l : list pystr) :
  existsb (PyStr.eqb k) l = true <-> In k l.
Proof.
  rewrite existsb_exists. split.
  - intros (x & Hx & E). apply pystr_eqb_eq in E. now subst.
  - intro H. exists k. split; [exact H | apply pystr_eqb_refl].
Qed.

(** X18: [log_event] for an employee who is not registered fails the
    foreign key; for a registered one, on a store that accepts writes, it
    returns the new row id and the event is then part of every window of
    that employee that contains its timestamp, in timestamp order, while
    every other window and every other employee's rows are as before.
    [upsert_employee] makes the employee registered, so that a following
    [log_event] cannot fail the key. *)
Theorem log_event_round_trip (db : Database) (rowid : Z) (emp kind : pystr)
    (window process : option pystr) (ts now : timestamp) :
  db_writable db = true ->
  (~ In emp (db_employees db) ->
   log_event db rowid emp kind window process (Some ts) now = IntegrityError) /\
  (In emp (db_employees db) ->
   exists db',
     log_event db rowid emp kind window process (Some ts) now = Inserted (rowid, db') /\
     db_employees db' = db_employees db /\
     (forall s e,
         (s <= ts <= e)%Z ->
         Permutation
           (mkEvent rowid emp ts kind window process :: select_events db emp s e)
           (select_events db' emp s e) /\
         StronglySorted ts_le (select_events db' emp s e)) /\
     (forall emp' s e,
         emp' <> emp \/ (ts < s)%Z \/ (e < ts)%Z ->
         select_events db' emp' s e = select_events db emp' s e)) /\
  (exists db1,
      upsert_employee db emp = Ok db1 /\
      In emp (db_employees db1) /\
      db_events db1 = db_events db /\
      exists db2,
        log_event db1 rowid emp kind window process (Some ts) now =
          Inserted (rowid, db2)).
Proof.
  intro Hw. split; [|split].
  - intro Hnot. unfold log_event. rewrite Hw. cbn [negb].
    destruct (existsb (PyStr.eqb emp) (db_employees db)) eqn:E; [|reflexivity].
    apply existsb_eqb_In in E. contradiction.
  - intro Hin. unfold log_event. rewrite Hw. cbn [negb].
    apply existsb_eqb_In in Hin. rewrite Hin. cbn [negb].
    eexists. split; [reflexivity|]. split; [reflexivity|]. split.
    + intros s e Hts. split; [|apply select_events_sorted].
      unfold select_events. cbn [db_events]. rewrite filter_app.
      cbn [List.filter].
      replace (in_range emp s e (mkEvent rowid emp ts kind window process)) with true.
      * rewrite !order_by_timestamp_perm. apply Permutation_cons_append.
      * symmetry. unfold in_range. cbn [ev_employee_id ev_timestamp].
        rewrite pystr_eqb_refl. cbn [andb].
        apply andb_true_iff. split; apply Z.leb_le; lia.
    + intros emp' s e Hother. unfold select_events. cbn [db_events].
      rewrite filter_app. cbn [List.filter].
      replace (in_range emp' s e (mkEvent rowid emp ts kind window process)) with false;
        [now rewrite app_nil_r|].
      symmetry. unfold in_range. cbn [ev_employee_id ev_timestamp].
      destruct Hother as [Hne|[Hlt|Hlt]].
      * replace (PyStr.eqb emp emp') with false; [reflexivity|].
        symmetry. apply pystr_eqb_neq. congruence.
      * replace (s <=? ts)%Z with false by (symmetry; apply Z.leb_gt; lia).
        now rewrite andb_false_r.
      * replace (ts <=? e)%Z with false by (symmetry; apply Z.leb_gt; lia).
        now rewrite andb_false_r.
  - unfold upsert_employee. rewrite Hw.
    destruct (existsb (PyStr.eqb emp) (db_employees db)) eqn:E.
    + exists db. split; [reflexivity|]. split; [now apply existsb_eqb_In|].
      split; [reflexivity|].
      unfold log_event. rewrite Hw, E. cbn [negb]. eexists. reflexivity.
    + eexists. split; [reflexivity|]. cbn [db_employees db_events].
      split; [apply in_or_app; right; now left|]. split; [reflexivity|].
      unfold log_event. cbn [db_writable db_employees negb].
      rewrite existsb_app. cbn [existsb]. rewrite pystr_eqb_refl, orb_true_r.
      cbn [negb]. eexists. reflexivity.
Qed.

Lemma log_event_round_trip_witness :
  log_event scenario_db 5 (py "ghost") (py "active") None None (Some 7%Z) 9
    = IntegrityError.
Proof.
  apply (proj1 (@log_event_round_trip scenario_db 5 (py "ghost") (py "active")
                  None None 7%Z 9%Z eq_refl)).
  intro H. cbn in H. destruct H as [H|[]]. discriminate H.
Defined.

(** ** The foreign keys under writes *)

Lemma delete_where_In (A : Type) (cond : A -> bool) (rows : list A) (r : A) :
  In r (delete_where cond rows) <-> In r rows /\ cond r = false.
Proof.
  unfold delete_where. rewrite filter_In.
  destruct (cond r); cbn [negb]; intuition congruence.
Qed.

Lemma clear_employee_timeline_referential db emp day media now db' :
  clear_employee_timeline db emp day media now = Ok db' ->
  referential db -> referential db'.
Proof.
  unfold clear_employee_timeline.
  destruct (_day_bounds (day_or_today day now)) as [s e].
  destruct (db_writable db); [|discriminate].
  intros [= <-] [He Hs]. split; cbn [db_events db_screenshots db_employees].
  - intros x Hx. apply delete_where_In in Hx. now apply He.
  - intros x Hx. destruct media; [apply delete_where_In in Hx|]; now apply Hs.
Qed.

Lemma clear_employee_timeline_employees db emp day media now db' :
  clear_employee_timeline db emp day media now = Ok db' ->
  db_employees db' = db_employees db.
Proof.
  unfold clear_employee_timeline.
  destruct (_day_bounds (day_or_today day now)) as [s e].
  destruct (db_writable db); [|discriminate].
  now intros [= <-].
Qed.

Lemma clear_each_referential ids : forall db d media now db',
  clear_each db ids d media now = Ok db' ->
  referential db -> referential db'.
Proof.
  induction ids as [|i ids IH]; intros db d media now db'; cbn [clear_each].
  - now intros [= <-].
  - destruct (clear_employee_timeline db i (Some d) media now) as [db1|x] eqn:E;
      cbn; [|discriminate].
    intros H R. eapply IH; [exact H|].
    eapply clear_employee_timeline_referential; eassumption.
Qed.

Lemma db_write_referential db db' :
  db_write db db' -> referential db -> referential db'.
Proof.
  intros W [He Hs]. destruct W as
    [emp db' H | rowid emp kind window process ts now db' H | events emp db' H
    | emp day media now db' H | media now db' H | emp db' H
    | rowid emp path ts now db' H].
  - unfold upsert_employee in H. destruct (db_writable db); [|discriminate].
    destruct (existsb (PyStr.eqb emp) (db_employees db));
      injection H as <-; [now split|].
    split; cbn [db_events db_screenshots db_employees]; intros x Hx;
      apply in_or_app; left; auto.
  - unfold log_event in H. destruct (db_writable db); [|discriminate].
    cbn [negb] in H.
    destruct (existsb (PyStr.eqb emp) (db_employees db)) eqn:E; [|discriminate].
    cbn [negb] in H. injection H as <-.
    split; cbn [db_events db_screenshots db_employees]; [|exact Hs].
    intros x Hx. apply in_app_or in Hx. destruct Hx as [Hx|[<-|[]]]; [auto|].
    cbn [ev_employee_id]. now apply existsb_eqb_In.
  - unfold log_movement_batch in H. destruct events as [|m events].
    + injection H as <-. now split.
    + destruct (db_writable db); [|discriminate]. injection H as <-. now split.
  - eapply clear_employee_timeline_referential; [exact H | now split].
  - unfold clear_today_all in H.
    eapply clear_each_referential; [exact H | now split].
  - unfold delete_employee in H. destruct emp as [|c emp].
    + injection H as <-. now split.
    + destruct (db_writable db); [|discriminate]. injection H as <-.
      split; cbn [db_events db_screenshots db_employees]; intros x Hx;
        apply delete_where_In in Hx; destruct Hx as [Hx Hne];
        apply delete_where_In; auto.
  - unfold insert_screenshot in H. destruct (db_writable db); [|discriminate].
    cbn [negb] in H.
    destruct (existsb (PyStr.eqb emp) (db_employees db)) eqn:E; [|discriminate].
    cbn [negb] in H. injection H as <-.
    split; cbn [db_events db_screenshots db_employees]; [exact He|].
    intros x Hx. apply in_app_or in Hx. destruct Hx as [Hx|[<-|[]]]; [auto|].
    cbn [sh_employee_id]. now apply existsb_eqb_In.
Qed.

(** X19: the foreign keys of the schema hold after any sequence of
    successful writes ([upsert_employee], [log_event], [insert_screenshot],
    [log_movement_batch], [clear_employee_timeline], [clear_today_all],
    [delete_employee]) on a
    store in which they held, in particular on one that started empty: no
    event or screenshot is left without its employee, and therefore every
    stored event is returned by the window query of a listed employee. *)
Theorem writes_keep_foreign_keys (db db' : Database) :
  referential db ->
  db_writes db db' ->
  referential db' /\
  forall e, In e (db_events db') ->
    exists emp, In emp (db_employees db') /\
      In e (select_events db' emp (ev_timestamp e) (ev_timestamp e)).
Proof.
  intros R W.
  assert (R' : referential db').
  { induction W as [|db db1 db2 W1 _ IH]; [exact R|].
    apply IH. eapply db_write_referential; eassumption. }
  split; [exact R'|].
  intros e He. exists (ev_employee_id e). split; [now apply R'|].
  apply select_events_In. split; [exact He|]. split; [reflexivity | lia].
Qed.

Lemma writes_keep_foreign_keys_witness :
  exists db',
    db_writes empty_db db' /\
    db_events db' = [mkEvent 1 (py "emp") 7%Z (py "active") None None] /\
    referential db'.
Proof.
  eexists. split; [|split].
  - eapply writes_more; [apply (@W_upsert_employee empty_db (py "emp")); reflexivity|].
    eapply writes_more;
      [apply (@W_log_event _ 1%Z (py "emp") (py "active") None None (Some 7%Z) 9%Z);
       reflexivity|].
    apply writes_none.
  - reflexivity.
  - refine (proj1 (@writes_keep_foreign_keys empty_db _ _ _)).
    + split; intros x [].
    + eapply writes_more; [apply (@W_upsert_employee empty_db (py "emp")); reflexivity|].
      eapply writes_more;
        [apply (@W_log_event _ 1%Z (py "emp") (py "active") None None (Some 7%Z) 9%Z);
         reflexivity|].
      apply writes_none.
Defined.

(** ** The ranking *)

Lemma dict_set_keys_same (V : Type) (d : Dict.dict V) (k : pystr) (v : V) :
  In k (Dict.keys d) -> Dict.keys (Dict.set d k v) = Dict.keys d.
Proof.
  induction d as [|[k0 v0] d IH]; cbn [Dict.keys List.map fst Dict.set]; [intros []|].
  intro H. destruct (PyStr.eqb k k0) eqn:E; [reflexivity|].
  cbn [List.map fst]. f_equal. apply IH.
  destruct H as [H|H]; [|exact H].
  apply pystr_eqb_neq in E. congruence.
Qed.

Lemma get0_set_same (d : Dict.dict Q) (k : pystr) (v : Q) :
  get0 (Dict.set d k v) k = v.
Proof. unfold get0. now rewrite dict_get_set_same. Qed.

Lemma get0_set_other (d : Dict.dict Q) (k k' : pystr) (v : Q) :
  k <> k' -> get0 (Dict.set d k v) k' = get0 d k'.
Proof. intro H. unfold get0. now rewrite dict_get_set_other. Qed.

Section AddToEach.
Variable f : pystr -> Q.

Let add_to (totals : Dict.dict Q) (emp : pystr) : Dict.dict Q :=
  Dict.set totals emp (get0 totals emp + f emp).

Lemma add_to_each_keys (es : list pystr) : forall t,
  (forall k, In k es -> In k (Dict.keys t)) ->
  Dict.keys (fold_left add_to es t) = Dict.keys t.
Proof.
  induction es as [|a es IH]; intros t H; [reflexivity|].
  cbn [fold_left]. rewrite IH.
  - apply dict_set_keys_same. apply H. now left.
  - intros k Hk. unfold add_to. rewrite dict_set_keys_same; apply H; auto with datatypes.
Qed.

Lemma add_to_each_other (es : list pystr) (k : pystr) : forall t,
  ~ In k es -> get0 (fold_left add_to es t) k = get0 t k.
Proof.
  induction es as [|a es IH]; intros t H; [reflexivity|].
  cbn [fold_left]. rewrite IH by (intro; apply H; now right).
  apply get0_set_other. intro; apply H; now left.
Qed.

Lemma add_to_each_get (es : list pystr) (k : pystr) : forall t,
  NoDup es -> In k es ->
  get0 (fold_left add_to es t) k == get0 t k + f k.
Proof.
  induction es as [|a es IH]; intros t Hnd Hin; [destruct Hin|].
  inversion Hnd as [|? ? Hnot Hnd']; subst. cbn [fold_left].
  destruct Hin as [->|Hin].
  - rewrite add_to_each_other by exact Hnot. unfold add_to.
    rewrite get0_set_same. reflexivity.
  - rewrite IH by assumption. unfold add_to.
    rewrite get0_set_other; [reflexivity|]. intros ->. contradiction.
Qed.
End AddToEach.

Lemma rank_days_keys db now (emps : list pystr) (days : list date) : forall t,
  (forall k, In k emps -> In k (Dict.keys t)) ->
  Dict.keys (fold_left (rank_day db now emps) days t) = Dict.keys t.
Proof.
  induction days as [|d days IH]; intros t H; [reflexivity|].
  cbn [fold_left].
  assert (Hk : Dict.keys (rank_day db now emps t d) = Dict.keys t)
    by (unfold rank_day; now apply add_to_each_keys).
  rewrite IH; [exact Hk|]. intros k Hin. rewrite Hk. now apply H.
Qed.

Lemma rank_days_get db now (emps : list pystr) (k : pystr) (days : list date) :
  NoDup emps -> In k emps ->
  forall t,
    get0 (fold_left (rank_day db now emps) days t) k ==
    get0 t k +
    sumQ (List.map (fun d => active_time_min (get_daily_stats db k (Some d) now)) days).
Proof.
  intros Hnd Hin. induction days as [|d days IH]; intro t; cbn [fold_left List.map sumQ fold_right].
  - ring.
  - rewrite IH. fold (sumQ (List.map
      (fun d => active_time_min (get_daily_stats db k (Some d) now)) days)).
    unfold rank_day at 1.
    rewrite (@add_to_each_get
               (fun emp => active_time_min (get_daily_stats db emp (Some d) now))
               emps k t Hnd Hin).
    ring.
Qed.

Lemma zero_totals (emps : list pystr) : forall acc : Dict.dict Q,
  NoDup (Dict.keys acc ++ emps) ->
  fold_left (fun totals emp => Dict.set totals emp 0) emps acc =
  acc ++ List.map (fun emp => (emp, 0)) emps.
Proof.
  induction emps as [|a es IH]; intros acc H; cbn [fold_left List.map].
  - now rewrite app_nil_r.
  - assert (Ha : ~ In a (Dict.keys acc)).
    { apply NoDup_remove_2 in H. intro Hin. apply H. apply in_or_app. now left. }
    rewrite dict_set_absent by exact Ha. rewrite IH.
    + now rewrite <- app_assoc.
    + unfold Dict.keys in *. rewrite map_app, <- app_assoc. exact H.
Qed.

Lemma zeros_sorted (emps : list pystr) :
  StronglySorted (key_desc (@snd pystr Q)) (List.map (fun emp => (emp, 0)) emps).
Proof.
  induction emps as [|a es IH]; cbn [List.map]; constructor; [exact IH|].
  apply Forall_forall. intros x Hx. apply in_map_iff in Hx.
  destruct Hx as (e & <- & _). unfold key_desc. cbn [snd]. lra.
Qed.

Lemma daily_active_nonneg db emp (d : date) now :
  0 <= active_time_min (get_daily_stats db emp (Some d) now).
Proof.
  destruct (select_events db emp (fst (_day_bounds d)) (snd (_day_bounds d)))
    as [|first rest] eqn:Hrows.
  - unfold get_daily_stats. cbn [day_or_today].
    destruct (_day_bounds d) as [s e]. cbn [fst snd] in Hrows. rewrite Hrows.
    cbn [active_time_min]. lra.
  - destruct (get_daily_stats_loop_only db emp d now Hrows) as [-> _].
    apply Qle_trans with (round2 0); [vm_compute; discriminate|].
    apply round2_mono. unfold segment_loop. apply segment_fold_nonneg. simpl. lra.
Qed.

Lemma sumQ_nonneg (l : list Q) : Forall (fun x => 0 <= x) l -> 0 <= sumQ l.
Proof.
  induction 1 as [|x l Hx _ IH]; cbn [sumQ fold_right]; [lra|].
  fold (sumQ l). lra.
Qed.

(** X20: [rank_employees] lists every employee exactly once, highest total
    first; an employee's total is the sum, over the days from [start_date]
    to [end_date], of the active minutes that [get_daily_stats] reports for
    that employee and day, and is never negative.  When [end_date] is before
    [start_date] no day is visited: everybody has total 0 and the list is in
    the order of the employees table. *)
Theorem rank_employees_totals (db : Database) (start_date end_date : date)
    (now : timestamp) :
  NoDup (db_employees db) ->
  let ranking := rank_employees db start_date end_date now in
  Permutation (List.map fst ranking) (db_employees db) /\
  StronglySorted (key_desc (@snd pystr Q)) ranking /\
  (forall emp total,
      In (emp, total) ranking ->
      total ==
        sumQ (List.map
                (fun d => active_time_min (get_daily_stats db emp (Some d) now))
                (days_between start_date end_date)) /\
      0 <= total) /\
  ((end_date < start_date)%Z ->
   ranking = List.map (fun emp => (emp, 0)) (db_employees db)).
Proof.
  intros Hnd ranking. subst ranking. unfold rank_employees.
  set (emps := db_employees db) in *.
  rewrite (@zero_totals emps []) by exact Hnd. cbn [List.app].
  set (t0 := List.map (fun emp : pystr => (emp, 0)) emps).
  assert (K0 : Dict.keys t0 = emps).
  { subst t0. unfold Dict.keys. rewrite map_map. cbn [fst]. apply map_id. }
  set (totals := fold_left (rank_day db now emps) (days_between start_date end_date) t0).
  assert (K : Dict.keys totals = emps).
  { subst totals. rewrite rank_days_keys; [exact K0|]. intros k Hk. now rewrite K0. }
  split; [|split; [|split]].
  - rewrite (Permutation_map fst (sorted_desc_perm snd totals)). fold (Dict.keys totals).
    now rewrite K.
  - apply sorted_desc_sorted.
  - intros emp total Hin.
    apply (Permutation_in _ (sorted_desc_perm snd totals)) in Hin.
    assert (Hemp : In emp emps).
    { rewrite <- K. unfold Dict.keys. apply in_map_iff. now exists (emp, total). }
    assert (G : get0 totals emp = total).
    { unfold get0. rewrite (@dict_In_get Q totals emp total); [reflexivity| |exact Hin].
      now rewrite K. }
    assert (G0 : get0 t0 emp = 0).
    { unfold get0. rewrite (@dict_In_get Q t0 emp 0); [reflexivity| |].
      - now rewrite K0.
      - subst t0. apply in_map_iff. now exists emp. }
    pose proof (@rank_days_get db now emps emp (days_between start_date end_date) Hnd Hemp t0) as S.
    fold totals in S. rewrite G, G0 in S.
    assert (S' : total ==
              sumQ (List.map
                      (fun d => active_time_min (get_daily_stats db emp (Some d) now))
                      (days_between start_date end_date)))
      by (rewrite S; ring).
    split; [exact S'|]. rewrite S'. apply sumQ_nonneg.
    apply Forall_forall. intros x Hx. apply in_map_iff in Hx.
    destruct Hx as (d & <- & _). apply daily_active_nonneg.
  - intro Hlt. subst totals. unfold days_between.
    replace (Z.to_nat (end_date - start_date + 1)) with 0%nat by lia.
    cbn [seq List.map fold_left]. apply sorted_desc_fixed. apply zeros_sorted.
Qed.

Lemma rank_employees_totals_witness :
  Permutation (List.map fst (rank_employees scenario_db 0%Z 1%Z 7)) [py "emp"].
Proof.
  apply (proj1 (@rank_employees_totals scenario_db 0%Z 1%Z 7%Z
                  ltac:(repeat constructor; intros []))).
Defined.

(** ** Screenshots *)

Lemma date_of_bounds (ts : timestamp) :
  (fst (_day_bounds (date_of ts)) <= ts <= snd (_day_bounds (date_of ts)))%Z.
Proof.
  unfold date_of, _day_bounds, MICROS_PER_DAY. cbn [fst snd].
  pose proof (Z.div_mod ts 86400000000 ltac:(discriminate)) as H.
  pose proof (Z.mod_pos_bound ts 86400000000 ltac:(reflexivity)) as B.
  lia.
Qed.

Lemma day_bounds_date (day : date) (ts : timestamp) :
  (fst (_day_bounds day) <= ts <= snd (_day_bounds day))%Z -> date_of ts = day.
Proof.
  unfold date_of, _day_bounds, MICROS_PER_DAY. cbn [fst snd]. intro H.
  symmetry. apply Z.div_unique with (r := (ts - day * 86400000000)%Z); lia.
Qed.

(** X21: [insert_screenshot] for an employee who is not registered fails
    the foreign key.  For a registered one, on a store that accepts writes,
    it returns the new row id; [get_daily_stats] then counts one more
    screenshot for that employee on the day of the timestamp, and reports
    exactly what it reported before for every other employee or day; the
    minutes, the top applications and the idle photo count do not change at
    all. *)
Theorem insert_screenshot_counted (db : Database) (rowid : Z) (emp path : pystr)
    (ts now : timestamp) :
  db_writable db = true ->
  (~ In emp (db_employees db) ->
   insert_screenshot db rowid emp path (Some ts) now = IntegrityError) /\
  (In emp (db_employees db) ->
   exists db',
     insert_screenshot db rowid emp path (Some ts) now = Inserted (rowid, db') /\
     (let before := get_daily_stats db emp (Some (date_of ts)) now in
      get_daily_stats db' emp (Some (date_of ts)) now =
        mkDailyStats (ds_date before) (active_time_min before) (idle_time_min before)
          (screenshot_count before + 1) (idle_photo_count before) (top_apps before)) /\
     (forall emp' day,
         emp' <> emp \/ day <> date_of ts ->
         get_daily_stats db' emp' (Some day) now =
         get_daily_stats db emp' (Some day) now)).
Proof.
  intro Hw. split.
  - intro Hnot. unfold insert_screenshot. rewrite Hw. cbn [negb].
    destruct (existsb (PyStr.eqb emp) (db_employees db)) eqn:E; [|reflexivity].
    apply existsb_eqb_In in E. contradiction.
  - intro Hin. unfold insert_screenshot. rewrite Hw. cbn [negb].
    apply existsb_eqb_In in Hin. rewrite Hin. cbn [negb].
    eexists. split; [reflexivity|].
    assert (Hday : forall w emp' day,
               let inside :=
                 PyStr.eqb emp emp' &&
                 (fst (_day_bounds day) <=? ts)%Z && (ts <=? snd (_day_bounds day))%Z in
               let before := get_daily_stats db emp' (Some day) now in
               get_daily_stats
                 (mkDatabase (db_employees db) (db_events db)
                    (db_screenshots db ++ [mkScreenshot emp ts path])
                    (db_movement_logs db) w) emp' (Some day) now =
               mkDailyStats (ds_date before) (active_time_min before)
                 (idle_time_min before)
                 (screenshot_count before + (if inside then 1 else 0))
                 (idle_photo_count before) (top_apps before)).
    { intros w emp' day inside before. subst before inside.
      unfold get_daily_stats, select_events. cbn [day_or_today db_events db_screenshots].
      destruct (_day_bounds day) as [s e]. cbn [fst snd].
      rewrite filter_app, length_app, Nat2Z.inj_add.
      cbn [List.filter sh_employee_id sh_timestamp].
      destruct (order_by_timestamp (List.filter (in_range emp' s e) (db_events db)))
        as [|first rest].
      - cbn [ds_date active_time_min idle_time_min screenshot_count idle_photo_count
               top_apps].
        destruct (PyStr.eqb emp emp' && (s <=? ts)%Z && (ts <=? e)%Z); reflexivity.
      - destruct (fold_left daily_step (first :: rest) (segment_init first, []))
          as [st apps].
        cbn [ds_date active_time_min idle_time_min screenshot_count idle_photo_count
               top_apps].
        destruct (PyStr.eqb emp emp' && (s <=? ts)%Z && (ts <=? e)%Z); reflexivity. }
    split.
    + cbn zeta. rewrite Hday. cbn zeta.
      replace (PyStr.eqb emp emp && (fst (_day_bounds (date_of ts)) <=? ts)%Z &&
               (ts <=? snd (_day_bounds (date_of ts)))%Z) with true; [reflexivity|].
      symmetry. rewrite pystr_eqb_refl. cbn [andb].
      pose proof (date_of_bounds ts) as [H1 H2].
      apply andb_true_iff. split; apply Z.leb_le; assumption.
    + intros emp' day Hother. rewrite Hday. cbn zeta.
      replace (PyStr.eqb emp emp' && (fst (_day_bounds day) <=? ts)%Z &&
               (ts <=? snd (_day_bounds day))%Z) with false.
      * rewrite Z.add_0_r. now destruct (get_daily_stats db emp' (Some day) now).
      * symmetry. destruct Hother as [Hne|Hne].
        -- replace (PyStr.eqb emp emp') with false; [reflexivity|].
           symmetry. apply pystr_eqb_neq. congruence.
        -- destruct (PyStr.eqb emp emp'); [cbn [andb]|reflexivity].
           destruct ((fst (_day_bounds day) <=? ts)%Z) eqn:E1; [cbn [andb]|reflexivity].
           apply Z.leb_gt. apply Z.leb_le in E1.
           destruct (Z.le_gt_cases ts (snd (_day_bounds day))) as [Hle|Hgt]; [|lia].
           exfalso. apply Hne. symmetry. apply day_bounds_date. split; assumption.
Qed.

Lemma insert_screenshot_counted_witness :
  insert_screenshot scenario_db 1 (py "ghost") (py "a.png") (Some 7%Z) 9 = IntegrityError.
Proof.
  apply (proj1 (@insert_screenshot_counted scenario_db 1 (py "ghost") (py "a.png")
                  7%Z 9%Z eq_refl)).
  intro H. cbn in H. destruct H as [H|[]]. discriminate H.
Defined.

(** ** Movement statistics *)

Lemma split_step_count (split : Dict.dict Z) (m : MovementRow) (k : pystr) :
  split_count (split_step split m) k =
  (split_count split k + if of_type k m then 1 else 0)%Z.
Proof.
  unfold split_step, split_count, of_type.
  destruct (PyStr.eqb (ml_event_type m) k) eqn:E.
  - apply pystr_eqb_eq in E. rewrite E, dict_get_set_same.
    destruct (Dict.get split k); lia.
  - apply pystr_eqb_neq in E. rewrite dict_get_set_other by exact E. lia.
Qed.

Lemma split_fold_count (rows : list MovementRow) (k : pystr) : forall split,
  split_count (fold_left split_step rows split) k =
  (split_count split k + Z.of_nat (List.length (List.filter (of_type k) rows)))%Z.
Proof.
  induction rows as [|m rows IH]; intro split; cbn [fold_left List.filter].
  - cbn [List.length]. lia.
  - rewrite IH, split_step_count.
    destruct (of_type k m); cbn [List.length]; lia.
Qed.

Lemma split_step_sum (split : Dict.dict Z) (m : MovementRow) :
  sumZ (List.map snd (split_step split m)) = (sumZ (List.map snd split) + 1)%Z.
Proof.
  unfold split_step. generalize (ml_event_type m) as k. intro k.
  induction split as [|[k0 v0] d IH]; cbn [Dict.get Dict.set].
  - cbn. lia.
  - destruct (PyStr.eqb k k0).
    + cbn [List.map snd sumZ fold_right]. lia.
    + cbn [List.map snd sumZ fold_right] in *. fold (sumZ (List.map snd d)).
      unfold sumZ in IH. rewrite IH. unfold sumZ. lia.
Qed.

Lemma split_fold_sum (rows : list MovementRow) : forall split,
  sumZ (List.map snd (fold_left split_step rows split)) =
  (sumZ (List.map snd split) + Z.of_nat (List.length rows))%Z.
Proof.
  induction rows as [|m rows IH]; intro split; cbn [fold_left List.length].
  - lia.
  - rewrite IH, split_step_sum. lia.
Qed.

Lemma split_step_positive (split : Dict.dict Z) (m : MovementRow) :
  Forall (fun kv => (1 <= snd kv)%Z) split ->
  Forall (fun kv => (1 <= snd kv)%Z) (split_step split m).
Proof.
  intro H. unfold split_step.
  assert (Hv : (1 <= match Dict.get split (ml_event_type m) with
                     | Some n => n + 1
                     | None => 1
                     end)%Z).
  { destruct (Dict.get split (ml_event_type m)) as [n|] eqn:G; [|lia].
    apply dict_get_In in G. rewrite Forall_forall in H.
    specialize (H _ G). cbn [snd] in H. lia. }
  revert Hv. generalize (match Dict.get split (ml_event_type m) with
                         | Some n => n + 1
                         | None => 1
                         end)%Z as v.
  generalize (ml_event_type m) as k. intros k v Hv.
  induction H as [|[k0 v0] d Hx Hd IH]; cbn [Dict.set].
  - now repeat constructor.
  - destruct (PyStr.eqb k k0); constructor; auto.
Qed.

Lemma split_fold_inv (rows : list MovementRow) : forall split,
  NoDup (Dict.keys split) /\ Forall (fun kv => (1 <= snd kv)%Z) split ->
  NoDup (Dict.keys (fold_left split_step rows split)) /\
  Forall (fun kv => (1 <= snd kv)%Z) (fold_left split_step rows split).
Proof.
  induction rows as [|m rows IH]; intros acc [Hn Hp]; [split; assumption|].
  cbn [fold_left]. apply IH. split.
  - unfold split_step. now apply dict_set_nodup.
  - now apply split_step_positive.
Qed.

Lemma filter_length_le (A : Type) (p : A -> bool) (l : list A) :
  (List.length (List.filter p l) <= List.length l)%nat.
Proof.
  induction l as [|x l IH]; cbn [List.filter List.length]; [lia|].
  destruct (p x); cbn [List.length]; lia.
Qed.

(** X22: the numbers of [get_movement_stats] agree with each other:
    [keys_pressed] and [clicks] are the entries of [activity_split] for
    [key_press] and [mouse_click] (0 when the key is missing), every type
    listed in [activity_split] is listed once with a count of at least one,
    and the counts add up to the number of movement rows of the day, of all
    employees together. *)
Theorem movement_split_consistent (db : Database) (day : option date)
    (now : timestamp) :
  let stats := get_movement_stats db day now in
  let d := day_or_today day now in
  keys_pressed stats = split_count (activity_split stats) (py "key_press") /\
  clicks stats = split_count (activity_split stats) (py "mouse_click") /\
  NoDup (Dict.keys (activity_split stats)) /\
  (forall kind n, In (kind, n) (activity_split stats) -> (1 <= n)%Z) /\
  sumZ (List.map snd (activity_split stats)) =
    Z.of_nat (List.length
                (List.filter (movement_between (fst (_day_bounds d)) (snd (_day_bounds d)))
                   (db_movement_logs db))) /\
  (0 <= keys_pressed stats)%Z /\ (0 <= clicks stats)%Z /\
  (keys_pressed stats + clicks stats <= sumZ (List.map snd (activity_split stats)))%Z.
Proof.
  intros stats d. subst stats. unfold get_movement_stats. fold d.
  destruct (_day_bounds d) as [s e]. cbn [fst snd].
  cbn [keys_pressed clicks activity_split].
  set (rows := List.filter (movement_between s e) (db_movement_logs db)).
  change (count_by_type rows) with (fold_left split_step rows []).
  destruct (split_fold_inv rows (split := [])) as [Hn Hp];
    [split; constructor|].
  pose proof (split_fold_count rows (py "key_press") []) as Hk.
  pose proof (split_fold_count rows (py "mouse_click") []) as Hc.
  pose proof (split_fold_sum rows []) as Hs.
  cbn [split_count Dict.get List.map sumZ fold_right] in Hk, Hc, Hs.
  fold (sumZ (List.map snd (fold_left split_step rows []))) in Hs.
  rewrite Hk, Hc, Hs.
  split; [lia|]. split; [lia|]. split; [exact Hn|]. split.
  { intros kind n Hin. rewrite Forall_forall in Hp. exact (Hp _ Hin). }
  split; [lia|]. split; [lia|]. split; [lia|].
  rewrite !Z.add_0_l, <- Nat2Z.inj_add. apply inj_le.
  assert (Hdis : forall l : list MovementRow,
             (List.length (List.filter (of_type (py "key_press")) l) +
              List.length (List.filter (of_type (py "mouse_click")) l) <=
              List.length l)%nat).
  { induction l as [|m l IH]; cbn [List.filter List.length]; [lia|].
    destruct (of_type (py "key_press") m) eqn:E1;
      destruct (of_type (py "mouse_click") m) eqn:E2; cbn [List.length]; try lia.
    unfold of_type in E1, E2. apply pystr_eqb_eq in E1. rewrite E1 in E2.
    discriminate E2. }
  apply Hdis.
Qed.

Lemma movement_rows_buffered (kind : pystr) (day : date) (eid : option pystr)
    (events : list Movement) :
  List.filter (of_type kind)
    (List.filter (movement_between (fst (_day_bounds day)) (snd (_day_bounds day)))
       (List.map (movement_row eid) events)) =
  List.map (movement_row eid) (buffered kind day events).
Proof.
  unfold buffered. induction events as [|m events IH]; [reflexivity|].
  cbn [List.map List.filter].
  assert (Hb : movement_between (fst (_day_bounds day)) (snd (_day_bounds day))
                 (movement_row eid m) =
               (fst (_day_bounds day) <=? mv_timestamp m)%Z &&
               (mv_timestamp m <=? snd (_day_bounds day))%Z) by reflexivity.
  assert (Ht : of_type kind (movement_row eid m) = PyStr.eqb (mv_event_type m) kind)
    by reflexivity.
  rewrite Hb.
  destruct ((fst (_day_bounds day) <=? mv_timestamp m)%Z &&
            (mv_timestamp m <=? snd (_day_bounds day))%Z); cbn [andb List.filter].
  - rewrite Ht.
    destruct (PyStr.eqb (mv_event_type m) kind); cbn [List.map]; [f_equal|]; exact IH.
  - exact IH.
Qed.

Lemma sumQ_app (a b : list Q) : sumQ (a ++ b) == sumQ a + sumQ b.
Proof.
  unfold sumQ. induction a as [|x a IH]; simpl; lra.
Qed.

(** X23: what the detector still holds shows up in the statistics once it
    is stopped.  On a store that accepts writes [stop] succeeds, and for any
    day the key presses and clicks of [get_movement_stats] grow by the
    number of buffered records of that type and day, while the mouse
    distance is, up to the rounding of the two results, the old distance
    plus the buffered distances of that day. *)
Theorem stop_updates_movement_stats (self : ActivityDetector) (db : Database)
    (day : date) (now : timestamp) :
  db_writable db = true ->
  exists db',
    stop (self, db) = (Ok tt, (mkDetector [] (employee_id self), db')) /\
    let before := get_movement_stats db (Some day) now in
    let after := get_movement_stats db' (Some day) now in
    let pending := movement_events self in
    keys_pressed after =
      (keys_pressed before +
       Z.of_nat (List.length (buffered (py "key_press") day pending)))%Z /\
    clicks after =
      (clicks before +
       Z.of_nat (List.length (buffered (py "mouse_click") day pending)))%Z /\
    Qabs (total_distance_px after -
          (total_distance_px before +
           sumQ (List.map mv_distance (buffered (py "mouse_move") day pending))))
      <= 1 # 100.
Proof.
  intro Hw.
  destruct (flush_batch_writes self db Hw) as (db' & Hflush & Hrows & _).
  exists db'. split; [exact Hflush|].
  intros before after pending. subst before after.
  unfold get_movement_stats. cbn [day_or_today].
  pose proof (movement_rows_buffered (py "key_press") day (employee_id self) pending) as Bk.
  pose proof (movement_rows_buffered (py "mouse_click") day (employee_id self) pending) as Bc.
  pose proof (movement_rows_buffered (py "mouse_move") day (employee_id self) pending) as Bm.
  destruct (_day_bounds day) as [s e]. cbn [fst snd] in Bk, Bc, Bm.
  cbn [keys_pressed clicks total_distance_px].
  rewrite Hrows, !filter_app. fold pending. rewrite Bk, Bc, Bm.
  rewrite !length_app, !length_map, !Nat2Z.inj_add.
  split; [reflexivity|]. split; [reflexivity|].
  rewrite map_app, map_map. cbn [movement_row ml_distance_px].
  set (old := sumQ (List.map ml_distance_px
                      (List.filter (of_type (py "mouse_move"))
                         (List.filter (movement_between s e) (db_movement_logs db))))).
  set (new := List.map (fun x : Movement => mv_distance x)
                (buffered (py "mouse_move") day pending)).
  change (List.map mv_distance (buffered (py "mouse_move") day pending)) with new.
  pose proof (round2_near (sumQ (List.map ml_distance_px
                      (List.filter (of_type (py "mouse_move"))
                         (List.filter (movement_between s e) (db_movement_logs db)))
                                ++ new))) as H1.
  pose proof (round2_near old) as H2.
  rewrite sumQ_app in H1 at 2. fold old in H1.
  apply Qabs_Qle_condition in H1, H2. apply Qabs_Qle_condition.
  split; lra.
Qed.

Lemma stop_updates_movement_stats_witness :
  exists db',
    stop (mkDetector [mkMovement 5 (py "key_press") (py "a") 0] None, scenario_db) =
      (Ok tt, (mkDetector [] None, db')) /\
    keys_pressed (get_movement_stats db' (Some 0%Z) 7) = 1%Z.
Proof.
  destruct (@stop_updates_movement_stats
              (mkDetector [mkMovement 5 (py "key_press") (py "a") 0] None)
              scenario_db 0%Z 7%Z eq_refl) as (db' & Hs & Hk & _).
  exists db'. split; [exact Hs|]. etransitivity; [exact Hk | reflexivity].
Defined.

(** ** The activity chart and today's ratio *)

Lemma labels_ascending (e : date) (n : nat) :
  List.map (fun i => (e - Z.of_nat i)%Z) (rev (seq 0 n)) =
  List.map (fun i => (e - Z.of_nat n + 1 + Z.of_nat i)%Z) (seq 0 n).
Proof.
  induction n as [|n IH]; [reflexivity|].
  rewrite seq_S at 1. cbn [plus]. rewrite rev_app_distr. cbn [rev List.app List.map].
  rewrite IH. cbn [seq List.map]. f_equal; [lia|].
  rewrite <- seq_shift, map_map. apply map_ext. intro i. lia.
Qed.

Lemma filter_and_length (A : Type) (p q : A -> bool) (l : list A) :
  (List.length (List.filter (fun x => p x && q x) l) <=
   List.length (List.filter q l))%nat.
Proof.
  induction l as [|x l IH]; cbn [List.filter List.length]; [lia|].
  destruct (p x), (q x); cbn [andb List.length]; lia.
Qed.

(** X24: the chart of [get_activity_data] has one label and one number for
    each of the [days] consecutive days that end today, oldest first (none
    when [days] is not positive); the number is the count of [active]
    events of that day.  The [active] part of [get_today_ratio] is the last
    number of the chart, and its two parts are never negative and add up to
    the number of today's events: the [max] in the source never clips. *)
Theorem chart_and_ratio (db : Database) (days : Z) (now : timestamp) :
  let chart := get_activity_data db days now in
  let today := date_of now in
  labels chart = days_between (today - days + 1) today /\
  data chart =
    List.map (fun d => count_active_between db (fst (_day_bounds d)) (snd (_day_bounds d)))
      (labels chart) /\
  List.length (labels chart) = Z.to_nat days /\
  List.length (data chart) = Z.to_nat days /\
  exists active idle,
    get_today_ratio db now = [active; idle] /\
    (0 <= active)%Z /\ (0 <= idle)%Z /\
    (active + idle)%Z =
      count_between db (fst (_day_bounds today)) (snd (_day_bounds today)) /\
    ((0 < days)%Z -> last (labels chart) 0%Z = today /\ last (data chart) 0%Z = active).
Proof.
  intros chart today. subst chart. unfold get_activity_data. fold today.
  cbn [labels data].
  split; [|split; [|split; [|split]]].
  - rewrite labels_ascending. unfold days_between.
    destruct (Z.le_gt_cases days 0) as [Hle|Hgt].
    + replace (Z.to_nat days) with 0%nat by lia.
      replace (Z.to_nat (today - (today - days + 1) + 1)) with 0%nat by lia.
      reflexivity.
    + replace (Z.to_nat (today - (today - days + 1) + 1)) with (Z.to_nat days) by lia.
      apply map_ext. intro i. lia.
  - apply map_ext. intro d. now destruct (_day_bounds d).
  - now rewrite length_map, length_rev, length_seq.
  - now rewrite !length_map, length_rev, length_seq.
  - unfold get_today_ratio. fold today.
    destruct (_day_bounds today) as [s e] eqn:Hb. cbn [fst snd].
    eexists. eexists. split; [reflexivity|].
    assert (Hle : (count_active_between db s e <= count_between db s e)%Z).
    { unfold count_active_between, count_between. apply inj_le.
      rewrite (filter_ext
                 (fun e0 => PyStr.eqb (ev_event_type e0) (py "active") &&
                            (s <=? ev_timestamp e0)%Z && (ev_timestamp e0 <=? e)%Z)
                 (fun e0 => PyStr.eqb (ev_event_type e0) (py "active") &&
                            ((s <=? ev_timestamp e0)%Z && (ev_timestamp e0 <=? e)%Z)))
        by (intro; now rewrite andb_assoc).
      apply filter_and_length. }
    assert (H0 : (0 <= count_active_between db s e)%Z)
      by (unfold count_active_between; lia).
    split; [exact H0|]. split; [lia|]. split; [lia|].
    intro Hpos.
    assert (Hn : exists n, Z.to_nat days = S n) by (exists (Z.to_nat days - 1)%nat; lia).
    destruct Hn as [n ->].
    cbn [seq]. rewrite <- seq_shift. cbn [rev]. rewrite !map_app. cbn [List.map].
    rewrite !last_last. cbn [Z.of_nat]. rewrite Z.sub_0_r, Hb. split; reflexivity.
Qed.

(** ** Current status and the company summary *)

Lemma latest_fold_none (emp : pystr) (rows : list Event) : forall best,
  fold_left (latest_step emp) rows best = None <->
  best = None /\ existsb (fun e => PyStr.eqb (ev_employee_id e) emp) rows = false.
Proof.
  induction rows as [|r rows IH]; intro best; cbn [fold_left existsb].
  - intuition.
  - rewrite IH. unfold latest_step.
    destruct (PyStr.eqb (ev_employee_id r) emp); cbn [orb].
    + split; [|intros [_ H]; discriminate H].
      intros [H _]. destruct best as [b|]; [|discriminate H].
      destruct (ev_timestamp b <=? ev_timestamp r)%Z; discriminate H.
    + reflexivity.
Qed.

Lemma latest_fold_some (emp : pystr) (rows : list Event) : forall best b,
  fold_left (latest_step emp) rows best = Some b ->
  (best = Some b \/ (In b rows /\ ev_employee_id b = emp)).
Proof.
  induction rows as [|r rows IH]; intros best b; cbn [fold_left].
  - intro H. now left.
  - intro H. apply IH in H. destruct H as [H|[H1 H2]].
    + unfold latest_step in H.
      destruct (PyStr.eqb (ev_employee_id r) emp) eqn:E; [|now left].
      apply pystr_eqb_eq in E.
      destruct best as [b0|].
      * destruct (ev_timestamp b0 <=? ev_timestamp r)%Z.
        -- injection H as <-. right. split; [now left | exact E].
        -- now left.
      * injection H as <-. right. split; [now left | exact E].
    + right. split; [now right | exact H2].
Qed.

Lemma last_event_none (db : Database) (emp : pystr) :
  last_event db emp = None <-> has_events db emp = false.
Proof.
  unfold last_event, has_events. rewrite latest_fold_none. intuition.
Qed.

Lemma status_cases (db : Database) (emp : pystr) :
  (has_events db emp = false /\
   status_entry db emp = py "unknown" /\ summary_status db emp = py "idle") \/
  (has_events db emp = true /\
   status_entry db emp = summary_status db emp /\
   (status_entry db emp = py "active" \/ status_entry db emp = py "idle")).
Proof.
  unfold status_entry, summary_status.
  destruct (last_event db emp) as [last|] eqn:L.
  - right. split.
    + destruct (has_events db emp) eqn:H; [reflexivity|].
      apply last_event_none in H. congruence.
    + split; [reflexivity|].
      destruct (in_tuple (ev_event_type last)
                  [py "active"; py "window_change"; py "non_work_detected"]);
        [now left | now right].
  - left. split; [now apply last_event_none|]. now split.
Qed.

Lemma totals_fold (db : Database) (now : timestamp) (emps : list pystr) :
  forall a i,
    fst (fold_left
           (fun '(totals_active, totals_idle) eid =>
              let '(active_today, idle_today) := fst (summary_totals db eid now) in
              (totals_active + active_today, totals_idle + idle_today))
           emps (a, i)) ==
    a + sumQ (List.map (fun eid => fst (fst (summary_totals db eid now))) emps).
Proof.
  induction emps as [|e emps IH]; intros a i; cbn [fold_left List.map sumQ fold_right fst].
  - ring.
  - fold (sumQ (List.map (fun eid => fst (fst (summary_totals db eid now))) emps)).
    destruct (fst (summary_totals db e now)) as [at_ it_] eqn:E.
    rewrite IH. cbn [fst]. ring.
Qed.

Lemma round2_eq (x y : Q) : x == y -> round2 x == round2 y.
Proof.
  intro H. apply Qle_antisym; apply round2_mono; rewrite H; apply Qle_refl.
Qed.

Lemma today_active_nonneg (db : Database) (emp : pystr) (now : timestamp) :
  0 <= fst (fst (summary_totals db emp now)).
Proof.
  unfold summary_totals.
  destruct (_today_bounds now) as [s e]. destruct (_week_bounds now) as [ws we].
  cbn [fst]. apply sum_active_nonneg.
Qed.

(** X25: the counts of [get_global_summary] add up.  Every employee is
    counted as active now, as idle now, or has no event at all and is
    counted as neither, so the three numbers sum to [total_employees].
    [active_now] is the number of employees whose [get_employee_summary]
    says [active]; [idle_now] falls short of the number of summaries saying
    [idle] by the employees without events, whom the summary calls [idle].
    [total_active_today_min] is the rounded sum of the employees' active
    minutes of today and is never negative. *)
Theorem global_summary_adds_up (db : Database) (now : timestamp) :
  let g := get_global_summary db now in
  let emps := db_employees db in
  let silent := how_many (fun emp => negb (has_events db emp)) emps in
  total_employees g = (active_now g + idle_now g + silent)%Z /\
  active_now g =
    how_many (fun emp => PyStr.eqb (summary_status db emp) (py "active")) emps /\
  idle_now g =
    (how_many (fun emp => PyStr.eqb (summary_status db emp) (py "idle")) emps
     - silent)%Z /\
  total_active_today_min g ==
    round2 (sumQ (List.map (fun emp => fst (fst (summary_totals db emp now))) emps)) /\
  0 <= total_active_today_min g.
Proof.
  intros g emps silent. subst g silent. unfold get_global_summary, how_many.
  fold emps. destruct (_today_bounds now) as [s e].
  pose proof (totals_fold db now emps 0 0) as Hsum.
  destruct (fold_left
              (fun '(totals_active, totals_idle) eid =>
                 let '(active_today, idle_today) := fst (summary_totals db eid now) in
                 (totals_active + active_today, totals_idle + idle_today))
              emps (0, 0)) as [ta ti].
  cbn [fst] in Hsum.
  cbn [total_employees active_now idle_now total_active_today_min].
  assert (Hcount :
    forall l : list pystr,
      let st := List.map (status_entry db) l in
      let act := List.length (List.filter (fun x => PyStr.eqb x (py "active")) st) in
      let idl := List.length (List.filter (fun x => PyStr.eqb x (py "idle")) st) in
      let sil := List.length (List.filter (fun emp => negb (has_events db emp)) l) in
      (List.length l = act + idl + sil)%nat /\
      act = List.length
              (List.filter (fun emp => PyStr.eqb (summary_status db emp) (py "active")) l) /\
      (idl + sil)%nat =
        List.length
          (List.filter (fun emp => PyStr.eqb (summary_status db emp) (py "idle")) l)).
  { induction l as [|x l IH]; [repeat split|].
    cbn zeta in *. cbn [List.map List.filter List.length].
    destruct IH as (I1 & I2 & I3).
    destruct (status_cases db x) as [(Hh & H1 & H2)|(Hh & H1 & [H2|H2])];
      rewrite Hh; [rewrite H1, H2 | rewrite <- H1, H2 | rewrite <- H1, H2];
      cbn [negb];
      repeat match goal with
             | |- context [PyStr.eqb (py ?a) (py ?b)] =>
                 let v := eval vm_compute in (PyStr.eqb (py a) (py b)) in
                 change (PyStr.eqb (py a) (py b)) with v
             end;
      cbn [List.length]; repeat split; lia. }
  destruct (Hcount emps) as (C1 & C2 & C3). cbn zeta in C1, C2, C3.
  split; [lia|]. split; [lia|]. split; [lia|].
  assert (Heq : round2 ta ==
                round2 (sumQ (List.map (fun emp => fst (fst (summary_totals db emp now)))
                                emps))).
  { apply round2_eq. rewrite Hsum. ring. }
  split; [exact Heq|]. rewrite Heq.
  apply Qle_trans with (round2 0); [vm_compute; discriminate|].
  apply round2_mono. apply sumQ_nonneg.
  apply Forall_forall. intros x Hx. apply in_map_iff in Hx.
  destruct Hx as (emp & <- & _). apply today_active_nonneg.
Qed.

(** X26: the status follows the log.  After a successful [log_event] for
    an employee, with a timestamp that none of that employee's stored events
    exceeds, both [get_all_employees_status] and [get_employee_summary]
    report the status that the new event's type stands for: [active] for
    [active], [window_change] and [non_work_detected], [idle] for any other
    type.  Nobody else's status changes. *)
Theorem status_follows_log (db db' : Database) (rowid : Z) (emp kind : pystr)
    (window process : option pystr) (ts now : timestamp) :
  log_event db rowid emp kind window process (Some ts) now = Inserted (rowid, db') ->
  (forall e, In e (db_events db) -> ev_employee_id e = emp ->
             (ev_timestamp e <= ts)%Z) ->
  let shown :=
    if in_tuple kind [py "active"; py "window_change"; py "non_work_detected"]
    then py "active" else py "idle" in
  status_entry db' emp = shown /\
  summary_status db' emp = shown /\
  forall other, other <> emp ->
    status_entry db' other = status_entry db other /\
    summary_status db' other = summary_status db other.
Proof.
  intros Hlog Hlatest shown. unfold log_event in Hlog.
  destruct (negb (db_writable db)); [discriminate|].
  destruct (negb (existsb (PyStr.eqb emp) (db_employees db))); [discriminate|].
  injection Hlog as <-.
  set (new := mkEvent rowid emp ts kind window process).
  assert (Hstep : forall who,
             last_event
               (mkDatabase (db_employees db) (db_events db ++ [new])
                  (db_screenshots db) (db_movement_logs db) (db_writable db)) who =
             latest_step who (last_event db who) new).
  { intro who. unfold last_event. cbn [db_events]. now rewrite fold_left_app. }
  assert (Hnew : latest_step emp (last_event db emp) new = Some new).
  { unfold latest_step. cbn [ev_employee_id new]. rewrite pystr_eqb_refl.
    destruct (last_event db emp) as [b|] eqn:L; [|reflexivity].
    unfold last_event in L. apply latest_fold_some in L.
    destruct L as [L|[Hin Hemp]]; [discriminate|].
    replace (ev_timestamp b <=? ev_timestamp new)%Z with true; [reflexivity|].
    symmetry. apply Z.leb_le. cbn [ev_timestamp new]. now apply Hlatest. }
  unfold status_entry, summary_status. rewrite !Hstep, Hnew.
  split; [reflexivity|]. split; [reflexivity|].
  intros other Hne. rewrite !Hstep. unfold latest_step.
  cbn [ev_employee_id new].
  replace (PyStr.eqb emp other) with false; [now split|].
  symmetry. apply pystr_eqb_neq. congruence.
Qed.

Lemma status_follows_log_witness :
  status_entry
    (mkDatabase [py "emp"]
       (db_events scenario_db ++
        [mkEvent 5 (py "emp") 900000001 (py "active") None None]) [] [] true)
    (py "emp") = py "active".
Proof.
  apply (@status_follows_log scenario_db _ 5%Z (py "emp") (py "active") None None
           900000001%Z 0%Z eq_refl).
  intros e Hin _. cbn in Hin.
  repeat (destruct Hin as [<-|Hin]; [cbn; lia|]). destruct Hin.
Defined.

(** ** The active window *)

Lemma first_named_truthy (names : list (option pystr)) : forall p,
  truthy (first_named names p) =
  if existsb truthy names then true
  else match names with [] => truthy p | _ => false end.
Proof.
  induction names as [|n rest IH]; intro p; cbn [first_named existsb]; [reflexivity|].
  destruct (truthy n) eqn:E; cbn [orb]; [exact E|].
  rewrite IH. destruct (existsb truthy rest); [reflexivity|].
  destruct rest; [exact E | reflexivity].
Qed.

(** X27: [get_active_context] never returns an empty title: it is the
    window title when there is one, else the foreground process name when
    there is one, else [Unknown Window]; so the fallback of
    [get_active_window] never applies and it returns that same title.  The
    process name returned is a real name exactly when the foreground
    process has one or, failing that, the process list could be read and
    some process in it has one; it is then the foreground name or the first
    such name of the list. *)
Theorem active_context_title (window_title foreground : option pystr)
    (running : option (list (option pystr))) :
  let ctx := get_active_context window_title foreground running in
  ctx_title ctx <> [] /\
  get_active_window window_title foreground running = ctx_title ctx /\
  ctx_title ctx =
    or_else window_title (or_else foreground (py "Unknown Window")) /\
  truthy (ctx_process_name ctx) =
    (truthy foreground ||
     match running with
     | Some names => existsb truthy names
     | None => false
     end) /\
  (truthy foreground = true -> ctx_process_name ctx = foreground) /\
  (truthy foreground = false ->
   forall skipped name rest,
     running = Some (skipped ++ Some name :: rest) ->
     existsb truthy skipped = false -> name <> [] ->
     ctx_process_name ctx = Some name).
Proof.
  intro ctx. subst ctx. unfold get_active_window, get_active_context.
  cbn [ctx_title ctx_process_name].
  assert (Htitle :
    match (if truthy window_title then window_title else None) with
    | Some (c :: t) => c :: t
    | _ => or_else foreground (py "Unknown Window")
    end = or_else window_title (or_else foreground (py "Unknown Window"))).
  { destruct window_title as [[|c t]|]; reflexivity. }
  rewrite Htitle.
  assert (Hne : or_else window_title (or_else foreground (py "Unknown Window")) <> []).
  { destruct window_title as [[|c t]|]; cbn [or_else];
      try discriminate; destruct foreground as [[|c' t']|]; discriminate. }
  split; [exact Hne|]. split.
  { destruct (or_else window_title (or_else foreground (py "Unknown Window")));
      [contradiction | reflexivity]. }
  split; [reflexivity|]. split; [|split].
  - destruct (truthy foreground) eqn:F; [exact F|]. cbn [orb].
    destruct running as [names|]; [|reflexivity].
    rewrite first_named_truthy. destruct (existsb truthy names); [reflexivity|].
    destruct names; [exact F | reflexivity].
  - intros ->. reflexivity.
  - intros F skipped name rest -> Hskip Hname. rewrite F.
    clear Htitle Hne. revert foreground F Hskip.
    induction skipped as [|s skipped IH]; intros foreground F Hskip.
    + cbn [List.app first_named]. destruct name; [contradiction | reflexivity].
    + cbn [existsb] in Hskip. apply orb_false_iff in Hskip as [Hs Hrest].
      cbn [first_named]. rewrite <- app_comm_cons. cbn [first_named].
      rewrite Hs. now apply IH.
Qed.

(** ** Runtime settings *)

Section RuntimeSettingsFacts.
Variable V : Type.
Variable int_value : Z -> V.
Variables legacy_interval legacy_jitter : Z.

Lemma fill_has_both (d : Dict.dict V) :
  exists loaded,
    load_runtime_settings int_value legacy_interval legacy_jitter (FileObject d) =
      Loaded (SettingsObject loaded) /\
    load_runtime_settings int_value legacy_interval legacy_jitter
      (match d with [] => FileAbsent | _ => FileObject d end) =
      Loaded (SettingsObject loaded) /\
    Dict.mem loaded INTERVAL_KEY = true /\
    Dict.mem loaded JITTER_KEY = true /\
    (forall k v, Dict.get d k = Some v -> Dict.get loaded k = Some v).
Proof.
  eexists. split; [reflexivity|]. split; [destruct d; reflexivity|].
  assert (HI : Dict.mem (if negb (Dict.mem d INTERVAL_KEY)
                         then Dict.set d INTERVAL_KEY (int_value legacy_interval)
                         else d) INTERVAL_KEY = true).
  { destruct (Dict.mem d INTERVAL_KEY) eqn:E; cbn [negb]; [exact E|].
    unfold Dict.mem. now rewrite dict_get_set_same. }
  assert (HK : forall k v, Dict.get d k = Some v ->
                 Dict.get (if negb (Dict.mem d INTERVAL_KEY)
                           then Dict.set d INTERVAL_KEY (int_value legacy_interval)
                           else d) k = Some v).
  { intros k v H. destruct (Dict.mem d INTERVAL_KEY) eqn:E; cbn [negb]; [exact H|].
    rewrite dict_get_set_other; [exact H|].
    intros <-. unfold Dict.mem in E. now rewrite H in E. }
  set (d1 := if negb (Dict.mem d INTERVAL_KEY)
             then Dict.set d INTERVAL_KEY (int_value legacy_interval)
             else d) in *.
  destruct (Dict.mem d1 JITTER_KEY) eqn:E; cbn [negb].
  - split; [exact HI|]. split; [exact E|]. exact HK.
  - split; [|split].
    + unfold Dict.mem. rewrite dict_get_set_other by discriminate. exact HI.
    + unfold Dict.mem. now rewrite dict_get_set_same.
    + intros k v H. apply HK in H. rewrite dict_get_set_other; [exact H|].
      intros <-. unfold Dict.mem in E. now rewrite H in E.
Qed.

Lemma load_fixed (d : Dict.dict V) :
  Dict.mem d INTERVAL_KEY = true -> Dict.mem d JITTER_KEY = true ->
  load_runtime_settings int_value legacy_interval legacy_jitter (FileObject d) =
    Loaded (SettingsObject d).
Proof.
  intros HI HJ. unfold load_runtime_settings. rewrite HI. cbn [negb].
  now rewrite HJ.
Qed.

Lemma set_keeps_mem (d : Dict.dict V) (k k' : pystr) (v : V) :
  Dict.mem d k' = true -> Dict.mem (Dict.set d k v) k' = true.
Proof.
  intro H. unfold Dict.mem in *.
  destruct (PyStr.eqb k k') eqn:E.
  - apply pystr_eqb_eq in E. subst. now rewrite dict_get_set_same.
  - apply pystr_eqb_neq in E. now rewrite dict_get_set_other.
Qed.

Lemma save_to_object (file : SettingsFile V) (loaded out : Dict.dict V) :
  load_runtime_settings int_value legacy_interval legacy_jitter file =
    Loaded (SettingsObject loaded) ->
  save_runtime_settings int_value legacy_interval legacy_jitter file true out =
    FileObject (dict_update loaded out) /\
  save_runtime_settings int_value legacy_interval legacy_jitter file false out = file.
Proof.
  intro H. unfold save_runtime_settings. rewrite H. now split.
Qed.

Lemma save_elsewhere (file : SettingsFile V) (can_write : bool) (out : Dict.dict V) :
  (forall d, load_runtime_settings int_value legacy_interval legacy_jitter file <>
             Loaded (SettingsObject d)) ->
  save_runtime_settings int_value legacy_interval legacy_jitter file can_write out = file.
Proof.
  intro H. unfold save_runtime_settings.
  destruct (load_runtime_settings int_value legacy_interval legacy_jitter file)
    as [[d|]|]; [now destruct (H d) | reflexivity | reflexivity].
Qed.

(** X28: the runtime settings through the dashboard, for every content of
    the settings file and of the request body.

    A file that is absent, unreadable, or holds a JSON object: loading
    returns a dict with both screenshot keys and every value of the file.  A
    request whose body is an object with an interval that [int] accepts is
    answered with the settings as stored: the interval is the posted one
    clamped to 30 s .. 6 h, the jitter is the posted one clamped to 0 .. 1 h
    or else what loading gave before, every other key is as loading gave it
    before, and a later load returns the same.  When the file cannot be
    written the request is still answered as saved, with the settings as
    loaded before, and the file is as it was.

    A file that holds a list, a string or another value that is not an
    object: loading raises [TypeError], unless it is a list or string that
    contains both keys, which is returned as it is; the GET request answers
    with status 500 in the first case.  Nothing is ever written over such a
    file, and a request with a usable interval is answered with status 500,
    or with the list or string.

    A body without a usable key is refused with status 400 and writes
    nothing; a body that is a number or [true] is answered with status
    500. *)
Theorem settings_round_trip (file : SettingsFile V) (body : Dict.dict (option Z)) :
  (forall d,
      file = FileObject d \/ (file = FileAbsent /\ d = []) ->
      exists loaded,
        load_runtime_settings int_value legacy_interval legacy_jitter file =
          Loaded (SettingsObject loaded) /\
        Dict.mem loaded INTERVAL_KEY = true /\
        Dict.mem loaded JITTER_KEY = true /\
        (forall k v, Dict.get d k = Some v -> Dict.get loaded k = Some v) /\
        forall val,
          Dict.get body INTERVAL_KEY = Some (Some val) ->
          exists stored,
            api_set_runtime_settings int_value legacy_interval legacy_jitter
              file true (BodyObject body) =
              (SettingsSaved (SettingsObject stored), FileObject stored) /\
            load_runtime_settings int_value legacy_interval legacy_jitter
              (FileObject stored) = Loaded (SettingsObject stored) /\
            Dict.get stored INTERVAL_KEY = Some (int_value (clamp_interval val)) /\
            (30 <= clamp_interval val <= 21600)%Z /\
            Dict.get stored JITTER_KEY =
              match Dict.get body JITTER_KEY with
              | Some (Some j) => Some (int_value (clamp_jitter j))
              | _ => Dict.get loaded JITTER_KEY
              end /\
            (forall k, k <> INTERVAL_KEY -> k <> JITTER_KEY ->
                       Dict.get stored k = Dict.get loaded k) /\
            api_set_runtime_settings int_value legacy_interval legacy_jitter
              file false (BodyObject body) =
              (SettingsSaved (SettingsObject loaded), file)) /\
  (forall has_interval has_jitter,
      file = FileScalar \/ file = FileSequence has_interval has_jitter ->
      let whole := match file with
                   | FileSequence true true => true
                   | _ => false
                   end in
      load_runtime_settings int_value legacy_interval legacy_jitter file =
        (if whole then Loaded SettingsSequence else LoadTypeError) /\
      api_get_runtime_settings int_value legacy_interval legacy_jitter file =
        (if whole then SettingsSaved SettingsSequence else ServerError) /\
      (forall can_write settings,
          save_runtime_settings int_value legacy_interval legacy_jitter
            file can_write settings = file) /\
      forall val can_write,
        Dict.get body INTERVAL_KEY = Some (Some val) ->
        api_set_runtime_settings int_value legacy_interval legacy_jitter
          file can_write (BodyObject body) =
          ((if whole then SettingsSaved SettingsSequence else ServerError), file)) /\
  (forall can_write,
      ((forall val, Dict.get body INTERVAL_KEY <> Some (Some val)) ->
       (forall val, Dict.get body JITTER_KEY <> Some (Some val)) ->
       api_set_runtime_settings int_value legacy_interval legacy_jitter
         file can_write (BodyObject body) = (NoValidKeys, file)) /\
      api_set_runtime_settings int_value legacy_interval legacy_jitter
        file can_write BodySequence = (NoValidKeys, file) /\
      api_set_runtime_settings int_value legacy_interval legacy_jitter
        file can_write BodyScalar = (ServerError, file)).
Proof.
  split; [|split].
  - intros d Hfile.
    destruct (fill_has_both d) as (loaded & Hobj & Habs & HI & HJ & HK).
    assert (Hload : load_runtime_settings int_value legacy_interval legacy_jitter file =
                    Loaded (SettingsObject loaded)).
    { destruct Hfile as [->|[-> ->]]; [exact Hobj | exact Habs]. }
    exists loaded. split; [exact Hload|]. split; [exact HI|]. split; [exact HJ|].
    split; [exact HK|].
    intros val Hval.
    assert (Hclamp : (30 <= clamp_interval val <= 21600)%Z)
      by (unfold clamp_interval; lia).
    unfold api_set_runtime_settings. rewrite Hval. cbn [Dict.set].
    destruct (Dict.get body JITTER_KEY) as [[j|]|] eqn:Hj.
    + cbn [Dict.set].
      replace (PyStr.eqb JITTER_KEY INTERVAL_KEY) with false by reflexivity.
      destruct (save_to_object file
                  [(INTERVAL_KEY, int_value (clamp_interval val));
                   (JITTER_KEY, int_value (clamp_jitter j))] Hload) as [-> ->].
      unfold dict_update. cbn [fold_left fst snd].
      set (stored := Dict.set
                       (Dict.set loaded INTERVAL_KEY (int_value (clamp_interval val)))
                       JITTER_KEY (int_value (clamp_jitter j))).
      assert (Hfix : load_runtime_settings int_value legacy_interval legacy_jitter
                       (FileObject stored) = Loaded (SettingsObject stored))
        by (apply load_fixed; subst stored; repeat apply set_keeps_mem; assumption).
      exists stored. rewrite Hfix, Hload.
      split; [reflexivity|]. split; [reflexivity|]. split.
      { subst stored. rewrite dict_get_set_other by discriminate.
        apply dict_get_set_same. }
      split; [exact Hclamp|]. split; [subst stored; apply dict_get_set_same|].
      split; [|reflexivity].
      intros k H1 H2. subst stored.
      rewrite !dict_get_set_other by congruence. reflexivity.
    + destruct (save_to_object file
                  [(INTERVAL_KEY, int_value (clamp_interval val))] Hload) as [-> ->].
      unfold dict_update. cbn [fold_left fst snd].
      set (stored := Dict.set loaded INTERVAL_KEY (int_value (clamp_interval val))).
      assert (Hfix : load_runtime_settings int_value legacy_interval legacy_jitter
                       (FileObject stored) = Loaded (SettingsObject stored))
        by (apply load_fixed; subst stored; apply set_keeps_mem; assumption).
      exists stored. rewrite Hfix, Hload.
      split; [reflexivity|]. split; [reflexivity|].
      split; [subst stored; apply dict_get_set_same|].
      split; [exact Hclamp|].
      split; [subst stored; now rewrite dict_get_set_other by discriminate|].
      split; [|reflexivity].
      intros k H1 H2. subst stored. now rewrite dict_get_set_other by congruence.
    + destruct (save_to_object file
                  [(INTERVAL_KEY, int_value (clamp_interval val))] Hload) as [-> ->].
      unfold dict_update. cbn [fold_left fst snd].
      set (stored := Dict.set loaded INTERVAL_KEY (int_value (clamp_interval val))).
      assert (Hfix : load_runtime_settings int_value legacy_interval legacy_jitter
                       (FileObject stored) = Loaded (SettingsObject stored))
        by (apply load_fixed; subst stored; apply set_keeps_mem; assumption).
      exists stored. rewrite Hfix, Hload.
      split; [reflexivity|]. split; [reflexivity|].
      split; [subst stored; apply dict_get_set_same|].
      split; [exact Hclamp|].
      split; [subst stored; now rewrite dict_get_set_other by discriminate|].
      split; [|reflexivity].
      intros k H1 H2. subst stored. now rewrite dict_get_set_other by congruence.
  - intros has_interval has_jitter Hfile whole.
    assert (Hload : load_runtime_settings int_value legacy_interval legacy_jitter file =
                    (if whole then Loaded SettingsSequence else LoadTypeError)).
    { subst whole. destruct Hfile as [->| ->]; [reflexivity|].
      destruct has_interval, has_jitter; reflexivity. }
    assert (Hsave : forall can_write settings,
               save_runtime_settings int_value legacy_interval legacy_jitter
                 file can_write settings = file).
    { intros can_write settings. apply save_elsewhere.
      intro d. rewrite Hload. destruct whole; discriminate. }
    split; [exact Hload|]. split.
    { unfold api_get_runtime_settings. rewrite Hload. now destruct whole. }
    split; [exact Hsave|].
    intros val can_write Hval. unfold api_set_runtime_settings.
    rewrite Hval. cbn [Dict.set].
    destruct (Dict.get body JITTER_KEY) as [[j|]|]; cbn [Dict.set];
      try replace (PyStr.eqb JITTER_KEY INTERVAL_KEY) with false by reflexivity;
      rewrite Hsave, Hload; now destruct whole.
  - intro can_write. split; [|split; reflexivity].
    intros HI HJ. unfold api_set_runtime_settings.
    destruct (Dict.get body INTERVAL_KEY) as [[i|]|]; [now destruct (HI i)| |];
      (destruct (Dict.get body JITTER_KEY) as [[j|]|]; [now destruct (HJ j)| |]);
      reflexivity.
Qed.
End RuntimeSettingsFacts.

Lemma settings_round_trip_witness :
  exists stored,
    api_set_runtime_settings (fun z : Z => z) 30 60 FileAbsent true
      (BodyObject [(INTERVAL_KEY, Some 5%Z)]) =
      (SettingsSaved (SettingsObject stored), FileObject stored) /\
    Dict.get stored INTERVAL_KEY = Some 30%Z.
Proof.
  destruct (proj1 (@settings_round_trip Z (fun z => z) 30%Z 60%Z FileAbsent
                     [(INTERVAL_KEY, Some 5%Z)]) [] (or_intror (conj eq_refl eq_refl)))
    as (loaded & _ & _ & _ & _ & Hpost).
  destruct (Hpost 5%Z eq_refl) as (stored & Hp & _ & Hget & _).
  exists stored. split; [exact Hp | exact Hget].
Defined.

(** ** Key presses *)

Section KeyPressFacts.
Variable isalpha : pystr -> bool.
Variable IDLE_THRESHOLD : Q.

Lemma add_event_ok (self : ActivityDetector) (db : Database) (m : Movement) :
  db_writable db = true ->
  (List.length (movement_events self) < 50)%nat ->
  exists self' db',
    _add_event (self, db) m = (Ok tt, (self', db')) /\
    add_events (self, db) [m] = (Ok tt, (self', db')) /\
    (List.length (movement_events self') < 50)%nat /\
    employee_id self' = employee_id self /\
    db_writable db' = true.
Proof.
  intros Hw Hlen.
  destruct (@add_events_run [m] self db Hw Hlen)
    as (self' & db' & Hrun & Hlen' & Hid & _ & _ & _ & _ & Hw').
  exists self', db'. cbn [add_events] in Hrun.
  destruct (_add_event (self, db) m) as [[[]|x] w'] eqn:E.
  - injection Hrun as ->. cbn [add_events]. rewrite E. repeat split; auto.
  - discriminate Hrun.
Qed.

Lemma last_default (A : Type) (x : A) (l : list A) (d d' : A) :
  last (x :: l) d = last (x :: l) d'.
Proof.
  revert x. induction l as [|y l IH]; intro x; [reflexivity|].
  change (last (y :: l) d = last (y :: l) d'). apply IH.
Qed.

Lemma add_events_app (a b : list Movement) : forall w w',
  add_events w a = (Ok tt, w') -> add_events w (a ++ b) = add_events w' b.
Proof.
  induction a as [|x a IH]; intros w w' H; cbn [add_events List.app] in *.
  - now injection H as ->.
  - destruct (_add_event w x) as [[[]|e] w1]; [|discriminate]. now apply IH.
Qed.

Lemma key_presses_run (keys : list (Key * timestamp * Q)) :
  forall (self : ActivityDetector) (db : Database) (seen : Q),
    db_writable db = true ->
    (List.length (movement_events self) < 50)%nat ->
    exists self' db',
      key_presses isalpha (mkTracked (self, db) seen) keys =
        (Ok tt, mkTracked (self', db') (seen_after isalpha seen keys)) /\
      add_events (self, db) (List.map key_record (other_keys isalpha keys)) =
        (Ok tt, (self', db')).
Proof.
  induction keys as [|[[key stamp] clock] rest IH]; intros self db seen Hw Hlen.
  - exists self, db. split; reflexivity.
  - cbn [key_presses].
    assert (Ho : other_keys isalpha ((key, stamp, clock) :: rest) =
                 if negb (is_letter isalpha key)
                 then (key, stamp, clock) :: other_keys isalpha rest
                 else other_keys isalpha rest) by reflexivity.
    unfold seen_after. rewrite Ho. clear Ho.
    unfold _on_key_press. change (negb LOG_SENSITIVE_KEYS) with true. cbn [andb].
    fold (is_letter isalpha key).
    destruct (is_letter isalpha key) eqn:L; cbn [negb].
    + destruct (IH self db seen Hw Hlen) as (self' & db' & Hrun & Hadd).
      exists self', db'. split; [exact Hrun | exact Hadd].
    + cbn [tr_world last_activity_time List.map snd].
      set (m := mkMovement stamp (py "key_press")
                  (match key_char_of key with Some c => c | None => key_shown key end) 0).
      destruct (add_event_ok self db m Hw Hlen)
        as (self1 & db1 & Hone & Hone' & Hlen1 & _ & Hw1).
      rewrite Hone.
      destruct (IH self1 db1 clock Hw1 Hlen1) as (self' & db' & Hrun & Hadd).
      exists self', db'. split.
      * rewrite Hrun. f_equal. f_equal. unfold seen_after.
        destruct (List.map snd (other_keys isalpha rest)) as [|q l]; [reflexivity|].
        cbn [last]. apply last_default.
      * change (key_record (key, stamp, clock)) with m.
        change (m :: List.map key_record (other_keys isalpha rest))
          with ([m] ++ List.map key_record (other_keys isalpha rest)).
        rewrite (@add_events_app [m] _ _ _ Hone'). exact Hadd.
Qed.

(** X29: letters are passed over, everything else is kept.  On a store
    that accepts writes, from a batch below the threshold, any run of key
    presses succeeds; the rows of [movement_logs] followed by the buffered
    records are then the old ones followed by one [key_press] record for
    each key of the run that is not a letter, in order, and no record at all
    for a letter.  The activity time is the clock of the last key that was
    not a letter: a run of letters alone changes neither the batch, the store
    nor the activity time, so [get_status] answers as if no key had been
    pressed. *)
Theorem letters_are_passed_over (keys : list (Key * timestamp * Q))
    (self : ActivityDetector) (db : Database) (seen : Q) :
  db_writable db = true ->
  (List.length (movement_events self) < 50)%nat ->
  exists self' db',
    key_presses isalpha (mkTracked (self, db) seen) keys =
      (Ok tt, mkTracked (self', db') (seen_after isalpha seen keys)) /\
    db_movement_logs db' ++
      List.map (movement_row (employee_id self)) (movement_events self') =
    db_movement_logs db ++
      List.map (movement_row (employee_id self))
        (movement_events self ++ List.map key_record (other_keys isalpha keys)) /\
    (forall k, In k keys -> is_letter isalpha (fst (fst k)) = true ->
               ~ In k (other_keys isalpha keys)) /\
    (forallb (fun k => is_letter isalpha (fst (fst k))) keys = true ->
     (self', db') = (self, db) /\
     seen_after isalpha seen keys = seen /\
     forall clock,
       get_status IDLE_THRESHOLD (mkTracked (self', db') (seen_after isalpha seen keys))
         clock =
       get_status IDLE_THRESHOLD (mkTracked (self, db) seen) clock).
Proof.
  intros Hw Hlen.
  destruct (key_presses_run keys self db seen Hw Hlen) as (self' & db' & Hrun & Hadd).
  destruct (@add_events_run (List.map key_record (other_keys isalpha keys)) self db
              Hw Hlen)
    as (self2 & db2 & Hrun2 & _ & _ & Hrows & _).
  rewrite Hadd in Hrun2. injection Hrun2 as <- <-.
  exists self', db'. split; [exact Hrun|]. split; [exact Hrows|]. split.
  - intros k _ Hl Hin. unfold other_keys in Hin. apply filter_In in Hin.
    destruct Hin as [_ Hin]. rewrite Hl in Hin. discriminate Hin.
  - intro Hall.
    assert (Hnone : other_keys isalpha keys = []).
    { unfold other_keys. clear -Hall.
      induction keys as [|k keys IH]; [reflexivity|].
      cbn [forallb] in Hall. apply andb_true_iff in Hall as [Hk Hall].
      cbn [List.filter]. rewrite Hk. cbn [negb]. now apply IH. }
    rewrite Hnone in Hadd. cbn [List.map add_events] in Hadd.
    injection Hadd as <- <-.
    assert (Hseen : seen_after isalpha seen keys = seen)
      by (unfold seen_after; now rewrite Hnone).
    split; [reflexivity|]. split; [exact Hseen|].
    intro clock. now rewrite Hseen.
Qed.
End KeyPressFacts.

Lemma letters_are_passed_over_witness :
  exists w,
    key_presses (fun c => PyStr.eqb c (py "a")) (mkTracked (mkDetector [] None, scenario_db) 0)
      [(KeyCode (Some (py "a")) (py "'a'"), 5%Z, 9)] = (Ok tt, w) /\
    last_activity_time w == 0.
Proof.
  destruct (@letters_are_passed_over (fun c => PyStr.eqb c (py "a")) 30
              [(KeyCode (Some (py "a")) (py "'a'"), 5%Z, 9)]
              (mkDetector [] None) scenario_db 0 eq_refl)
    as (self' & db' & Hrun & _).
  - cbn. lia.
  - eexists. split; [exact Hrun|]. reflexivity.
Defined.
